(** * LLM playground gateway: request validation, provider dispatch,
      response normalisation and SSE relay

    A shallow embedding of the Express backend:

    - [config/environment.js]   ([getProviderConfig], [getDefaultParameters],
      [envSchema], [validateEnvironment])
    - [middleware/validation.js] ([requestSchema], [validateRequest],
      [validateModelProvider], [validateModelCompatibility])
    - [middleware/errorHandler.js] ([APIError], [ConfigurationError],
      [getErrorMessage], [formatErrorResponse], [errorHandler], [asyncHandler])
    - [services/modelService.js] (the four provider adapters and
      [createModelService])
    - [routes/models.js] (the [/providers], [/:provider], [/chat] and
      [/stream] handlers and [getProviderModels])
    - [routes/speech.js] (the [/transcribe] handler) with
      [GoogleAIService.transcribeSpeech]
    - [backend-integration.js] ([BackendAPIClient], the browser's client of
      the chat and stream routes).

    JavaScript values are modelled as JSON trees, [undefined] as [None].
    Strings are byte strings (UTF-8).  Library and engine functions whose
    algorithm is not part of the repository ([JSON.parse], number printing,
    Joi's string-to-number coercion and its built-in message templates, the
    engine's [TypeError] texts and stack traces) are fields of a [Runtime]
    record that every definition takes as a parameter. *)

From Stdlib Require Import String Ascii List ZArith QArith Bool Lia DecimalString.
From stdpp Require Import base option list strings gmap.
Import ListNotations.
Local Open Scope string_scope.

(** ** JavaScript values *)

Module JS.

(** A JS number.  [Num q] is a finite double, written by its value [q]; the
    code never does arithmetic on the numbers it handles (it only compares
    them with integer bounds and passes them on), so a value stands for the
    double it is read as. *)
Inductive number :=
| Num (q : Q)
| NaN
| Infinity (negative : bool).

Local Unset Elimination Schemes.
Inductive Json :=
| JNull
| JBool (b : bool)
| JNum (n : number)
| JStr (s : string)
| JArr (items : list Json)
| JObj (fields : list (string * Json)).

Local Set Elimination Schemes.

(** A value that may be [undefined]. *)
Abbreviation JsVal := (option Json).

Definition LF : string := String (ascii_of_nat 10) EmptyString.
Definition DQUOTE : string := String (ascii_of_nat 34) EmptyString.

Definition num_zero (n : number) : bool :=
  match n with
  | Num q => Qeq_bool q 0
  | _ => false
  end.

(** ToBoolean. *)
Definition truthy (v : JsVal) : bool :=
  match v with
  | None => false
  | Some JNull => false
  | Some (JBool b) => b
  | Some (JNum NaN) => false
  | Some (JNum n) => negb (num_zero n)
  | Some (JStr s) => negb (String.eqb s EmptyString)
  | Some (JArr _) => true
  | Some (JObj _) => true
  end.

(** [a || b] on values. *)
Definition js_or (a b : JsVal) : JsVal := if truthy a then a else b.

(** [v === undefined || v === null]. *)
Definition nullish (v : JsVal) : bool :=
  match v with
  | None | Some JNull => true
  | _ => false
  end.

(** *** Objects as ordered key/value lists *)

Definition Obj := list (string * Json).

Fixpoint obj_get (k : string) (o : Obj) : JsVal :=
  match o with
  | [] => None
  | (k', v) :: rest => if String.eqb k k' then Some v else obj_get k rest
  end.

(** [o[k] = v]: replaces the value in place, or appends a new key. *)
Fixpoint obj_set (k : string) (v : Json) (o : Obj) : Obj :=
  match o with
  | [] => [(k, v)]
  | (k', v') :: rest =>
      if String.eqb k k' then (k, v) :: rest else (k', v') :: obj_set k v rest
  end.

(** [delete o[k]]. *)
Definition obj_delete (k : string) (o : Obj) : Obj :=
  List.filter (fun kv => negb (String.eqb k (fst kv))) o.

(** [{ ...a, ...b }]. *)
Definition obj_spread (a b : Obj) : Obj :=
  fold_left (fun acc kv => obj_set (fst kv) (snd kv) acc) b a.

(** An object literal some of whose values may be [undefined]; serialising
    it drops those keys, which is how the value is written here. *)
Definition obj_literal (fields : list (string * JsVal)) : Obj :=
  omap (fun kv => match snd kv with
                  | Some v => Some (fst kv, v)
                  | None => None
                  end) fields.

Definition obj_keys (o : Obj) : list string := map fst o.

(** *** Strings *)

Definition chars (s : string) : list ascii := list_ascii_of_string s.
Definition unchars (l : list ascii) : string := string_of_list_ascii l.

(** [s.length]: UTF-16 code units of a UTF-8 byte string.  A continuation
    byte adds nothing and a four-byte sequence is a surrogate pair. *)
Definition utf16_units (c : ascii) : N :=
  let n := nat_of_ascii c in
  if (n <? 128)%nat then 1%N
  else if (n <? 192)%nat then 0%N
  else if (n <? 240)%nat then 1%N else 2%N.

Definition js_length (s : string) : N :=
  fold_right (fun c acc => (utf16_units c + acc)%N) 0%N (chars s).

Definition lower_ascii (c : ascii) : ascii :=
  let n := nat_of_ascii c in
  if ((65 <=? n) && (n <=? 90))%nat then ascii_of_nat (n + 32) else c.

(** [s.toLowerCase()], on the ASCII letters. *)
Definition toLowerCase (s : string) : string := unchars (map lower_ascii (chars s)).

Definition is_space (c : ascii) : bool :=
  let n := nat_of_ascii c in
  ((n =? 32) || ((9 <=? n) && (n <=? 13)))%nat.

Fixpoint drop_spaces (l : list ascii) : list ascii :=
  match l with
  | c :: rest => if is_space c then drop_spaces rest else l
  | [] => []
  end.

(** [s.trim()], on the ASCII white space. *)
Definition trim (s : string) : string :=
  unchars (rev (drop_spaces (rev (drop_spaces (chars s))))).

(** [s.startsWith(p)]. *)
Definition startsWith (p s : string) : bool := String.prefix p s.

(** [s.slice(n)], for [n] within an ASCII prefix. *)
Definition slice (n : nat) (s : string) : string :=
  String.substring n (String.length s - n)%nat s.

(** [s.split('\n')]. *)
Fixpoint split_lines_aux (cur : list ascii) (l : list ascii) : list string :=
  match l with
  | [] => [unchars (rev cur)]
  | c :: rest =>
      if Ascii.eqb c (ascii_of_nat 10)
      then unchars (rev cur) :: split_lines_aux [] rest
      else split_lines_aux (c :: cur) rest
  end.

Definition split_lines (s : string) : list string := split_lines_aux [] (chars s).

Fixpoint join (sep : string) (l : list string) : string :=
  match l with
  | [] => EmptyString
  | [x] => x
  | x :: rest => x +:+ sep +:+ join sep rest
  end.

End JS.
Export JS.

(** ** The engine and library functions taken as parameters *)

Record Runtime := {
  (** [JSON.parse]; [None] when it throws a SyntaxError. *)
  JSON_parse : string -> option Json;
  (** [Number.prototype.toString] on a finite number. *)
  Number_toString : Q -> string;
  (** Joi's [number] coercion of a string input ([convert] is on by default):
      [None] when the string is not a number literal, otherwise the number
      read and whether Joi rejects it as [number.unsafe]. *)
  Joi_number_coerce : string -> option (number * bool);
  (** Joi's built-in message for an error code at a path. *)
  Joi_message : string -> list string -> string;
  (** The engine's message for reading a property of [undefined] or [null]. *)
  TypeError_message : string -> string;
  (** The stack trace of an error, from its name and message. *)
  Error_stack : string -> string -> string
}.

Module Builtins.

Section WithRuntime.
Variable rt : Runtime.

Definition number_to_string (n : number) : string :=
  match n with
  | Num q => Number_toString rt q
  | NaN => "NaN"
  | Infinity false => "Infinity"
  | Infinity true => "-Infinity"
  end.

Definition hex_digit (n : nat) : ascii :=
  if (n <? 10)%nat then ascii_of_nat (48 + n) else ascii_of_nat (87 + n).

(** QuoteJSONString, byte by byte. *)
Definition quote_char (c : ascii) : string :=
  let n := nat_of_ascii c in
  if (n =? 34)%nat then "\" +:+ DQUOTE
  else if (n =? 92)%nat then "\\"
  else if (n =? 8)%nat then "\b"
  else if (n =? 12)%nat then "\f"
  else if (n =? 10)%nat then "\n"
  else if (n =? 13)%nat then "\r"
  else if (n =? 9)%nat then "\t"
  else if (n <? 32)%nat
       then "\u00" +:+ String (hex_digit (n / 16)) (String (hex_digit (n mod 16)) EmptyString)
  else String c EmptyString.

Definition quote (s : string) : string :=
  DQUOTE +:+ fold_right (fun c acc => quote_char c +:+ acc) EmptyString (chars s) +:+ DQUOTE.

(** [JSON.stringify] of a JSON tree. *)
Fixpoint JSON_stringify (j : Json) : string :=
  match j with
  | JNull => "null"
  | JBool true => "true"
  | JBool false => "false"
  | JNum (Num q) => Number_toString rt q
  | JNum _ => "null"
  | JStr s => quote s
  | JArr items => "[" +:+ join "," (map JSON_stringify items) +:+ "]"
  | JObj fields =>
      "{" +:+ join "," (map (fun kv => quote (fst kv) +:+ ":" +:+ JSON_stringify (snd kv)) fields)
          +:+ "}"
  end.

(** ToString of a JSON tree ([String(v)], template literals, [new Error(v)]). *)
Fixpoint ToString (j : Json) : string :=
  match j with
  | JNull => "null"
  | JBool true => "true"
  | JBool false => "false"
  | JNum n => number_to_string n
  | JStr s => s
  | JArr items =>
      join "," (map (fun x => match x with JNull => EmptyString | _ => ToString x end) items)
  | JObj _ => "[object Object]"
  end.

End WithRuntime.

(** *** [parseFloat] and [parseInt]

    Both read the longest numeric prefix after leading white space.  The
    value is kept exactly: rounding to the nearest double and overflow to
    [Infinity] are not modelled. *)

Definition digit_val (c : ascii) : option Z :=
  let n := nat_of_ascii c in
  if ((48 <=? n) && (n <=? 57))%nat then Some (Z.of_nat (n - 48)) else None.

Definition hex_val (c : ascii) : option Z :=
  let n := nat_of_ascii c in
  if ((48 <=? n) && (n <=? 57))%nat then Some (Z.of_nat (n - 48))
  else if ((97 <=? n) && (n <=? 102))%nat then Some (Z.of_nat (n - 87))
  else if ((65 <=? n) && (n <=? 70))%nat then Some (Z.of_nat (n - 55))
  else None.

(** The digits at the head of [l] in base [radix]: their value, how many
    there are, and what follows. *)
Fixpoint read_digits (val : ascii -> option Z) (radix : Z) (l : list ascii)
    (acc : Z) (count : nat) : Z * nat * list ascii :=
  match l with
  | c :: rest =>
      match val c with
      | Some d => read_digits val radix rest (acc * radix + d)%Z (S count)
      | None => (acc, count, l)
      end
  | [] => (acc, count, [])
  end.

Definition read_sign (l : list ascii) : bool * list ascii :=
  match l with
  | c :: rest =>
      if Ascii.eqb c "-"%char then (true, rest)
      else if Ascii.eqb c "+"%char then (false, rest)
      else (false, l)
  | [] => (false, [])
  end.

Definition signed (neg : bool) (q : Q) : Q := if neg then Qopp q else q.

(** The ExponentPart at the head of [l], 0 when there is none. *)
Definition read_exponent (l : list ascii) : Z :=
  match l with
  | c :: rest =>
      if Ascii.eqb c "e"%char || Ascii.eqb c "E"%char then
        let '(neg, rest') := read_sign rest in
        let '(e, n, _) := read_digits digit_val 10 rest' 0%Z 0%nat in
        if (n =? 0)%nat then 0%Z else if neg then (- e)%Z else e
      else 0%Z
  | [] => 0%Z
  end.

Definition parseFloat (v : option string) : number :=
  match v with
  | None => NaN
  | Some s =>
      let '(neg, l) := read_sign (drop_spaces (chars s)) in
      if String.prefix "Infinity" (unchars l) then Infinity neg
      else
        let '(ip, ni, l1) := read_digits digit_val 10 l 0%Z 0%nat in
        let '(fp, nf, l2) :=
          match l1 with
          | c :: rest =>
              if Ascii.eqb c "."%char then read_digits digit_val 10 rest 0%Z 0%nat
              else (0%Z, 0%nat, l1)
          | [] => (0%Z, 0%nat, l1)
          end in
        if (ni + nf =? 0)%nat then NaN
        else
          let scale := (10 ^ Z.of_nat nf)%Z in
          let mantissa := Qmake (ip * scale + fp) (Z.to_pos scale) in
          Num (Qred (signed neg (mantissa * Qpower (10 # 1) (read_exponent l2))))
  end.

Definition parseInt (v : option string) : number :=
  match v with
  | None => NaN
  | Some s =>
      let '(neg, l) := read_sign (drop_spaces (chars s)) in
      let hex := String.prefix "0x" (unchars l) || String.prefix "0X" (unchars l) in
      let '(n, count, _) :=
        if hex then read_digits hex_val 16 (skipn 2 l) 0%Z 0%nat
        else read_digits digit_val 10 l 0%Z 0%nat in
      if (count =? 0)%nat then NaN else Num (Qred (signed neg (inject_Z n)))
  end.

(** [n || d] on numbers. *)
Definition num_or (n d : number) : number :=
  match n with
  | NaN => d
  | _ => if num_zero n then d else n
  end.

End Builtins.
Export Builtins.

(** ** Thrown errors

    One record for every error object the code throws or receives; the fields
    are the properties the code reads. *)

Module Errors.

(** [statusCode] is a number, except where the Google adapter passes a text
    code as the second constructor argument. *)
Inductive StatusCode :=
| StatusNum (n : nat)
| StatusText (s : string).

Record JsError := {
  e_name : string;
  e_message : string;
  e_statusCode : option StatusCode;
  e_provider : option string;
  e_details : option (list Json);
  (** [error.code] of an axios or Node error. *)
  e_code : option string;
  (** [error.response] of an axios error: status and body. *)
  e_response : option (nat * JsVal);
  (** Whether [error.request] is set. *)
  e_request : bool;
  e_timestamp : option string
}.

(** [new APIError(message, statusCode = 500, provider = null)]. *)
Definition APIError (now : string) (message : string) (statusCode : StatusCode)
    (provider : option string) : JsError :=
  {| e_name := "APIError"; e_message := message; e_statusCode := Some statusCode;
     e_provider := provider; e_details := None; e_code := None;
     e_response := None; e_request := false; e_timestamp := Some now |}.

(** [new ConfigurationError(message, provider = null)]. *)
Definition ConfigurationError (now : string) (message : string)
    (provider : option string) : JsError :=
  {| e_name := "ConfigurationError"; e_message := message;
     e_statusCode := Some (StatusNum 500);
     e_provider := provider; e_details := None; e_code := None;
     e_response := None; e_request := false; e_timestamp := Some now |}.

(** [new ValidationError(message, details = [])]. *)
Definition ValidationError (now : string) (message : string) (details : list Json)
    : JsError :=
  {| e_name := "ValidationError"; e_message := message;
     e_statusCode := Some (StatusNum 400);
     e_provider := None; e_details := Some details; e_code := None;
     e_response := None; e_request := false; e_timestamp := Some now |}.

(** The engine's TypeError for reading property [k] of [undefined] or [null]. *)
Definition TypeError (rt : Runtime) (k : string) : JsError :=
  {| e_name := "TypeError"; e_message := TypeError_message rt k;
     e_statusCode := None; e_provider := None; e_details := None; e_code := None;
     e_response := None; e_request := false; e_timestamp := None |}.

End Errors.
Export Errors.

(** ** Upstream calls, observable events and the effect monad *)

Module Effects.

(** What is handed to [axios.post]. *)
Record AxiosRequest := {
  url : string;
  data : Obj;
  request_headers : list (string * string);
  (** [params]: the query string. *)
  query : list (string * string);
  (** [responseType: 'stream']. *)
  stream_response : bool;
  (** Milliseconds. *)
  timeout : N
}.

(** The providers' answers.  [post] answers a buffered call: the parsed
    response body, or the error axios rejects with.  [post_stream] answers a
    [responseType: 'stream'] call: the buffers the response stream will
    deliver in its ['data'] events, or the error axios rejects with.  The
    adapters listen to ['data'] only, so the end of the stream and an error
    after the call has resolved are not part of the answer. *)
Record Upstream := {
  post : AxiosRequest -> JsError + JsVal;
  post_stream : AxiosRequest -> JsError + list string
}.

Inductive Event :=
(** [new XService(config)] was evaluated, for provider [p]. *)
| New (p : string)
(** [axios.post] was called. *)
| Post (r : AxiosRequest)
(** [onChunk(c)] was called. *)
| Chunk (c : Json).

(** A computation that records events and either throws or returns. *)
Definition M (A : Type) : Type := list Event * (JsError + A).

Definition ret {A} (a : A) : M A := ([], inr a).
Definition throw {A} (e : JsError) : M A := ([], inl e).
Definition tell (ev : Event) : M unit := ([ev], inr tt).

Definition bind {A B} (m : M A) (k : A -> M B) : M B :=
  match m with
  | (t, inl e) => (t, inl e)
  | (t, inr a) => let '(t', r) := k a in ((t ++ t')%list, r)
  end.

(** [try { m } catch (e) { h e }]. *)
Definition try_catch {A} (m : M A) (h : JsError -> M A) : M A :=
  match m with
  | (t, inl e) => let '(t', r) := h e in ((t ++ t')%list, r)
  | (t, inr a) => (t, inr a)
  end.

Definition trace {A} (m : M A) : list Event := fst m.
Definition outcome {A} (m : M A) : JsError + A := snd m.

(** The [onChunk] calls among the events, in order. *)
Definition emitted (t : list Event) : list Json :=
  omap (fun ev => match ev with Chunk c => Some c | _ => None end) t.

(** The upstream calls among the events, in order. *)
Definition posted (t : list Event) : list AxiosRequest :=
  omap (fun ev => match ev with Post r => Some r | _ => None end) t.

(** The adapters constructed, in order. *)
Definition constructed (t : list Event) : list string :=
  omap (fun ev => match ev with New p => Some p | _ => None end) t.

(** A computation that makes no [onChunk] call. *)
Definition silent {A} (m : M A) : Prop := emitted (trace m) = [].

End Effects.
Export Effects.

Notation "'let*' x := c 'in' k" := (bind c (fun x => k))
  (at level 10, x name, c at level 100, k at level 200).
Notation "'do' c 'then' k" := (bind c (fun _ => k))
  (at level 10, c at level 100, k at level 200).

(** ** Property access on response bodies *)

Module Access.

Section WithRuntime.
Variable rt : Runtime.

(** [v.k] for a named property [k] that no prototype defines: the own
    property of an object, [undefined] on any other value, and a TypeError
    on [undefined] and [null]. *)
Definition prop (v : JsVal) (k : string) : M JsVal :=
  match v with
  | None | Some JNull => throw (TypeError rt k)
  | Some (JObj o) => ret (obj_get k o)
  | Some _ => ret None
  end.

(** [v[0]]. *)
Definition first (v : JsVal) : M JsVal :=
  match v with
  | None | Some JNull => throw (TypeError rt "0")
  | Some (JArr items) => ret (head items)
  | Some (JObj o) => ret (obj_get "0" o)
  | Some (JStr (String c _)) => ret (Some (JStr (String c EmptyString)))
  | Some _ => ret None
  end.

(** [v?.k]. *)
Definition opt_prop (v : JsVal) (k : string) : JsVal :=
  match v with
  | Some (JObj o) => obj_get k o
  | _ => None
  end.

(** [v?.[0]]. *)
Definition opt_first (v : JsVal) : JsVal :=
  match v with
  | Some (JArr items) => head items
  | Some (JObj o) => obj_get "0" o
  | Some (JStr (String c _)) => Some (JStr (String c EmptyString))
  | _ => None
  end.

End WithRuntime.

End Access.
Export Access.

(** ** config/environment.js *)

Module Environment.

(** [process.env] is a map from names to texts, [gmap string string]. *)

Record ProviderConfig := {
  apiKey : option string;
  baseUrl : option string;
  available : bool
}.

(** [!!v] for an environment entry: set and not the empty string. *)
Definition env_truthy (v : option string) : bool :=
  match v with
  | Some s => negb (String.eqb s EmptyString)
  | None => false
  end.

(** The names every object literal inherits from [Object.prototype]. *)
Definition prototype_names : list string :=
  [ "constructor"; "__defineGetter__"; "__defineSetter__"; "hasOwnProperty";
    "__lookupGetter__"; "__lookupSetter__"; "isPrototypeOf";
    "propertyIsEnumerable"; "toString"; "valueOf"; "__proto__"; "toLocaleString" ].

Definition inherited (k : string) : bool := existsb (String.eqb k) prototype_names.

(** What [table[key]] finds in an object literal. *)
Inductive Lookup (A : Type) :=
| Own (a : A)
| Inherited
| Missing.
Arguments Own {A} a.
Arguments Inherited {A}.
Arguments Missing {A}.

Fixpoint assoc {A} (k : string) (l : list (string * A)) : option A :=
  match l with
  | [] => None
  | (k', a) :: rest => if String.eqb k k' then Some a else assoc k rest
  end.

Definition lookup_literal {A} (k : string) (table : list (string * A)) : Lookup A :=
  match assoc k table with
  | Some a => Own a
  | None => if inherited k then Inherited else Missing
  end.

Definition provider_entry (env : gmap string string) (key_var url_var : string)
    : ProviderConfig :=
  {| apiKey := env !! key_var;
     baseUrl := env !! url_var;
     available := env_truthy (env !! key_var) |}.

Definition configs (env : gmap string string) : list (string * ProviderConfig) :=
  [ ("openai", provider_entry env "OPENAI_API_KEY" "OPENAI_BASE_URL");
    ("anthropic", provider_entry env "ANTHROPIC_API_KEY" "ANTHROPIC_BASE_URL");
    ("groq", provider_entry env "GROQ_API_KEY" "GROQ_BASE_URL");
    ("google", provider_entry env "GOOGLE_AI_API_KEY" "GOOGLE_AI_BASE_URL") ].

Definition getProviderConfig (env : gmap string string) (provider : string)
    : Lookup ProviderConfig :=
  lookup_literal (toLowerCase provider) (configs env).

Definition getDefaultParameters (env : gmap string string) : Obj :=
  [ ("temperature", JNum (num_or (parseFloat (env !! "DEFAULT_TEMPERATURE")) (Num (7 # 10))));
    ("max_tokens", JNum (num_or (parseInt (env !! "DEFAULT_MAX_TOKENS")) (Num (1000 # 1))));
    ("top_p", JNum (num_or (parseFloat (env !! "DEFAULT_TOP_P")) (Num (1 # 1))));
    ("frequency_penalty",
       JNum (num_or (parseFloat (env !! "DEFAULT_FREQUENCY_PENALTY")) (Num (0 # 1))));
    ("presence_penalty",
       JNum (num_or (parseFloat (env !! "DEFAULT_PRESENCE_PENALTY")) (Num (0 # 1)))) ].

End Environment.
Export Environment.

(** ** Joi, for the schema rules the repository uses

    [schema.validate(value, { abortEarly: false, stripUnknown: true })] with
    Joi's defaults otherwise ([convert: true], [presence: 'optional']).  For
    one value Joi runs, in this order: coercion, the presence check, the
    [valid(...)] list, the base type check (whose failure ends that value's
    checks) and the rules in the order the schema lists them.  With
    [abortEarly: false] every error is collected.  With [stripUnknown: true]
    unknown object keys are deleted and array items that fail the item
    schema are removed instead of reported. *)

Module Joi.

Record Detail := {
  path : list string;
  type : string;
  message : string;
  (** [detail.context.value]: the value under validation, when defined. *)
  context_value : JsVal
}.

Local Unset Elimination Schemes.
Inductive Schema :=
(** [Joi.string()], with [.required()], [.valid(...)], [.min(n)], [.max(n)]
    and [.messages({...})] as given. *)
| Joi_string (required : bool) (valid : option (list string))
    (min max : option N) (messages : list (string * string))
(** [Joi.number().min(lo).max(hi).default(d)]. *)
| Joi_number (lo hi : Q) (default : number)
(** [Joi.boolean().default(d)]. *)
| Joi_boolean (default : bool)
(** [Joi.array().items(item).max(n).optional()]. *)
| Joi_array (item : Schema) (max : nat)
(** [Joi.object({...})], with [.default(d)] when given. *)
| Joi_object (keys : list (string * Schema)) (default : option Obj).
Local Set Elimination Schemes.

Section WithRuntime.
Variable rt : Runtime.

Definition report (messages : list (string * string)) (p : list string)
    (code : string) (value : JsVal) : Detail :=
  {| path := p; type := code;
     message := match assoc code messages with
                | Some text => text
                | None => Joi_message rt code p
                end;
     context_value := value |}.

Definition max_safe_integer : Q := 9007199254740991 # 1.

Definition unsafe_number (q : Q) : bool :=
  negb (Qle_bool q max_safe_integer) || negb (Qle_bool (Qopp max_safe_integer) q).

Definition when (b : bool) (d : Detail) : list Detail := if b then [d] else [].

(** What the key loop of an object schema does with a child's result:
    a defined result is stored under the key; a key whose result is
    [undefined] is deleted, unless the child reported errors. *)
Definition store (k : string) (r : JsVal) (es : list Detail) (value : Obj) : Obj :=
  match r, es with
  | Some x, _ => obj_set k x value
  | None, [] => obj_delete k value
  | None, _ => value
  end.

(** The keys an object schema declares; the others are stripped. *)
Definition known (names : list string) (kv : string * Json) : bool :=
  existsb (String.eqb (fst kv)) names.

Fixpoint validate (s : Schema) (p : list string) (v : JsVal) {struct s}
    : JsVal * list Detail :=
  match s with
  | Joi_string required valid min max messages =>
      match v with
      | None =>
          (None, when required (report messages p "any.required" None))
      | Some j =>
          let listed :=
            match valid, j with
            | Some vs, JStr x => existsb (String.eqb x) vs
            | _, _ => false
            end in
          if listed then (v, [])
          else
            let only :=
              match valid with
              | Some _ => [report messages p "any.only" v]
              | None => []
              end in
            match j with
            | JStr x =>
                if String.eqb x EmptyString
                   && negb (match min with Some 0%N => true | _ => false end)
                then (v, only ++ [report messages p "string.empty" v])%list
                else
                  (v, only
                      ++ when (match min with
                               | Some n => (js_length x <? n)%N
                               | None => false
                               end) (report messages p "string.min" v)
                      ++ when (match max with
                               | Some n => (n <? js_length x)%N
                               | None => false
                               end) (report messages p "string.max" v))%list
            | _ => (v, only ++ [report messages p "string.base" v])%list
            end
      end
  | Joi_number lo hi default =>
      let coerced :=
        match v with
        | Some (JStr x) => Joi_number_coerce rt x
        | _ => None
        end in
      match coerced with
      | Some (n, true) => (Some (JNum n), [report [] p "number.unsafe" v])
      | _ =>
          let v' := match coerced with
                    | Some (n, _) => Some (JNum n)
                    | None => v
                    end in
          match v' with
          | None => (Some (JNum default), [])
          | Some (JNum (Infinity _)) => (v', [report [] p "number.infinity" v'])
          | Some (JNum (Num q)) =>
              if unsafe_number q then (v', [report [] p "number.unsafe" v'])
              else
                (v', when (negb (Qle_bool lo q)) (report [] p "number.min" v')
                     ++ when (negb (Qle_bool q hi)) (report [] p "number.max" v'))%list
          | Some _ => (v', [report [] p "number.base" v'])
          end
      end
  | Joi_boolean default =>
      let v' :=
        match v with
        | Some (JStr x) =>
            if String.eqb (toLowerCase x) "true" then Some (JBool true)
            else if String.eqb (toLowerCase x) "false" then Some (JBool false)
            else v
        | _ => v
        end in
      match v' with
      | None => (Some (JBool default), [])
      | Some (JBool _) => (v', [])
      | Some _ => (v', [report [] p "boolean.base" v'])
      end
  | Joi_array item max =>
      match v with
      | None => (None, [])
      | Some (JArr items) =>
          let kept :=
            omap (fun it => match validate item p (Some it) with
                            | (Some it', []) => Some it'
                            | _ => None
                            end) items in
          (Some (JArr kept),
           when (max <? length kept)%nat (report [] p "array.max" (Some (JArr kept))))
      | Some _ => (v, [report [] p "array.base" v])
      end
  | Joi_object keys default =>
      match v with
      | None => (option_map JObj default, [])
      | Some (JObj fields) =>
          let fix children (ks : list (string * Schema)) (value : Obj)
              : Obj * list Detail :=
            match ks with
            | [] => (value, [])
            | (k, child) :: rest =>
                let '(r, es) := validate child (p ++ [k])%list (obj_get k fields) in
                let '(value', es') := children rest (store k r es value) in
                (value', (es ++ es')%list)
            end in
          let '(value, errors) := children keys fields in
          (Some (JObj (List.filter (known (map fst keys)) value)), errors)
      | Some _ => (v, [report [] p "object.base" v])
      end
  end.

(** The key loop of [validate] on an object schema, by name. *)
Fixpoint children (ks : list (string * Schema)) (p : list string) (fields value : Obj)
    : Obj * list Detail :=
  match ks with
  | [] => (value, [])
  | (k, child) :: rest =>
      let '(r, es) := validate child (p ++ [k])%list (obj_get k fields) in
      let '(value', es') := children rest p fields (store k r es value) in
      (value', (es ++ es')%list)
  end.

End WithRuntime.

End Joi.
Export Joi.

(** ** Express responses *)

Module Express.

Record Response := {
  statusCode : nat;
  headers : list (string * string);
  (** The value given to [res.json]. *)
  body : JsVal;
  (** The [res.write] payloads, in order. *)
  written : list string;
  (** [res.json] or [res.end] was called. *)
  ended : bool;
  (** [res.write] payloads attempted after the response had ended: Node
      rejects them (write after end) and nothing is sent. *)
  late : list string
}.

Definition fresh : Response :=
  {| statusCode := 200; headers := []; body := None; written := []; ended := false;
     late := [] |}.

Definition headersSent (r : Response) : bool :=
  ended r || negb (match written r with [] => true | _ => false end).

Definition status (code : nat) (r : Response) : Response :=
  {| statusCode := code; headers := headers r; body := body r; written := written r;
     ended := ended r; late := late r |}.

Definition setHeader (name value : string) (r : Response) : Response :=
  {| statusCode := statusCode r; headers := (headers r ++ [(name, value)])%list;
     body := body r; written := written r; ended := ended r; late := late r |}.

Definition json (b : Json) (r : Response) : Response :=
  {| statusCode := statusCode r; headers := headers r; body := Some b;
     written := written r; ended := true; late := late r |}.

Definition write (payload : string) (r : Response) : Response :=
  if ended r
  then {| statusCode := statusCode r; headers := headers r; body := body r;
          written := written r; ended := true; late := (late r ++ [payload])%list |}
  else {| statusCode := statusCode r; headers := headers r; body := body r;
          written := (written r ++ [payload])%list; ended := false; late := late r |}.

Definition end_ (r : Response) : Response :=
  {| statusCode := statusCode r; headers := headers r; body := body r;
     written := written r; ended := true; late := late r |}.

(** What a request carries besides its body, and the clock and identifiers
    the handlers read while serving it. *)
Record Context := {
  (** [new Date().toISOString()]. *)
  now : string;
  (** [Date.now() - startTime] when the adapter call settles. *)
  duration : nat;
  (** [req.id], or the identifier generated in its place. *)
  requestId : string
}.

End Express.
Export Express.

(** ** middleware/validation.js *)

Module Validation.

Definition promptSchema : Schema :=
  Joi_string true None (Some 1%N) (Some 10000%N)
    [ ("string.empty", "Prompt cannot be empty");
      ("string.min", "Prompt must be at least 1 character long");
      ("string.max", "Prompt cannot exceed 10000 characters");
      ("any.required", "Prompt is required") ].

Definition models : list string :=
  [ (* OpenAI models *)
    "gpt-4"; "gpt-4-turbo"; "gpt-4o"; "gpt-4o-mini"; "gpt-3.5-turbo";
    (* Groq models *)
    "llama-3.1-8b-instant"; "gemma2-9b-it"; "openai/gpt-oss-120b";
    (* Google models *)
    "gemini-2.5-pro"; "gemini-2.5-flash"; "gemini-2.5-flash-lite";
    "gemini-2.0-flash"; "gemini-2.0-flash-lite";
    (* Anthropic models *)
    "claude-opus-4-1-20250805"; "claude-opus-4-20250514"; "claude-sonnet-4-20250514" ].

Definition modelSchema : Schema :=
  Joi_string true (Some models) None None
    [ ("any.only", "Invalid model selection");
      ("any.required", "Model selection is required") ].

Definition providers : list string := [ "openai"; "anthropic"; "groq"; "google" ].

Definition providerSchema : Schema :=
  Joi_string true (Some providers) None None
    [ ("any.only", "Invalid provider selection");
      ("any.required", "Provider selection is required") ].

Definition parametersSchema : Schema :=
  Joi_object
    [ ("temperature", Joi_number (0 # 1) (2 # 1) (Num (7 # 10)));
      ("max_tokens", Joi_number (1 # 1) (8000 # 1) (Num (1000 # 1)));
      ("top_p", Joi_number (0 # 1) (1 # 1) (Num (1 # 1)));
      ("frequency_penalty", Joi_number (-2 # 1) (2 # 1) (Num (0 # 1)));
      ("presence_penalty", Joi_number (-2 # 1) (2 # 1) (Num (0 # 1)));
      ("stop", Joi_array (Joi_string false None None None []) 4);
      ("stream", Joi_boolean false) ]
    (Some []).

(** The keys the request schema declares. *)
Definition top_keys : list string := [ "prompt"; "model"; "provider"; "parameters" ].

Definition requestSchema : Schema :=
  Joi_object
    [ ("prompt", promptSchema);
      ("model", modelSchema);
      ("provider", providerSchema);
      ("parameters", parametersSchema) ]
    None.

(** One entry of the [details] array. *)
Definition validationError (d : Detail) : Json :=
  JObj (obj_literal
          [ ("field", Some (JStr (join "." (path d))));
            ("message", Some (JStr (message d)));
            ("value", context_value d) ]).

(** [req.validatedData], destructured. *)
Record ChatRequest := {
  prompt : string;
  model : string;
  provider : string;
  parameters : option Obj
}.

Definition destructure (value : JsVal) : option ChatRequest :=
  match value with
  | Some (JObj o) =>
      match obj_get "prompt" o, obj_get "model" o, obj_get "provider" o with
      | Some (JStr p), Some (JStr m), Some (JStr pr) =>
          match obj_get "parameters" o with
          | None => Some {| prompt := p; model := m; provider := pr; parameters := None |}
          | Some (JObj ps) =>
              Some {| prompt := p; model := m; provider := pr; parameters := Some ps |}
          | Some _ => None
          end
      | _, _, _ => None
      end
  | _ => None
  end.

(** What a middleware does: answer, call [next()] with the request (here:
    its validated data) for the next one, or throw. *)
Inductive Step (A : Type) :=
| Respond (r : Response)
| Next (a : A)
| Fail (e : JsError).
Arguments Respond {A} r.
Arguments Next {A} a.
Arguments Fail {A} e.

Definition modelProviderMap : list (string * list string) :=
  [ ("openai", [ "gpt-4"; "gpt-4-turbo"; "gpt-4o"; "gpt-4o-mini"; "gpt-3.5-turbo" ]);
    ("groq", [ "llama-3.1-8b-instant"; "gemma2-9b-it"; "openai/gpt-oss-120b" ]);
    ("google", [ "gemini-2.5-pro"; "gemini-2.5-flash"; "gemini-2.5-flash-lite";
                 "gemini-2.0-flash"; "gemini-2.0-flash-lite" ]);
    ("anthropic", [ "claude-opus-4-1-20250805"; "claude-opus-4-20250514";
                    "claude-sonnet-4-20250514" ]) ].

(** [modelProviderMap[provider]?.includes(model) || false].  For a name the
    literal inherits from [Object.prototype] the member found has no
    [includes], and calling it throws: [None]. *)
Definition validateModelProvider (model provider : string) : option bool :=
  match lookup_literal provider modelProviderMap with
  | Own models => Some (existsb (String.eqb model) models)
  | Missing => Some false
  | Inherited => None
  end.

Section WithRuntime.
Variable rt : Runtime.

(** [req.body] is what the JSON body parser left: an object or an array. *)
Definition validateRequest (ctx : Context) (req_body : Json) : Step JsVal :=
  let '(value, errors) := validate rt requestSchema [] (Some req_body) in
  match errors with
  | _ :: _ =>
      Respond
        (json (JObj [ ("error", JStr "Validation Error");
                      ("message", JStr "Request validation failed");
                      ("details", JArr (map validationError errors));
                      ("timestamp", JStr (now ctx)) ])
              (status 400 fresh))
  | [] => Next value
  end.

(** The second middleware of both POST routes.  [validateRequest] has left
    an object whose model and provider are texts; on any other value the
    destructuring or the lookup throws. *)
Definition validateModelCompatibility (ctx : Context) (validatedData : JsVal)
    : Step ChatRequest :=
  match destructure validatedData with
  | None => Fail (TypeError rt "model")
  | Some request =>
      match validateModelProvider (model request) (provider request) with
      | None => Fail (TypeError rt "includes")
      | Some true => Next request
      | Some false =>
          Respond
            (json (JObj [ ("error", JStr "Compatibility Error");
                          ("message",
                             JStr ("Model '" +:+ model request
                                     +:+ "' is not compatible with provider '"
                                     +:+ provider request +:+ "'"));
                          ("timestamp", JStr (now ctx)) ])
                  (status 400 fresh))
      end
  end.

End WithRuntime.

End Validation.
Export Validation.

(** ** middleware/errorHandler.js *)

Module ErrorHandler.

Definition getErrorMessage (statusCode : StatusCode) : string :=
  let errorMessages : list (nat * string) :=
    [ (400, "Bad Request - Please check your input parameters");
      (401, "Unauthorized - Invalid or missing API key");
      (403, "Forbidden - Access denied to the requested resource");
      (404, "Not Found - The requested resource was not found");
      (429, "Rate Limited - Too many requests, please try again later");
      (500, "Internal Server Error - Something went wrong on our end");
      (502, "Bad Gateway - The AI service is temporarily unavailable");
      (503, "Service Unavailable - The AI service is temporarily down");
      (504, "Gateway Timeout - The AI service took too long to respond") ]%nat in
  let found :=
    match statusCode with
    | StatusNum n => snd <$> find (fun kv => (fst kv =? n)%nat) errorMessages
    | StatusText _ => None
    end in
  match found with
  | Some text => text
  | None => "An unexpected error occurred"
  end.

Definition status_truthy (s : option StatusCode) : bool :=
  match s with
  | Some (StatusNum n) => negb (n =? 0)%nat
  | Some (StatusText t) => negb (String.eqb t EmptyString)
  | None => false
  end.

Definition text_truthy (s : option string) : bool :=
  match s with
  | Some t => negb (String.eqb t EmptyString)
  | None => false
  end.

Section WithRuntime.
Variable rt : Runtime.
Variable env : gmap string string.

Definition formatErrorResponse (error : JsError) (ctx : Context) : Json :=
  let baseResponse : Obj :=
    [ ("error", JStr (if String.eqb (e_name error) EmptyString then "Error"
                      else e_name error));
      ("message", JStr (e_message error));
      ("timestamp", JStr (if text_truthy (e_timestamp error)
                          then default EmptyString (e_timestamp error)
                          else now ctx));
      ("requestId", JStr (requestId ctx)) ] in
  let with_provider :=
    if text_truthy (e_provider error)
    then obj_set "provider" (JStr (default EmptyString (e_provider error))) baseResponse
    else baseResponse in
  let with_details :=
    match e_details error with
    | Some ds => obj_set "details" (JArr ds) with_provider
    | None => with_provider
    end in
  let with_userMessage :=
    if status_truthy (e_statusCode error)
    then obj_set "userMessage"
           (JStr (getErrorMessage (default (StatusNum 0) (e_statusCode error))))
           with_details
    else with_details in
  let stack := Error_stack rt (e_name error) (e_message error) in
  JObj (if decide (env !! "NODE_ENV" = Some "development")
        then (if String.eqb stack EmptyString then with_userMessage
              else obj_set "stack" (JStr stack) with_userMessage)
        else with_userMessage).

(** How a request ends: a response was sent, or the error went on to
    Express's default handler with the response as it stood. *)
Inductive Reply :=
| Replied (r : Response)
| Defaulted (r : Response) (e : JsError).

Definition code_is (e : JsError) (c : string) : bool :=
  match e_code e with
  | Some c' => String.eqb c c'
  | None => false
  end.

Definition errorHandler (err : JsError) (ctx : Context) (res : Response) : Reply :=
  if headersSent res then Defaulted res err
  else
    let statusCode :=
      if status_truthy (e_statusCode err)
      then default (StatusNum 500) (e_statusCode err)
      else StatusNum 500 in
    let statusCode :=
      if String.eqb (e_name err) "ValidationError" then StatusNum 400
      else if String.eqb (e_name err) "UnauthorizedError" then StatusNum 401
      else if code_is err "ECONNREFUSED" || code_is err "ENOTFOUND" then StatusNum 502
      else if code_is err "ETIMEDOUT" then StatusNum 504
      else statusCode in
    match statusCode with
    | StatusNum n => Replied (json (formatErrorResponse err ctx) (status n res))
    | StatusText t =>
        (* [res.status] with a text: Node refuses the status line *)
        Defaulted res
          {| e_name := "RangeError"; e_message := "Invalid status code: " +:+ t;
             e_statusCode := None; e_provider := None; e_details := None;
             e_code := Some "ERR_HTTP_INVALID_STATUS_CODE"; e_response := None;
             e_request := false; e_timestamp := None |}
    end.

End WithRuntime.

End ErrorHandler.
Export ErrorHandler.

(** ** services/modelService.js *)

Module ModelService.

Inductive Adapter := OpenAIService | AnthropicService | GroqService | GoogleAIService.

(** An adapter instance: the fields the constructors set. *)
Record Service := {
  adapter : Adapter;
  provider_name : string;
  config : ProviderConfig;
  defaultParams : Obj;
  baseURL : option string
}.

(** The object [generateCompletion] returns.  [usage] is [None] when the
    literal has no [usage] key; [metadata] lists the keys of the metadata
    literal in order, each with its value. *)
Record CompletionResult := {
  content : JsVal;
  usage : option JsVal;
  metadata : list (string * JsVal)
}.

(** [`${v}`] for a string that may be [undefined]. *)
Definition tpl (v : option string) : string := default "undefined" v.

Section WithRuntime.
Variable rt : Runtime.
Variable env : gmap string string.
Variable up : Upstream.
Variable ctx : Context.

(** The [BaseModelService] constructor. *)
Definition BaseModelService (a : Adapter) (provider : string) (cfg : ProviderConfig)
    (base : option string) : M Service :=
  if env_truthy (apiKey cfg)
  then ret {| adapter := a; provider_name := provider; config := cfg;
              defaultParams := getDefaultParameters env; baseURL := base |}
  else throw (ConfigurationError (now ctx) ("API key not configured for " +:+ provider)
                (Some provider)).

Definition createModelService (provider : string) (cfg : ProviderConfig) : M Service :=
  let name := toLowerCase provider in
  if String.eqb name "openai" then
    do tell (New "openai") then BaseModelService OpenAIService "openai" cfg (baseUrl cfg)
  else if String.eqb name "anthropic" then
    do tell (New "anthropic") then
    BaseModelService AnthropicService "anthropic" cfg (baseUrl cfg)
  else if String.eqb name "groq" then
    do tell (New "groq") then BaseModelService GroqService "groq" cfg (baseUrl cfg)
  else if String.eqb name "google" then
    do tell (New "google") then
    BaseModelService GoogleAIService "google" cfg
      (if env_truthy (baseUrl cfg) then baseUrl cfg
       else Some "https://generativelanguage.googleapis.com")
  else throw (ConfigurationError (now ctx) ("Unsupported provider: " +:+ provider) None).

(** [mergeParameters(userParams = {})]. *)
Definition mergeParameters (svc : Service) (userParams : option Obj) : Obj :=
  obj_spread (defaultParams svc) (default [] userParams).

(** [handleApiError(error, operation)]: always throws. *)
Definition handleApiError {A} (svc : Service) (error : JsError) (operation : string)
    : M A :=
  match e_response error with
  | Some (status, data) =>
      let message :=
        js_or (opt_prop (opt_prop data "error") "message")
          (js_or (opt_prop data "message") (Some (JStr (operation +:+ " failed")))) in
      throw (APIError (now ctx) (ToString rt (default JNull message)) (StatusNum status)
               (Some (provider_name svc)))
  | None =>
      if e_request error
      then throw (APIError (now ctx) ("Network error during " +:+ operation)
                    (StatusNum 502) (Some (provider_name svc)))
      else throw (APIError (now ctx)
                    ("Unexpected error during " +:+ operation +:+ ": " +:+ e_message error)
                    (StatusNum 500) (Some (provider_name svc)))
  end.

(** [await axios.post(...)] for a buffered response: [response.data]. *)
Definition axios_post (r : AxiosRequest) : M JsVal :=
  do tell (Post r) then
  match post up r with
  | inl e => throw e
  | inr d => ret d
  end.

(** [await axios.post(...)] with [responseType: 'stream']: the buffers the
    response stream will deliver. *)
Definition axios_post_stream (r : AxiosRequest) : M (list string) :=
  do tell (Post r) then
  match post_stream up r with
  | inl e => throw e
  | inr chunks => ret chunks
  end.

Definition user_message (prompt : string) : Json :=
  JArr [ JObj [ ("role", JStr "user"); ("content", JStr prompt) ] ].

Definition bearer (svc : Service) : list (string * string) :=
  [ ("Authorization", "Bearer " +:+ tpl (apiKey (config svc)));
    ("Content-Type", "application/json") ].

(** The request both OpenAI-compatible adapters send (OpenAI and Groq
    repeat the same text in the source). *)
Definition chat_completions_request (svc : Service) (prompt model : string)
    (params : Obj) (stream : bool) : AxiosRequest :=
  {| url := tpl (baseURL svc) +:+ "/chat/completions";
     data := obj_literal
               [ ("model", Some (JStr model));
                 ("messages", Some (user_message prompt));
                 ("temperature", obj_get "temperature" params);
                 ("max_tokens", obj_get "max_tokens" params);
                 ("top_p", obj_get "top_p" params);
                 ("frequency_penalty", obj_get "frequency_penalty" params);
                 ("presence_penalty", obj_get "presence_penalty" params);
                 ("stop", obj_get "stop" params);
                 ("stream", Some (JBool stream)) ];
     request_headers := bearer svc;
     query := [];
     stream_response := stream;
     timeout := 60000 |}.

Definition chat_completion (svc : Service) (operation : string)
    (prompt model : string) (parameters : option Obj) : M CompletionResult :=
  let params := mergeParameters svc parameters in
  try_catch
    (let* response_data :=
       axios_post (chat_completions_request svc prompt model params false) in
     let* choices := prop rt response_data "choices" in
     let* choice := first rt choices in
     let* message := prop rt choice "message" in
     let* text := prop rt message "content" in
     let* used := prop rt response_data "usage" in
     let* answered := prop rt response_data "model" in
     let* reason := prop rt choice "finish_reason" in
     ret {| content := text; usage := Some used;
            metadata := [ ("model", answered); ("finish_reason", reason) ] |})
    (fun error => handleApiError svc error operation).

Definition content_chunk (text : JsVal) : Json :=
  JObj (obj_literal [ ("content", text); ("type", Some (JStr "content")) ]).

Definition done_chunk : Json := JObj [ ("type", JStr "done") ].

(** The chunks [onChunk] is called with for one upstream frame
    ([data: ] already removed): none when the frame is malformed or
    carries no text. *)
Definition frame_chunks (payload : string) : list Json :=
  match JSON_parse rt payload with
  | None => []
  | Some parsed =>
      match outcome (let* choices := prop rt (Some parsed) "choices" in first rt choices) with
      | inl _ => []
      | inr choice =>
          let delta := opt_prop choice "delta" in
          let text := opt_prop delta "content" in
          if truthy text then [ content_chunk text ] else []
      end
  end.

Fixpoint frame_lines (lines : list string) : list Json :=
  match lines with
  | [] => []
  | line :: rest =>
      if startsWith "data: " line then
        let payload := slice 6 line in
        if String.eqb payload "[DONE]" then []
        else (frame_chunks payload ++ frame_lines rest)%list
      else frame_lines rest
  end.

(** The ['data'] listener of the streaming adapters, for one buffer: the
    [onChunk] calls it makes, in order. *)
Definition on_data (chunk : string) : list Json :=
  frame_lines
    (List.filter (fun line => negb (String.eqb (trim line) EmptyString))
       (split_lines chunk)).

(** The streaming call of the OpenAI-compatible adapters.  It returns once
    the listener is registered; the result is the buffers the listener will
    be called with on later turns of the event loop. *)
Definition chat_completion_stream (svc : Service) (operation : string)
    (prompt model : string) (parameters : option Obj) : M (list string) :=
  let params := mergeParameters svc parameters in
  try_catch
    (axios_post_stream (chat_completions_request svc prompt model params true))
    (fun error => handleApiError svc error operation).

(** *** OpenAIService and GroqService *)

Definition OpenAIService_generateCompletion (svc : Service) :=
  chat_completion svc "OpenAI completion".

Definition OpenAIService_generateStreamingCompletion (svc : Service) :=
  chat_completion_stream svc "OpenAI streaming completion".

Definition GroqService_generateCompletion (svc : Service) :=
  chat_completion svc "Groq completion".

Definition GroqService_generateStreamingCompletion (svc : Service) :=
  chat_completion_stream svc "Groq streaming completion".

(** *** AnthropicService *)

Definition AnthropicService_generateCompletion (svc : Service)
    (prompt model : string) (parameters : option Obj) : M CompletionResult :=
  let merged := mergeParameters svc parameters in
  try_catch
    (let* response_data :=
       axios_post
         {| url := tpl (baseURL svc) +:+ "/v1/messages";
            data := obj_literal
                      [ ("model", Some (JStr model));
                        ("messages", Some (user_message prompt));
                        ("max_tokens", obj_get "max_tokens" merged);
                        ("temperature", obj_get "temperature" merged);
                        ("top_p", obj_get "top_p" merged);
                        ("stop_sequences", obj_get "stop" merged) ];
            request_headers :=
              [ ("x-api-key", tpl (apiKey (config svc)));
                ("Content-Type", "application/json");
                ("anthropic-version", "2023-06-01") ];
            query := [];
            stream_response := false;
            timeout := 60000 |} in
     let* blocks := prop rt response_data "content" in
     let* block := first rt blocks in
     let* text := prop rt block "text" in
     let* used := prop rt response_data "usage" in
     let* answered := prop rt response_data "model" in
     let* reason := prop rt response_data "stop_reason" in
     ret {| content := text; usage := Some used;
            metadata := [ ("model", answered); ("stop_reason", reason) ] |})
    (fun error => handleApiError svc error "Anthropic completion").

Definition AnthropicService_generateStreamingCompletion (svc : Service)
    (prompt model : string) (parameters : option Obj) : M (list string) :=
  let* result := AnthropicService_generateCompletion svc prompt model parameters in
  do tell (Chunk (content_chunk (content result))) then
  ret [].

(** *** GoogleAIService *)

Definition GoogleAIService_generateCompletion (svc : Service)
    (prompt model : string) (parameters : option Obj) : M CompletionResult :=
  let merged := mergeParameters svc parameters in
  try_catch
    (let* response_data :=
       axios_post
         {| url := tpl (baseURL svc) +:+ "/v1beta/models/" +:+ model +:+ ":generateContent";
            data := [ ("contents",
                         JArr [ JObj [ ("parts", JArr [ JObj [ ("text", JStr prompt) ] ]) ] ]);
                      ("generationConfig",
                         JObj (obj_literal
                                 [ ("temperature", obj_get "temperature" merged);
                                   ("maxOutputTokens", obj_get "max_tokens" merged);
                                   ("topP", obj_get "top_p" merged);
                                   ("stopSequences", obj_get "stop" merged) ])) ];
            request_headers := [ ("Content-Type", "application/json") ];
            query := [ ("key", tpl (apiKey (config svc))) ];
            stream_response := false;
            timeout := 60000 |} in
     let* candidates := prop rt response_data "candidates" in
     let candidate := opt_first candidates in
     if negb (truthy candidate)
     then throw (APIError (now ctx) "No response generated"
                   (StatusText "GOOGLE_AI_NO_RESPONSE") None)
     else
       let* body := prop rt candidate "content" in
       let* parts := prop rt body "parts" in
       let* part := first rt parts in
       let* text := prop rt part "text" in
       let* reason := prop rt candidate "finishReason" in
       ret {| content := text; usage := None;
              metadata := [ ("model", Some (JStr model)); ("finish_reason", reason) ] |})
    (fun error => handleApiError svc error "Google AI completion").

Definition GoogleAIService_generateStreamingCompletion (svc : Service)
    (prompt model : string) (parameters : option Obj) : M (list string) :=
  let* result := GoogleAIService_generateCompletion svc prompt model parameters in
  do tell (Chunk (content_chunk (content result))) then
  do tell (Chunk done_chunk) then
  ret [].

(** *** Method dispatch on the adapter's class *)

Definition generateCompletion (svc : Service) (prompt model : string)
    (parameters : option Obj) : M CompletionResult :=
  match adapter svc with
  | OpenAIService => OpenAIService_generateCompletion svc prompt model parameters
  | AnthropicService => AnthropicService_generateCompletion svc prompt model parameters
  | GroqService => GroqService_generateCompletion svc prompt model parameters
  | GoogleAIService => GoogleAIService_generateCompletion svc prompt model parameters
  end.

(** The result is the list of buffers a registered ['data'] listener will
    receive after the call has returned; it is empty for the adapters that
    register none. *)
Definition generateStreamingCompletion (svc : Service) (prompt model : string)
    (parameters : option Obj) : M (list string) :=
  match adapter svc with
  | OpenAIService => OpenAIService_generateStreamingCompletion svc prompt model parameters
  | AnthropicService =>
      AnthropicService_generateStreamingCompletion svc prompt model parameters
  | GroqService => GroqService_generateStreamingCompletion svc prompt model parameters
  | GoogleAIService => GoogleAIService_generateStreamingCompletion svc prompt model parameters
  end.

End WithRuntime.

End ModelService.
Export ModelService.

(** ** routes/models.js *)

Module Routes.

Definition catalog_entry (id name description : string) : Json :=
  JObj [ ("id", JStr id); ("name", JStr name); ("description", JStr description) ].

Definition modelMap : list (string * list Json) :=
  [ ("openai",
     [ catalog_entry "gpt-4" "GPT-4" "Most capable model, best for complex tasks";
       catalog_entry "gpt-4-turbo" "GPT-4 Turbo" "Faster and more efficient GPT-4";
       catalog_entry "gpt-4o" "GPT-4o" "Latest GPT-4 optimized model";
       catalog_entry "gpt-4o-mini" "GPT-4o Mini" "Compact version of GPT-4o";
       catalog_entry "gpt-3.5-turbo" "GPT-3.5 Turbo" "Fast and efficient for most tasks" ]);
    ("groq",
     [ catalog_entry "llama-3.1-8b-instant" "Llama 3.1 8B Instant"
         "Fast Llama model for quick responses";
       catalog_entry "gemma2-9b-it" "Gemma2 9B IT" "Google Gemma2 instruction-tuned model";
       catalog_entry "openai/gpt-oss-120b" "GPT OSS 120B" "Large open-source GPT model" ]);
    ("google",
     [ catalog_entry "gemini-2.5-pro" "Gemini 2.5 Pro" "Most advanced Gemini model";
       catalog_entry "gemini-2.5-flash" "Gemini 2.5 Flash" "Fast and efficient Gemini model";
       catalog_entry "gemini-2.5-flash-lite" "Gemini 2.5 Flash-Lite" "Lightweight Gemini model";
       catalog_entry "gemini-2.0-flash" "Gemini 2.0 Flash"
         "Previous generation fast Gemini model";
       catalog_entry "gemini-2.0-flash-lite" "Gemini 2.0 Flash-Lite"
         "Previous generation lightweight Gemini model" ]);
    ("anthropic",
     [ catalog_entry "claude-opus-4-1-20250805" "Claude Opus 4.1" "Latest Claude Opus model";
       catalog_entry "claude-opus-4-20250514" "Claude Opus 4" "Most powerful Claude model";
       catalog_entry "claude-sonnet-4-20250514" "Claude Sonnet 4"
         "Balanced Claude model for most tasks" ]) ].

(** [modelMap[provider] || []].  For a name the literal inherits from
    [Object.prototype] the result is that member, which is not JSON and is
    left out of a serialised body: [None]. *)
Definition getProviderModels (provider : string) : JsVal :=
  match lookup_literal provider modelMap with
  | Own models => Some (JArr models)
  | Missing => Some (JArr [])
  | Inherited => None
  end.

(** The body parts of the 503 answer all three call sites build. *)
Definition provider_unavailable (provider : string) : Json :=
  JObj [ ("error", JStr "Provider Unavailable");
         ("message", JStr ("Provider '" +:+ provider
                             +:+ "' is not configured or API key is missing"));
         ("provider", JStr provider) ].

(** One server-sent event. *)
Definition sse (payload : string) : string := "data: " +:+ payload +:+ LF +:+ LF.

Section WithRuntime.
Variable rt : Runtime.
Variable env : gmap string string.
Variable up : Upstream.
Variable ctx : Context.

(** [asyncHandler(fn)]: a rejection of the handler goes to [next], that is
    to the error-handling middleware. *)
Definition asyncHandler (handled : M Response) : list Event * Reply :=
  match handled with
  | (t, inr res) => (t, Replied res)
  | (t, inl err) => (t, errorHandler rt env err ctx fresh)
  end.

(** [config.available], as a value. *)
Definition read_available (config : Lookup ProviderConfig) : M JsVal :=
  match config with
  | Own c => ret (Some (JBool (available c)))
  | Inherited => ret None
  | Missing => throw (TypeError rt "available")
  end.

(** GET /api/models/providers *)
Definition providers_handler : M Response :=
  let providers := [ "openai"; "anthropic"; "groq"; "google" ] in
  let* providerStatus :=
    fold_left
      (fun acc provider =>
         let* status_so_far := acc in
         let* is_available := read_available (getProviderConfig env provider) in
         ret (obj_set provider
                (JObj (obj_literal [ ("available", is_available);
                                     ("models", getProviderModels provider) ]))
                status_so_far))
      providers (ret []) in
  ret (json (JObj [ ("providers", JObj providerStatus); ("timestamp", JStr (now ctx)) ])
         fresh).

Definition get_providers : list Event * Reply := asyncHandler providers_handler.

(** GET /api/models/:provider *)
Definition provider_handler (provider : string) : M Response :=
  match getProviderConfig env provider with
  | Missing =>
      ret (json (JObj [ ("error", JStr "Provider Not Found");
                        ("message", JStr ("Provider '" +:+ provider +:+ "' is not supported"));
                        ("supportedProviders",
                           JArr [ JStr "openai"; JStr "anthropic"; JStr "groq";
                                  JStr "google" ]) ])
             (status 404 fresh))
  | Inherited => ret (json (provider_unavailable provider) (status 503 fresh))
  | Own config =>
      if negb (available config)
      then ret (json (provider_unavailable provider) (status 503 fresh))
      else
        ret (json (JObj (obj_literal
                           [ ("provider", Some (JStr provider));
                             ("models", getProviderModels provider);
                             ("available", Some (JBool true));
                             ("timestamp", Some (JStr (now ctx))) ]))
               fresh)
  end.

Definition get_provider (provider : string) : list Event * Reply :=
  asyncHandler (provider_handler provider).

(** [router.post(path, validateRequest, validateModelCompatibility,
    asyncHandler(handler))]. *)
Definition post_route (handler : ChatRequest -> M Response) (req_body : Json)
    : list Event * Reply :=
  match validateRequest rt ctx req_body with
  | Respond res => ([], Replied res)
  | Fail err => ([], errorHandler rt env err ctx fresh)
  | Next value =>
      match validateModelCompatibility rt ctx value with
      | Respond res => ([], Replied res)
      | Fail err => ([], errorHandler rt env err ctx fresh)
      | Next request => asyncHandler (handler request)
      end
  end.

(** [!config || !config.available]. *)
Definition usable (config : Lookup ProviderConfig) : option ProviderConfig :=
  match config with
  | Own c => if available c then Some c else None
  | _ => None
  end.

(** POST /api/models/chat *)
Definition chat_handler (request : ChatRequest) : M Response :=
  match usable (getProviderConfig env (provider request)) with
  | None => ret (json (provider_unavailable (provider request)) (status 503 fresh))
  | Some config =>
      try_catch
        (let* modelService := createModelService env ctx (provider request) config in
         let* response :=
           generateCompletion rt up ctx modelService (prompt request) (model request)
             (parameters request) in
         ret (json (JObj (obj_literal
                            [ ("success", Some (JBool true));
                              ("provider", Some (JStr (provider request)));
                              ("model", Some (JStr (model request)));
                              ("response",
                                 Some (JObj (obj_literal
                                               [ ("content", content response);
                                                 ("usage", mjoin (usage response));
                                                 ("metadata",
                                                    Some (JObj (obj_literal
                                                                  (metadata response)))) ])));
                              ("duration",
                                 Some (JNum (Num (inject_Z (Z.of_nat (duration ctx))))));
                              ("timestamp", Some (JStr (now ctx))) ]))
                fresh))
        (fun error => throw error)
  end.

Definition post_chat : Json -> list Event * Reply := post_route chat_handler.

(** The route's [onChunk]: one [res.write] per chunk. *)
Definition relay (chunks : list Json) (res : Response) : Response :=
  fold_left (fun r chunk => write (sse (JSON_stringify rt chunk)) r) chunks res.

(** POST /api/models/stream

    [await generateStreamingCompletion(...)] settles when the adapter's
    async function returns.  The streaming adapters return as soon as their
    ['data'] listener is registered; Node delivers stream data on later
    turns of the event loop, after the continuation of the [await] (a
    microtask) has run.  So the listener's [onChunk] calls come after the
    handler has written the terminator and ended the response. *)
Definition stream_handler (request : ChatRequest) : M Response :=
  match usable (getProviderConfig env (provider request)) with
  | None => ret (json (provider_unavailable (provider request)) (status 503 fresh))
  | Some config =>
      let res :=
        setHeader "Access-Control-Allow-Origin" "*"
          (setHeader "Connection" "keep-alive"
             (setHeader "Cache-Control" "no-cache"
                (setHeader "Content-Type" "text/event-stream" fresh))) in
      let attempt :=
        let* modelService := createModelService env ctx (provider request) config in
        generateStreamingCompletion rt up ctx modelService (prompt request)
          (model request)
          (Some (obj_set "stream" (JBool true)
                   (obj_spread [] (default [] (parameters request))))) in
      match attempt with
      | (t, inr deferred) =>
          let ended_res := end_ (write (sse "[DONE]") (relay (emitted t) res)) in
          let later := concat (map (on_data rt) deferred) in
          ((t ++ map Chunk later)%list, inr (relay later ended_res))
      | (t, inl error) =>
          (t, inr (end_ (write (sse (JSON_stringify rt
                                       (JObj [ ("error", JStr (e_message error)) ])))
                           (relay (emitted t) res))))
      end
  end.

Definition post_stream_route : Json -> list Event * Reply := post_route stream_handler.

End WithRuntime.

End Routes.
Export Routes.

(** ** The request constraints, as the specification words them

    prompt: non-empty text of 1 to 10000 characters; model: one of the
    declared models; provider: one of the four providers; parameters:
    temperature 0..2, max_tokens 1..8000, top_p 0..1, frequency_penalty and
    presence_penalty -2..2, stop at most 4 strings. *)

Module Spec.






(** The environment variable that holds a provider's credential. *)
Definition credential (provider : string) : string :=
  if String.eqb provider "openai" then "OPENAI_API_KEY"
  else if String.eqb provider "anthropic" then "ANTHROPIC_API_KEY"
  else if String.eqb provider "groq" then "GROQ_API_KEY"
  else "GOOGLE_AI_API_KEY".

End Spec.

(** ** Sample data for the worked examples *)

Module Sample.

(** Prints the integers; the examples print no fraction. *)
Definition numbers (q : Q) : string :=
  match q with
  | Qmake n 1 => NilZero.string_of_int (Z.to_int n)
  | _ => EmptyString
  end.

(** A frame of an OpenAI-compatible stream carrying the text [Hi]. *)
Definition frame_json : Json :=
  JObj [ ("choices", JArr [ JObj [ ("delta", JObj [ ("content", JStr "Hi") ]) ] ]) ].

Definition frame_text : string :=
  JSON_stringify
    {| JSON_parse := fun _ => None; Number_toString := numbers;
       Joi_number_coerce := fun _ => None; Joi_message := fun code _ => code;
       TypeError_message := fun k => k; Error_stack := fun _ _ => EmptyString |}
    frame_json.

(** A runtime for the examples: [JSON.parse] knows the sample frame and
    rejects every other text; no string is read as a number. *)
Definition runtime : Runtime :=
  {| JSON_parse := fun s => if String.eqb s frame_text then Some frame_json else None;
     Number_toString := numbers;
     Joi_number_coerce := fun _ => None;
     Joi_message := fun code p => DQUOTE +:+ join "." p +:+ DQUOTE +:+ " failed " +:+ code;
     TypeError_message := fun k => "Cannot read properties of undefined (reading '" +:+ k +:+ "')";
     Error_stack := fun name text => name +:+ ": " +:+ text |}.

Definition context : Context :=
  {| now := "2024-01-15T10:30:00.000Z"; duration := 25; requestId := "req_1" |}.

Definition later : Context :=
  {| now := "2024-01-15T10:31:00.000Z"; duration := 30; requestId := "req_2" |}.

(** Only the OpenAI credential is configured; the default for max_tokens is
    set to 2000. *)
Definition environment : gmap string string :=
  <[ "OPENAI_API_KEY" := "sk-test" ]>
    (<[ "OPENAI_BASE_URL" := "https://api.openai.com/v1" ]>
       (<[ "DEFAULT_MAX_TOKENS" := "2000" ]> ∅)).

(** Every credential is configured. *)
Definition all_configured : gmap string string :=
  <[ "ANTHROPIC_API_KEY" := "sk-ant-test" ]>
    (<[ "ANTHROPIC_BASE_URL" := "https://api.anthropic.com" ]>
       (<[ "GOOGLE_AI_API_KEY" := "g-test" ]>
          (<[ "GROQ_API_KEY" := "gsk-test" ]>
             (<[ "GROQ_BASE_URL" := "https://api.groq.com/openai/v1" ]> environment)))).

Definition openai_body : Json :=
  JObj [ ("choices",
            JArr [ JObj [ ("message", JObj [ ("role", JStr "assistant");
                                             ("content", JStr "hi") ]);
                          ("finish_reason", JStr "stop") ] ]);
         ("model", JStr "gpt-4");
         ("usage", JObj [ ("prompt_tokens", JNum (Num (2 # 1)));
                          ("completion_tokens", JNum (Num (1 # 1)));
                          ("total_tokens", JNum (Num (3 # 1))) ]) ].

Definition anthropic_body : Json :=
  JObj [ ("content", JArr [ JObj [ ("type", JStr "text"); ("text", JStr "hi") ] ]);
         ("model", JStr "claude-sonnet-4-20250514");
         ("stop_reason", JStr "end_turn");
         ("usage", JObj [ ("input_tokens", JNum (Num (2 # 1)));
                          ("output_tokens", JNum (Num (1 # 1))) ]) ].

Definition google_body : Json :=
  JObj [ ("candidates",
            JArr [ JObj [ ("content", JObj [ ("parts", JArr [ JObj [ ("text", JStr "hi") ] ]) ]);
                          ("finishReason", JStr "STOP") ] ]) ].

(** Upstreams that answer every call successfully: buffered calls with the
    body of the provider the URL belongs to, streamed calls with one buffer
    holding the sample frame and the end marker. *)
Definition answering : Upstream :=
  {| post := fun r =>
       inr (Some (if String.prefix "https://api.openai.com" (url r) then openai_body
                  else if String.prefix "https://api.groq.com" (url r) then openai_body
                  else if String.prefix "https://api.anthropic.com" (url r) then anthropic_body
                  else google_body));
     post_stream := fun _ =>
       inr [ "data: " +:+ frame_text +:+ LF +:+ LF;
             "data: [DONE]" +:+ LF +:+ LF ] |}.

(** The error axios rejects with when its [timeout] expires: no response
    was received, the request object is set, the code is ECONNABORTED. *)
Definition timeout_error : JsError :=
  {| e_name := "AxiosError"; e_message := "timeout of 60000ms exceeded";
     e_statusCode := None; e_provider := None; e_details := None;
     e_code := Some "ECONNABORTED"; e_response := None; e_request := true;
     e_timestamp := None |}.

Definition timing_out : Upstream :=
  {| post := fun _ => inl timeout_error; post_stream := fun _ => inl timeout_error |}.

(** An upstream answering 429.  The body of the buffered answer is the
    provider's error object; the body of the streamed answer is the stream
    itself, an object with no [error] or [message] property. *)
Definition rate_limit_error (body : Json) : JsError :=
  {| e_name := "AxiosError"; e_message := "Request failed with status code 429";
     e_statusCode := None; e_provider := None; e_details := None;
     e_code := Some "ERR_BAD_REQUEST";
     e_response := Some (429%nat, Some body);
     e_request := true; e_timestamp := None |}.

Definition rate_limited : Upstream :=
  {| post := fun _ =>
       inl (rate_limit_error
              (JObj [ ("error", JObj [ ("message", JStr "Rate limit exceeded") ]) ]));
     post_stream := fun _ => inl (rate_limit_error (JObj [])) |}.

Definition request (model provider : string) (parameters : list (string * Json)) : Json :=
  JObj [ ("prompt", JStr "Say hi"); ("model", JStr model); ("provider", JStr provider);
         ("parameters", JObj parameters) ].

End Sample.

(** ** The answers the properties speak of *)

Module Expected.




(** A provider's entry in the listing of GET /api/models/providers. *)
Definition catalog (provider : string) : Json :=
  JArr (default [] (assoc provider modelMap)).

Definition provider_status (env : gmap string string) (provider : string) : string * Json :=
  (provider,
   JObj [ ("available", JBool (env_truthy (env !! Spec.credential provider)));
          ("models", catalog provider) ]).

(** The headers the streaming route sets. *)
Definition sse_headers : list (string * string) :=
  [ ("Content-Type", "text/event-stream"); ("Cache-Control", "no-cache");
    ("Connection", "keep-alive"); ("Access-Control-Allow-Origin", "*") ].

(** The response of the streaming route after an adapter failure. *)
Definition failed_stream (rt : Runtime) (error : JsError) : Response :=
  {| statusCode := 200; headers := sse_headers; body := None;
     written := [ sse (JSON_stringify rt (JObj [ ("error", JStr (e_message error)) ])) ];
     ended := true; late := [] |}.

(** The event carrying the content chunk of the sample frame. *)
Definition hi_event : string :=
  sse ("{" +:+ DQUOTE +:+ "content" +:+ DQUOTE +:+ ":" +:+ DQUOTE +:+ "Hi" +:+ DQUOTE +:+ ","
       +:+ DQUOTE +:+ "type" +:+ DQUOTE +:+ ":" +:+ DQUOTE +:+ "content" +:+ DQUOTE +:+ "}").

(** A body that breaks four constraints and carries an unknown field. *)
Definition invalid_body : Json :=
  JObj [ ("prompt", JStr EmptyString); ("model", JStr "x"); ("provider", JStr "y");
         ("debug", JBool true);
         ("parameters", JObj [ ("temperature", JNum (Num (5 # 1))) ]) ].


(** The text of an upstream buffer holding whole frames: each frame on a
    line of its own, followed by an empty line. *)
Definition newline : ascii := ascii_of_nat 10.

Definition one_line (s : string) : bool :=
  forallb (fun c => negb (Ascii.eqb c newline)) (chars s).

Definition stream_text (payloads : list string) : string :=
  fold_right (fun payload rest => "data: " +:+ payload +:+ LF +:+ LF +:+ rest)
    EmptyString payloads.

(** A whole upstream stream: buffers that each hold whole frames, then the
    buffer with the end marker. *)
Definition upstream_stream (groups : list (list string)) : list string :=
  (map stream_text groups ++ [ stream_text [ "[DONE]" ] ])%list.

End Expected.
Export Expected.

(** ** Notions the further properties speak of *)

Module Outcomes.

(** The class [createModelService] instantiates for a listed provider. *)
Definition adapter_of (provider : string) : Adapter :=
  if String.eqb provider "openai" then OpenAIService
  else if String.eqb provider "anthropic" then AnthropicService
  else if String.eqb provider "groq" then GroqService
  else GoogleAIService.

(** The operation name each class hands to [handleApiError] from
    [generateCompletion]. *)
Definition completion_operation (a : Adapter) : string :=
  match a with
  | OpenAIService => "OpenAI completion"
  | AnthropicService => "Anthropic completion"
  | GroqService => "Groq completion"
  | GoogleAIService => "Google AI completion"
  end.

(** The instance the constructors build for a listed provider. *)
Definition service_of (env : gmap string string) (provider : string) (cfg : ProviderConfig)
    : Service :=
  {| adapter := adapter_of provider; provider_name := provider; config := cfg;
     defaultParams := getDefaultParameters env;
     baseURL := if String.eqb provider "google" && negb (env_truthy (baseUrl cfg))
                then Some "https://generativelanguage.googleapis.com"
                else baseUrl cfg |}.

(** The status [handleApiError] gives an axios rejection. *)
Definition failure_status (e : JsError) : nat :=
  match e_response e with
  | Some (upstream_status, _) => upstream_status
  | None => if e_request e then 502 else 500
  end.

(** The chunks the fallback streaming methods emit for a completion. *)
Definition fallback_chunks (provider : string) (result : CompletionResult) : list Json :=
  content_chunk (content result)
  :: (if String.eqb provider "google" then [ done_chunk ] else []).

(** [ps[name]] is a finite number between [lo] and [hi]. *)
Definition within (ps : Obj) (name : string) (lo hi : Q) : Prop :=
  exists q, obj_get name ps = Some (JNum (Num q))
            /\ Qle_bool lo q = true /\ Qle_bool q hi = true.

(** [ps.stop] is absent or holds at most four non-empty strings. *)
Definition stop_strings (ps : Obj) : Prop :=
  obj_get "stop" ps = None
  \/ exists items,
       obj_get "stop" ps = Some (JArr items)
       /\ (length items <= 4)%nat
       /\ Forall (fun it => exists x, it = JStr x /\ x <> EmptyString) items.

(** How many of a computation's events [f] selects. *)
Definition count {A X} (f : Event -> option X) (m : M A) : nat :=
  length (omap f (fst m)).

End Outcomes.
Export Outcomes.

(** ** More sample data *)

Module Cases.

(** Google's answer to a prompt it blocks: feedback and no candidate. *)
Definition blocked_body : Json :=
  JObj [ ("promptFeedback", JObj [ ("blockReason", JStr "SAFETY") ]) ].

Definition blocked : Upstream :=
  {| post := fun _ => inr (Some blocked_body); post_stream := fun _ => inr [] |}.

(** Upstreams that give every call the one provider's sample answer. *)
Definition openai_only : Upstream :=
  {| post := fun _ => inr (Some Sample.openai_body); post_stream := fun _ => inr [] |}.

Definition google_only : Upstream :=
  {| post := fun _ => inr (Some Sample.google_body); post_stream := fun _ => inr [] |}.

End Cases.

(** ** backend-integration.js: BackendAPIClient

    The browser-side client of the two POST routes.  [fetch], the text
    decoder and the text of the SyntaxError [response.json()] rejects with
    are the page's own and are fields of a [Browser] record.  A method that
    returns a promise is a function to [JsError + A]; [streamChatCompletion]
    is the list of the callbacks it makes, in order.  The [console.log]
    calls are left out.  Each method is given the members of its options
    object, [undefined] for a member that is absent. *)

Module Client.

(** What [fetch] resolves with, as far as the client reads it. *)
Record HttpResponse := {
  http_status : nat;
  http_statusText : string;
  (** The body, in the pieces [reader.read()] delivers. *)
  reads : list string;
  (** The error the body fails with after these pieces, when it does. *)
  broken : option JsError
}.

(** The page's own functions. *)
Record Browser := {
  (** [fetch(url, { method: 'POST', body })], or [fetch(url)] without a
      body: the response, or the error it rejects with. *)
  fetch : string -> option string -> JsError + HttpResponse;
  (** [new TextDecoder().decode(value)]. *)
  TextDecoder_decode : string -> string;
  (** The message of the SyntaxError [response.json()] rejects with. *)
  SyntaxError_message : string -> string
}.

(** The callbacks [streamChatCompletion] calls. *)
Inductive Callback :=
| OnChunk (c : Json)
| OnComplete
| OnError (e : JsError).

(** [new Error(message)]. *)
Definition Error (message : string) : JsError :=
  {| e_name := "Error"; e_message := message; e_statusCode := None; e_provider := None;
     e_details := None; e_code := None; e_response := None; e_request := false;
     e_timestamp := None |}.

(** [response.ok]. *)
Definition http_ok (r : HttpResponse) : bool :=
  ((200 <=? http_status r) && (http_status r <=? 299))%nat.

Definition decimal (n : nat) : string := NilZero.string_of_uint (Nat.to_uint n).

(** [`HTTP ${response.status}: ${response.statusText}`]. *)
Definition http_error_text (r : HttpResponse) : string :=
  "HTTP " +:+ decimal (http_status r) +:+ ": " +:+ http_statusText r.

Section WithRuntime.
Variable rt : Runtime.
Variable browser : Browser.
(** [this.baseUrl]. *)
Variable baseUrl : string.

(** [await response.json()]. *)
Definition response_json (r : HttpResponse) : JsError + Json :=
  match broken r with
  | Some e => inl e
  | None =>
      let text := String.concat EmptyString (reads r) in
      match JSON_parse rt text with
      | Some data => inr data
      | None =>
          inl {| e_name := "SyntaxError"; e_message := SyntaxError_message browser text;
                 e_statusCode := None; e_provider := None; e_details := None;
                 e_code := None; e_response := None; e_request := false;
                 e_timestamp := None |}
      end
  end.

(** [try { ... } catch (error) { throw new Error(`${label}${error.message}`) }]. *)
Definition relabel {A} (label : string) (r : JsError + A) : JsError + A :=
  match r with
  | inl e => inl (Error (label +:+ e_message e))
  | inr a => inr a
  end.

(** [new Error(data.message || `HTTP ...`)] for the body of a response
    that is not ok. *)
Definition response_error (r : HttpResponse) (data : Json) : JsError :=
  match outcome (prop rt (Some data) "message") with
  | inl e => e
  | inr message =>
      Error (if truthy message then ToString rt (default JNull message)
             else http_error_text r)
  end.

Definition checkHealth : JsError + Json :=
  relabel "Backend service unavailable: "
    match fetch browser (baseUrl +:+ "/health") None with
    | inl e => inl e
    | inr response => response_json response
    end.

Definition get_json (url : string) : JsError + Json :=
  match fetch browser url None with
  | inl e => inl e
  | inr response =>
      if negb (http_ok response) then inl (Error (http_error_text response))
      else response_json response
  end.

Definition getProviders : JsError + Json :=
  relabel "Failed to fetch providers: " (get_json (baseUrl +:+ "/api/models/providers")).

Definition getProviderModels (provider : string) : JsError + Json :=
  relabel ("Failed to fetch " +:+ provider +:+ " models: ")
    (get_json (baseUrl +:+ "/api/models/" +:+ provider)).

(** The body both POST methods send: [parameters] is [{}] when the caller
    gives none. *)
Definition request_text (prompt model provider parameters : JsVal) : string :=
  JSON_stringify rt
    (JObj (obj_literal [ ("prompt", prompt); ("model", model); ("provider", provider);
                         ("parameters", Some (default (JObj []) parameters)) ])).

Definition chatCompletion (prompt model provider parameters : JsVal) : JsError + Json :=
  relabel "Chat completion failed: "
    match fetch browser (baseUrl +:+ "/api/models/chat")
            (Some (request_text prompt model provider parameters)) with
    | inl e => inl e
    | inr response =>
        match response_json response with
        | inl e => inl e
        | inr data =>
            if negb (http_ok response) then inl (response_error response data)
            else
              match outcome (prop rt (Some data) "response") with
              | inl e => inl e
              | inr answer =>
                  if truthy answer && truthy (opt_prop answer "content")
                  then inr (JObj (obj_literal
                                    [ ("content", opt_prop answer "content");
                                      ("usage", opt_prop answer "usage");
                                      ("metadata", opt_prop answer "metadata") ]))
                  else inr data
              end
        end
    end.

(** The [for] loop over the lines of one read: the callbacks made, and
    whether the method returned. *)
Fixpoint stream_lines (lines : list string) : list Callback * bool :=
  match lines with
  | [] => ([], false)
  | line :: rest =>
      if startsWith "data: " line then
        let payload := slice 6 line in
        if String.eqb payload "[DONE]" then ([ OnComplete ], true)
        else
          match JSON_parse rt payload with
          | None | Some JNull => stream_lines rest
          | Some parsed =>
              let error := opt_prop (Some parsed) "error" in
              if truthy error
              then ([ OnError (Error (ToString rt (default JNull error))) ], true)
              else let '(calls, returned) := stream_lines rest in
                   (OnChunk parsed :: calls, returned)
          end
      else stream_lines rest
  end.

(** The [while] loop over the reads. *)
Fixpoint pump (pieces : list string) (failure : option JsError) : list Callback :=
  match pieces with
  | [] =>
      match failure with
      | Some e => [ OnError e ]
      | None => [ OnComplete ]
      end
  | value :: rest =>
      let lines :=
        List.filter (fun line => negb (String.eqb (trim line) EmptyString))
          (split_lines (TextDecoder_decode browser value)) in
      let '(calls, returned) := stream_lines lines in
      if returned then calls else (calls ++ pump rest failure)%list
  end.

Definition streamChatCompletion (prompt model provider parameters : JsVal)
    : list Callback :=
  match fetch browser (baseUrl +:+ "/api/models/stream")
          (Some (request_text prompt model provider parameters)) with
  | inl e => [ OnError e ]
  | inr response =>
      if negb (http_ok response)
      then match response_json response with
           | inl e => [ OnError e ]
           | inr errorData => [ OnError (response_error response errorData) ]
           end
      else pump (reads response) (broken response)
  end.

End WithRuntime.

End Client.

(** ** The client and the routes together *)

(** A frame the client hands to [onChunk]: its JSON is a value other than
    [null] with no truthy [error] property. *)
Definition chunk_frame (rt : Runtime) (payload : string) (c : Json) : Prop :=
  payload <> "[DONE]"
  /\ one_line payload = true
  /\ JSON_parse rt payload = Some c
  /\ c <> JNull
  /\ truthy (opt_prop (Some c) "error") = false.

(** The response [fetch] resolves with is the one the route sent: its status
    is the route's, and [response.json()] gives the value the route gave
    [res.json]. *)
Definition arrives (rt : Runtime) (browser : Client.Browser) (res : Response)
    (r : Client.HttpResponse) : Prop :=
  Client.http_status r = statusCode res
  /\ exists sent, body res = Some sent /\ Client.response_json rt browser r = inr sent.

(** The [response] member of the chat route's answer for a completion. *)
Definition unwrapped (result : CompletionResult) : Json :=
  JObj (obj_literal [ ("content", content result);
                      ("usage", mjoin (usage result));
                      ("metadata", Some (JObj (obj_literal (metadata result)))) ]).

(** ** Sample pages *)

Module Page.

(** A [JSON.parse] that reads back the serialised form of the listed values
    and rejects every other text. *)
Definition reads_back (known : list Json) (text : string) : option Json :=
  find (fun j => String.eqb (JSON_stringify Sample.runtime j) text) known.

Definition runtime (known : list Json) : Runtime :=
  {| JSON_parse := reads_back known;
     Number_toString := Number_toString Sample.runtime;
     Joi_number_coerce := Joi_number_coerce Sample.runtime;
     Joi_message := Joi_message Sample.runtime;
     TypeError_message := TypeError_message Sample.runtime;
     Error_stack := Error_stack Sample.runtime |}.

(** A page whose every [fetch] resolves with the one response. *)
Definition browser (served : Client.HttpResponse) : Client.Browser :=
  {| Client.fetch := fun _ _ => inr served;
     Client.TextDecoder_decode := fun value => value;
     Client.SyntaxError_message := fun _ => "Unexpected end of JSON input" |}.

(** The response that carries a route's answer: a JSON body in one piece,
    or the writes one by one. *)
Definition carrying (rt : Runtime) (res : Response) : Client.HttpResponse :=
  {| Client.http_status := statusCode res;
     Client.http_statusText := EmptyString;
     Client.reads := match body res with
                     | Some sent => [ JSON_stringify rt sent ]
                     | None => written res
                     end;
     Client.broken := None |}.

Definition reply_of (r : list Event * Reply) : Response :=
  match snd r with
  | Replied res => res
  | Defaulted res _ => res
  end.

End Page.

Definition hi_chunk : Json := content_chunk (Some (JStr "hi")).

Definition hi_answer : Json :=
  default JNull
    (body (Page.reply_of
             (post_chat Sample.runtime Sample.environment Cases.openai_only Sample.context
                (Sample.request "gpt-4" "openai" [])))).

(** ** routes/speech.js: POST /api/speech/transcribe, and
       [GoogleAIService.transcribeSpeech]

    The route reads [req.body] as it comes: nothing validates it.  [Buffer]
    and the texts of the engine's errors are fields of a [Node] record.  The
    [logger.debug] calls are left out. *)

Module Speech.

Record Node := {
  (** [Buffer.from(v, 'base64').toString('base64')]: the text re-encoded,
      or the error [Buffer.from] throws for a value it does not take. *)
  Buffer_base64 : Json -> JsError + string;
  (** The message of the SyntaxError [JSON.parse] throws on a text. *)
  SyntaxError_message : string -> string;
  (** The message of the TypeError for destructuring [undefined] or [null]. *)
  destructure_message : string;
  (** The message of the TypeError for calling a member that is no
      function, from the expression called. *)
  not_a_function : string -> string
}.

Definition upper_ascii (c : ascii) : ascii :=
  let n := nat_of_ascii c in
  if ((97 <=? n) && (n <=? 122))%nat then ascii_of_nat (n - 32) else c.

(** [s.toUpperCase()], on the ASCII letters. *)
Definition toUpperCase (s : string) : string := unchars (map upper_ascii (chars s)).

Definition engine_error (name message : string) : JsError :=
  {| e_name := name; e_message := message; e_statusCode := None; e_provider := None;
     e_details := None; e_code := None; e_response := None; e_request := false;
     e_timestamp := None |}.

(** [this.speechToTextEnabled]: set by the [GoogleAIService] constructor
    only. *)
Definition speechToTextEnabled (svc : Service) : bool :=
  match adapter svc with
  | GoogleAIService => true
  | _ => false
  end.

(** The body of the 400 answers. *)
Definition refusal (text : string) : Response :=
  json (JObj [ ("error", JStr text) ]) (status 400 fresh).

Section WithRuntime.
Variable rt : Runtime.
Variable node : Node.
Variable env : gmap string string.
Variable up : Upstream.
Variable ctx : Context.

(** [const { k, ... } = v]: one member of the pattern. *)
Definition member (v : JsVal) (k : string) : M JsVal :=
  match v with
  | None | Some JNull => throw (engine_error "TypeError" (destructure_message node))
  | Some (JObj o) => ret (obj_get k o)
  | Some _ => ret None
  end.

(** [JSON.parse(v)]: the argument is converted to a string first. *)
Definition parse_value (v : JsVal) : M Json :=
  let text := match v with
              | Some j => ToString rt j
              | None => "undefined"
              end in
  match JSON_parse rt text with
  | Some parsed => ret parsed
  | None => throw (engine_error "SyntaxError" (SyntaxError_message node text))
  end.

(** [items.find(part => part.functionCall?.name === name)]. *)
Fixpoint find_call (name : string) (items : list Json) : M JsVal :=
  match items with
  | [] => ret None
  | part :: rest =>
      let* call := prop rt (Some part) "functionCall" in
      match opt_prop call "name" with
      | Some (JStr n) => if String.eqb n name then ret (Some part) else find_call name rest
      | _ => find_call name rest
      end
  end.

Definition transcription_request (svc : Service) (model : Json) (audioBase64 : string)
    : AxiosRequest :=
  {| url := tpl (baseURL svc) +:+ "/v1beta/models/" +:+ ToString rt model
            +:+ ":generateContent";
     data :=
       [ ("contents",
            JArr [ JObj [ ("parts",
                             JArr [ JObj [ ("inline_data",
                                              JObj [ ("mime_type", JStr "audio/wav");
                                                     ("data", JStr audioBase64) ]) ] ]) ] ]);
         ("generationConfig",
            JObj [ ("temperature", JNum (Num (2 # 10)));
                   ("topP", JNum (Num (8 # 10)));
                   ("topK", JNum (Num (40 # 1))) ]);
         ("tools",
            JArr [ JObj [ ("functionDeclarations",
                             JArr [ JObj [ ("name", JStr "speech_to_text");
                                           ("description", JStr "Convert speech audio to text");
                                           ("parameters",
                                              JObj [ ("type", JStr "object");
                                                     ("properties",
                                                        JObj [ ("text",
                                                                  JObj [ ("type", JStr "string");
                                                                         ("description",
                                                                            JStr "The transcribed text from the audio") ]) ]);
                                                     ("required", JArr [ JStr "text" ]) ]) ] ]) ] ]) ];
     request_headers := [ ("Content-Type", "application/json") ];
     query := [ ("key", tpl (apiKey (config svc))) ];
     stream_response := false;
     timeout := 60000 |}.

(** The object [transcribeSpeech] returns. *)
Definition transcription (text : JsVal) (model : Json) (reason : JsVal) : Json :=
  JObj (obj_literal
          [ ("text", text);
            ("metadata", Some (JObj (obj_literal [ ("model", Some model);
                                                   ("finish_reason", reason) ]))) ]).

(** [transcribeSpeech({ audioData, model })]; the route always gives a
    model. *)
Definition GoogleAIService_transcribeSpeech (svc : Service) (audioData model : Json)
    : M Json :=
  if negb (speechToTextEnabled svc)
  then throw (ConfigurationError (now ctx) "Speech-to-text is not enabled for this provider"
                (Some "google"))
  else
    try_catch
      (let* audioBase64 :=
         match Buffer_base64 node audioData with
         | inl e => throw e
         | inr text => ret text
         end in
       let* response_data := axios_post up (transcription_request svc model audioBase64) in
       let* candidates := prop rt response_data "candidates" in
       let candidate := opt_first candidates in
       if negb (truthy candidate)
       then throw (APIError (now ctx) "No transcription generated"
                     (StatusText "GOOGLE_AI_NO_RESPONSE") None)
       else
         let* body := prop rt candidate "content" in
         let* parts := prop rt body "parts" in
         let* functionCallPart :=
           match parts with
           | Some (JArr items) => find_call "speech_to_text" items
           | None | Some JNull => throw (TypeError rt "find")
           | Some _ =>
               throw (engine_error "TypeError"
                        (not_a_function node "candidate.content.parts.find"))
           end in
         if truthy functionCallPart
         then
           let* call := prop rt functionCallPart "functionCall" in
           let* args := prop rt call "args" in
           let* parsed := parse_value args in
           let* text := prop rt (Some parsed) "text" in
           let* reason := prop rt candidate "finishReason" in
           ret (transcription text model reason)
         else
           let* part := first rt parts in
           let* text := prop rt part "text" in
           let* reason := prop rt candidate "finishReason" in
           ret (transcription text model reason))
      (fun error => handleApiError rt ctx svc error "Google AI speech transcription").

(** [process.env[envKey]], with the second look for Google. *)
Definition speech_key (provider : string) : option string :=
  let envKey := toUpperCase provider +:+ "_API_KEY" in
  let apiKey := env !! envKey in
  if negb (env_truthy apiKey) && String.eqb (toUpperCase provider) "GOOGLE"
  then env !! "GOOGLE_AI_API_KEY"
  else apiKey.

(** The handler's [try] block. *)
Definition transcribe_handler (req_body : JsVal) : M Response :=
  let* audioData := member req_body "audioData" in
  let* given_model := member req_body "model" in
  let* given_provider := member req_body "provider" in
  let model := default (JStr "gemini-2.5-flash-lite") given_model in
  let provider := default (JStr "google") given_provider in
  if negb (truthy audioData) then ret (refusal "Audio data is required")
  else
    match provider with
    | JStr name =>
        let envKey := toUpperCase name +:+ "_API_KEY" in
        let apiKey := speech_key name in
        if negb (env_truthy apiKey)
        then ret (refusal ("API key for " +:+ name +:+ " is not configured. Looking for "
                             +:+ envKey))
        else
          let* modelService :=
            createModelService env ctx name
              {| apiKey := apiKey; baseUrl := None; available := false |} in
          if negb (speechToTextEnabled modelService)
          then ret (refusal ("Speech-to-text is not supported by " +:+ name))
          else
            let* result :=
              GoogleAIService_transcribeSpeech modelService (default JNull audioData)
                model in
            ret (json result fresh)
    | JNull => throw (TypeError rt "toUpperCase")
    | _ => throw (engine_error "TypeError" (not_a_function node "provider.toUpperCase"))
    end.

(** POST /api/speech/transcribe: [catch (error) { next(error) }] hands the
    error to the error-handling middleware. *)
Definition post_transcribe (req_body : JsVal) : list Event * Reply :=
  asyncHandler rt env ctx (transcribe_handler req_body).

End WithRuntime.

End Speech.

(** ** Sample data for the speech route *)

Module Recording.

(** A Node whose [Buffer] takes text and gives it back as it is, which is
    what it does with canonical base64. *)
Definition node : Speech.Node :=
  {| Speech.Buffer_base64 := fun v =>
       match v with
       | JStr text => inr text
       | _ => inl (Speech.engine_error "TypeError"
                     "The first argument must be of type string")
       end;
     Speech.SyntaxError_message := fun _ => "Unexpected token o in JSON at position 1";
     Speech.destructure_message :=
       "Cannot destructure property 'audioData' of 'req.body' as it is undefined.";
     Speech.not_a_function := fun called => called +:+ " is not a function" |}.

Definition clip : Obj := [ ("audioData", JStr "UklGRg==") ].

(** Only the variable the speech routes look for first is set. *)
Definition google_key_only : gmap string string := <[ "GOOGLE_API_KEY" := "g-speech" ]> ∅.

(** Google's answer with a function call whose arguments are an object. *)
Definition call_answer : Obj :=
  [ ("candidates",
       JArr [ JObj [ ("content",
                        JObj [ ("parts",
                                  JArr [ JObj [ ("functionCall",
                                                   JObj [ ("name", JStr "speech_to_text");
                                                          ("args",
                                                             JObj [ ("text", JStr "hello") ]) ]) ] ]) ]);
                     ("finishReason", JStr "STOP") ] ]) ].

Definition calling : Upstream :=
  {| post := fun _ => inr (Some (JObj call_answer)); post_stream := fun _ => inr [] |}.

End Recording.

(** ** config/environment.js: [envSchema] and [validateEnvironment]

    [process.env] holds texts.  The schema is validated with Joi's default
    options: values are converted, unknown variables are allowed by
    [.unknown()], and validation stops at the first error.  Joi's test for a
    URI is a parameter.  The [logger] calls are left out. *)

Module Startup.

Inductive Rule :=
(** [Joi.number().default(d)], with [.min(lo).max(hi)] when given. *)
| number_rule (range : option (Q * Q)) (default : number)
(** [Joi.string()], with [.valid(...)] and [.default(d)] when given;
    [.optional()] adds nothing. *)
| string_rule (valid : option (list string)) (default : option string)
(** [Joi.string().when(sibling, { is: expected, then: Joi.required(),
    otherwise: Joi.optional() })]. *)
| string_when (sibling expected : string)
(** [Joi.string().uri().default(d)]. *)
| uri_rule (default : string).

Definition envSchema : list (string * Rule) :=
  [ ("PORT", number_rule None (Num (3001 # 1)));
    ("NODE_ENV", string_rule (Some [ "development"; "production"; "test" ])
                   (Some "development"));
    ("OPENAI_API_KEY", string_when "NODE_ENV" "production");
    ("OPENAI_BASE_URL", uri_rule "https://api.openai.com/v1");
    ("ANTHROPIC_API_KEY", string_rule None None);
    ("ANTHROPIC_BASE_URL", uri_rule "https://api.anthropic.com");
    ("GROQ_API_KEY", string_rule None None);
    ("GROQ_BASE_URL", uri_rule "https://api.groq.com/openai/v1");
    ("GOOGLE_AI_API_KEY", string_rule None None);
    ("GOOGLE_AI_BASE_URL", uri_rule "https://generativelanguage.googleapis.com");
    ("DEFAULT_TEMPERATURE", number_rule (Some (0 # 1, 2 # 1)) (Num (7 # 10)));
    ("DEFAULT_MAX_TOKENS", number_rule (Some (1 # 1, 8000 # 1)) (Num (1000 # 1)));
    ("DEFAULT_TOP_P", number_rule (Some (0 # 1, 1 # 1)) (Num (1 # 1)));
    ("DEFAULT_FREQUENCY_PENALTY", number_rule (Some (-2 # 1, 2 # 1)) (Num (0 # 1)));
    ("DEFAULT_PRESENCE_PENALTY", number_rule (Some (-2 # 1, 2 # 1)) (Num (0 # 1))) ].

(** [new Error(message)]. *)
Definition Error (message : string) : JsError :=
  {| e_name := "Error"; e_message := message; e_statusCode := None; e_provider := None;
     e_details := None; e_code := None; e_response := None; e_request := false;
     e_timestamp := None |}.

Section WithRuntime.
Variable rt : Runtime.
(** Whether Joi's [uri()] rule accepts a text. *)
Variable Joi_uri : string -> bool.

(** One variable against its rule: the validated value and the errors.
    [value] is the object as validated so far, which a reference reads. *)
Definition validate_rule (rule : Rule) (name : string) (value : gmap string Json)
    (v : option string) : JsVal * list Detail :=
  let given := JStr <$> v in
  match rule with
  | number_rule (Some (lo, hi)) d => validate rt (Joi_number lo hi d) [ name ] given
  | number_rule None d =>
      match v with
      | None => (Some (JNum d), [])
      | Some x =>
          match Joi_number_coerce rt x with
          | Some (n, true) => (Some (JNum n), [ report rt [] [ name ] "number.unsafe" given ])
          | Some (Infinity neg, false) =>
              (Some (JNum (Infinity neg)),
               [ report rt [] [ name ] "number.infinity" (Some (JNum (Infinity neg))) ])
          | Some (Num q, false) =>
              if unsafe_number q
              then (Some (JNum (Num q)),
                    [ report rt [] [ name ] "number.unsafe" (Some (JNum (Num q))) ])
              else (Some (JNum (Num q)), [])
          | Some (NaN, false) =>
              (Some (JNum NaN), [ report rt [] [ name ] "number.base" (Some (JNum NaN)) ])
          | None => (given, [ report rt [] [ name ] "number.base" given ])
          end
      end
  | string_rule valid d =>
      match v with
      | None => (JStr <$> d, [])
      | Some _ => validate rt (Joi_string false valid None None []) [ name ] given
      end
  | string_when sibling expected =>
      let required :=
        match value !! sibling with
        | Some (JStr x) => String.eqb x expected
        | _ => false
        end in
      validate rt (Joi_string required None None None []) [ name ] given
  | uri_rule d =>
      match v with
      | None => (Some (JStr d), [])
      | Some x =>
          match validate rt (Joi_string false None None None []) [ name ] given with
          | (r, []) =>
              if Joi_uri x then (r, [])
              else (r, [ report rt [] [ name ] "string.uri" given ])
          | failed => failed
          end
      end
  end.

(** The key loop: it returns at the first error. *)
Fixpoint validate_keys (rules : list (string * Rule)) (env : gmap string string)
    (value : gmap string Json) : Detail + gmap string Json :=
  match rules with
  | [] => inr value
  | (name, rule) :: rest =>
      match validate_rule rule name value (env !! name) with
      | (_, detail :: _) => inl detail
      | (Some x, []) => validate_keys rest env (<[ name := x ]> value)
      | (None, []) => validate_keys rest env value
      end
  end.

(** [envSchema.validate(process.env)]. *)
Definition validate_env (env : gmap string string) : Detail + gmap string Json :=
  validate_keys envSchema env (JStr <$> env).

Definition validateEnvironment (env : gmap string string) : JsError + gmap string Json :=
  match validate_env env with
  | inl detail => inl (Error ("Environment validation error: " +:+ message detail))
  | inr value =>
      let hasApiKey :=
        js_or (value !! "OPENAI_API_KEY")
          (js_or (value !! "ANTHROPIC_API_KEY")
             (js_or (value !! "GROQ_API_KEY") (value !! "GOOGLE_AI_API_KEY"))) in
      if negb (truthy hasApiKey)
         && match value !! "NODE_ENV" with
            | Some (JStr x) => String.eqb x "production"
            | _ => false
            end
      then inl (Error "At least one AI model API key must be provided in production")
      else inr value
  end.

End WithRuntime.

End Startup.

(** ** Sample environments *)

Module Deployment.

(** A production environment with the OpenAI key. *)
Definition production : gmap string string :=
  <[ "NODE_ENV" := "production" ]> (<[ "OPENAI_API_KEY" := "sk-test" ]> ∅).

(** A URI test that accepts every text. *)
Definition any_uri (text : string) : bool := true.

End Deployment.

(** * Properties *)

(** ** Objects *)

Section Objects.

Lemma eqb_neq_false (a b : string) : a <> b -> String.eqb a b = false.
Proof. intros H. apply String.eqb_neq. exact H. Qed.

Lemma obj_get_set_eq k v (o : Obj) : obj_get k (obj_set k v o) = Some v.
Proof.
  induction o as [|[k' v'] o IH]; simpl.
  - now rewrite String.eqb_refl.
  - destruct (String.eqb k k') eqn:E; simpl.
    + now rewrite String.eqb_refl.
    + now rewrite E.
Qed.

Lemma obj_get_set_ne k k' v (o : Obj) :
  k <> k' -> obj_get k (obj_set k' v o) = obj_get k o.
Proof.
  intros Hne. induction o as [|[k'' v''] o IH]; simpl.
  - now rewrite (eqb_neq_false _ _ Hne).
  - destruct (String.eqb k' k'') eqn:E; simpl.
    + apply String.eqb_eq in E. subst k''.
      now rewrite (eqb_neq_false _ _ Hne).
    + destruct (String.eqb k k''); [reflexivity | exact IH].
Qed.

Lemma filter_known_cons names k v (o : Obj) :
  List.filter (known names) ((k, v) :: o) =
  if existsb (String.eqb k) names
  then (k, v) :: List.filter (known names) o
  else List.filter (known names) o.
Proof. reflexivity. Qed.

Lemma obj_get_known names k (o : Obj) :
  existsb (String.eqb k) names = true ->
  obj_get k (List.filter (known names) o) = obj_get k o.
Proof.
  intros Hk. induction o as [|[k' v'] o IH]; [reflexivity|].
  rewrite filter_known_cons. simpl.
  destruct (String.eqb k k') eqn:E.
  - apply String.eqb_eq in E. subst k'. rewrite Hk. simpl. now rewrite String.eqb_refl.
  - destruct (existsb (String.eqb k') names); simpl; [now rewrite E | exact IH].
Qed.



Lemma obj_delete_cons k k' v' (o : Obj) :
  obj_delete k ((k', v') :: o) =
  if negb (String.eqb k k') then (k', v') :: obj_delete k o else obj_delete k o.
Proof. reflexivity. Qed.



End Objects.

Section JoiFacts.
Variable rt : Runtime.

Lemma validate_object keys dflt p fields :
  validate rt (Joi_object keys dflt) p (Some (JObj fields)) =
  let '(value, errors) := children rt keys p fields fields in
  (Some (JObj (List.filter (known (map fst keys)) value)), errors).
Proof.
  simpl.
  generalize fields at 2 4 as value.
  assert (H : forall ks value,
    (fix children (ks : list (string * Schema)) (value : Obj) {struct ks} : Obj * list Detail :=
       match ks with
       | [] => (value, [])
       | (k, child) :: rest =>
           let '(r, es) := validate rt child (p ++ [k])%list (obj_get k fields) in
           let '(value', es') := children rest (store k r es value) in
           (value', (es ++ es')%list)
       end) ks value = children rt ks p fields value).
  { induction ks as [|[k child] rest IH]; intros value; simpl; [reflexivity|].
    destruct (validate rt child _ _) as [r es]. now rewrite IH. }
  intros value. now rewrite H.
Qed.

End JoiFacts.

Section RequestFacts.
Variable rt : Runtime.

Lemma validate_request fields :
  let a := validate rt promptSchema [ "prompt" ] (obj_get "prompt" fields) in
  let b := validate rt modelSchema [ "model" ] (obj_get "model" fields) in
  let c := validate rt providerSchema [ "provider" ] (obj_get "provider" fields) in
  let d := validate rt parametersSchema [ "parameters" ] (obj_get "parameters" fields) in
  validate rt requestSchema [] (Some (JObj fields)) =
  (Some (JObj (List.filter (known top_keys)
                 (store "parameters" (fst d) (snd d)
                    (store "provider" (fst c) (snd c)
                       (store "model" (fst b) (snd b)
                          (store "prompt" (fst a) (snd a) fields)))))),
   (snd a ++ snd b ++ snd c ++ snd d)%list).
Proof.
  intros a b c d. unfold requestSchema. rewrite validate_object.
  cbn [children app].
  fold a. destruct a as [ra ea].
  fold b. destruct b as [rb eb].
  fold c. destruct c as [rc ec].
  fold d. destruct d as [rd ed].
  cbn [fst snd]. now rewrite app_nil_r.
Qed.

(** A required string schema accepts only a string, unchanged, and one of
    the listed values when it has a list. *)
Lemma required_string_accepts valid min max messages p v r :
  validate rt (Joi_string true valid min max messages) p v = (r, []) ->
  exists x, v = Some (JStr x) /\ r = v /\
            (forall vs, valid = Some vs -> existsb (String.eqb x) vs = true).
Proof.
  cbn [validate]. destruct v as [j|]; [|discriminate].
  destruct valid as [vs|].
  - destruct j as [| | |x| |]; try discriminate.
    destruct (existsb (String.eqb x) vs) eqn:E.
    + intros [= <-]. exists x. repeat split. intros vs' [= <-]. exact E.
    + cbn [app]. destruct (String.eqb x EmptyString && _); discriminate.
  - destruct j as [| | |x| |]; try discriminate.
    cbn [app]. destruct (String.eqb x EmptyString && _); [discriminate|].
    intros [= <- _]. exists x. repeat split. discriminate.
Qed.

Lemma object_accepts keys dflt p v r :
  validate rt (Joi_object keys (Some dflt)) p v = (r, []) ->
  exists ps, r = Some (JObj ps).
Proof.
  destruct v as [j|].
  - destruct j as [| | | | |fields]; try discriminate.
    rewrite validate_object. destruct (children rt keys p fields fields) as [value es].
    intros [= <- _]. eauto.
  - intros [= <-]. eauto.
Qed.

End RequestFacts.

Section Shape.
Variable rt : Runtime.

Lemma pair_of_snd_nil {A B} (x : A * list B) : snd x = [] -> x = (fst x, []).
Proof. destruct x; simpl; intros ->; reflexivity. Qed.

Lemma validated_shape fields value :
  validate rt requestSchema [] (Some (JObj fields)) = (value, []) ->
  exists p m pr ps,
    obj_get "prompt" fields = Some (JStr p) /\
    obj_get "model" fields = Some (JStr m) /\
    obj_get "provider" fields = Some (JStr pr) /\
    existsb (String.eqb m) models = true /\
    existsb (String.eqb pr) providers = true /\
    validate rt parametersSchema [ "parameters" ] (obj_get "parameters" fields)
      = (Some (JObj ps), []) /\
    destructure value
      = Some {| prompt := p; model := m; provider := pr; parameters := Some ps |}.
Proof.
  pose proof (validate_request rt fields) as H. cbv zeta in H.
  remember (validate rt promptSchema [ "prompt" ] (obj_get "prompt" fields)) as a eqn:Ea.
  remember (validate rt modelSchema [ "model" ] (obj_get "model" fields)) as b eqn:Eb.
  remember (validate rt providerSchema [ "provider" ] (obj_get "provider" fields)) as c eqn:Ec.
  remember (validate rt parametersSchema [ "parameters" ] (obj_get "parameters" fields))
    as d eqn:Ed.
  rewrite H. clear H. intros Heq. injection Heq as Hvalue Herrors.
  apply app_eq_nil in Herrors as [Ha Herrors].
  apply app_eq_nil in Herrors as [Hb Herrors].
  apply app_eq_nil in Herrors as [Hc Hd].
  apply pair_of_snd_nil in Ha, Hb, Hc, Hd.
  rewrite Ha in Ea. rewrite Hb in Eb. rewrite Hc in Ec. rewrite Hd in Ed.
  symmetry in Ea, Eb, Ec, Ed.
  destruct (required_string_accepts rt _ _ _ _ _ _ _ Ea) as (p & Hp & Hpa & _).
  destruct (required_string_accepts rt _ _ _ _ _ _ _ Eb) as (m & Hm & Hmb & Hmodels).
  destruct (required_string_accepts rt _ _ _ _ _ _ _ Ec) as (pr & Hpr & Hprc & Hproviders).
  destruct (object_accepts rt _ _ _ _ _ Ed) as (ps & Hps).
  exists p, m, pr, ps.
  split; [exact Hp|]. split; [exact Hm|]. split; [exact Hpr|].
  split; [now apply Hmodels|]. split; [now apply Hproviders|].
  split; [now rewrite <- Hps|].
  subst value. rewrite Ha, Hb, Hc, Hd. cbn [fst snd].
  rewrite Hpa, Hmb, Hprc, Hps, Hp, Hm, Hpr. cbn [store].
  unfold destructure.
  rewrite !obj_get_known by reflexivity.
  rewrite (obj_get_set_ne "prompt" "parameters"), (obj_get_set_ne "prompt" "provider"),
    (obj_get_set_ne "prompt" "model"), obj_get_set_eq by discriminate.
  rewrite (obj_get_set_ne "model" "parameters"), (obj_get_set_ne "model" "provider"),
    obj_get_set_eq by discriminate.
  rewrite (obj_get_set_ne "provider" "parameters"), obj_get_set_eq by discriminate.
  rewrite obj_get_set_eq. reflexivity.
Qed.

Lemma validateRequest_next ctx body value :
  validateRequest rt ctx body = Next value ->
  exists fields, body = JObj fields /\
                 validate rt requestSchema [] (Some body) = (value, []).
Proof.
  unfold validateRequest.
  destruct (validate rt requestSchema [] (Some body)) as [v es] eqn:E.
  destruct es; [|discriminate]. intros [= <-].
  destruct body as [| | | | |fields]; try discriminate. eauto.
Qed.

Lemma validateRequest_never_fails ctx body e :
  validateRequest rt ctx body <> Fail e.
Proof.
  unfold validateRequest.
  destruct (validate rt requestSchema [] (Some body)) as [v es].
  destruct es; discriminate.
Qed.

End Shape.

Section Collect.
Variable rt : Runtime.






End Collect.

Import Spec.

Section Violations.
Variable rt : Runtime.




Lemma omap_cons {A B} (f : A -> option B) x l :
  omap f (x :: l) = match f x with
                    | Some y => y :: omap f l
                    | None => omap f l
                    end.
Proof. reflexivity. Qed.


Lemma validate_array item max p items :
  validate rt (Joi_array item max) p (Some (JArr items)) =
  let kept := omap (fun it => match validate rt item p (Some it) with
                              | (Some it', []) => Some it'
                              | _ => None
                              end) items in
  (Some (JArr kept),
   when (max <? length kept)%nat (report rt [] p "array.max" (Some (JArr kept)))).
Proof. reflexivity. Qed.





End Violations.

(** ** Which computations call [onChunk] *)

Section Silent.

Lemma emitted_app t1 t2 : emitted (t1 ++ t2)%list = (emitted t1 ++ emitted t2)%list.
Proof. unfold emitted. apply omap_app. Qed.

Lemma bind_fails {A B} (m : M A) (k : A -> M B) t e :
  bind m k = (t, inl e) ->
  m = (t, inl e) \/
  exists t1 a t2, m = (t1, inr a) /\ k a = (t2, inl e) /\ t = (t1 ++ t2)%list.
Proof.
  destruct m as [t1 [e1|a]]; cbn [bind].
  - intros [= <- <-]. now left.
  - destruct (k a) as [t2 r] eqn:E. intros [= <- ->]. right. eauto 6.
Qed.

Lemma silent_ret {A} (a : A) : silent (ret a).
Proof. reflexivity. Qed.

Lemma silent_throw {A} e : silent (@throw A e).
Proof. reflexivity. Qed.

Lemma silent_bind {A B} (m : M A) (k : A -> M B) :
  silent m -> (forall a, silent (k a)) -> silent (bind m k).
Proof.
  unfold silent. destruct m as [t [e|a]]; cbn [bind trace fst]; intros Hm Hk; [exact Hm|].
  specialize (Hk a). destruct (k a) as [t' r]. cbn [trace fst] in *.
  now rewrite emitted_app, Hm, Hk.
Qed.

Lemma silent_try_catch {A} (m : M A) (h : JsError -> M A) :
  silent m -> (forall e, silent (h e)) -> silent (try_catch m h).
Proof.
  unfold silent. destruct m as [t [e|a]]; cbn [try_catch trace fst]; intros Hm Hh; [|exact Hm].
  specialize (Hh e). destruct (h e) as [t' r]. cbn [trace fst] in *.
  now rewrite emitted_app, Hm, Hh.
Qed.

Lemma silent_prop rt v k : silent (prop rt v k).
Proof. destruct v as [[]|]; reflexivity. Qed.

Lemma silent_first rt v : silent (first rt v).
Proof. destruct v as [[| | |[]| |]|]; reflexivity. Qed.

Lemma silent_axios_post up r : silent (axios_post up r).
Proof. unfold axios_post. apply silent_bind; [reflexivity|]. intros _. destruct (post up r); reflexivity. Qed.

Lemma silent_axios_post_stream up r : silent (axios_post_stream up r).
Proof.
  unfold axios_post_stream. apply silent_bind; [reflexivity|]. intros _.
  destruct (post_stream up r); reflexivity.
Qed.

Lemma silent_handleApiError {A} rt ctx svc e op : silent (@handleApiError rt ctx A svc e op).
Proof. unfold handleApiError. destruct (e_response e) as [[]|]; [|destruct (e_request e)]; reflexivity. Qed.

Lemma silent_createModelService env ctx provider cfg :
  silent (createModelService env ctx provider cfg).
Proof.
  unfold createModelService, BaseModelService.
  repeat match goal with
         | |- silent (if ?b then _ else _) => destruct b
         | |- silent (bind _ _) => apply silent_bind; [reflexivity | intros _]
         end; reflexivity.
Qed.

Ltac silence :=
  repeat first
    [ apply silent_ret | apply silent_throw | apply silent_prop | apply silent_first
    | apply silent_axios_post | apply silent_axios_post_stream
    | apply silent_handleApiError
    | apply silent_try_catch; [|intros ?]
    | apply silent_bind; [|intros ?]
    | match goal with |- silent (if ?b then _ else _) => destruct b end ].

Lemma silent_chat_completion rt up ctx svc op prompt model parameters :
  silent (chat_completion rt up ctx svc op prompt model parameters).
Proof. unfold chat_completion. silence. Qed.

Lemma silent_chat_completion_stream rt up ctx svc op prompt model parameters :
  silent (chat_completion_stream rt up ctx svc op prompt model parameters).
Proof. unfold chat_completion_stream. silence. Qed.

Lemma silent_anthropic rt up ctx svc prompt model parameters :
  silent (AnthropicService_generateCompletion rt up ctx svc prompt model parameters).
Proof. unfold AnthropicService_generateCompletion. silence. Qed.

Lemma silent_google rt up ctx svc prompt model parameters :
  silent (GoogleAIService_generateCompletion rt up ctx svc prompt model parameters).
Proof. unfold GoogleAIService_generateCompletion. silence. Qed.

(** A streaming call that fails has made no [onChunk] call. *)
Lemma failed_stream_emits_nothing rt up ctx svc prompt model parameters t e :
  generateStreamingCompletion rt up ctx svc prompt model parameters = (t, inl e) ->
  emitted t = [].
Proof.
  unfold generateStreamingCompletion.
  destruct (adapter svc).
  - intros H. pose proof (silent_chat_completion_stream rt up ctx svc
      "OpenAI streaming completion" prompt model parameters) as S.
    unfold OpenAIService_generateStreamingCompletion in H. unfold silent in S.
    now rewrite H in S.
  - unfold AnthropicService_generateStreamingCompletion. intros H.
    apply bind_fails in H as [H | (t1 & a & t2 & _ & H & _)].
    + pose proof (silent_anthropic rt up ctx svc prompt model parameters) as S.
      unfold silent in S. now rewrite H in S.
    + discriminate H.
  - intros H. pose proof (silent_chat_completion_stream rt up ctx svc
      "Groq streaming completion" prompt model parameters) as S.
    unfold GroqService_generateStreamingCompletion in H. unfold silent in S.
    now rewrite H in S.
  - unfold GoogleAIService_generateStreamingCompletion. intros H.
    apply bind_fails in H as [H | (t1 & a & t2 & _ & H & _)].
    + pose proof (silent_google rt up ctx svc prompt model parameters) as S.
      unfold silent in S. now rewrite H in S.
    + discriminate H.
Qed.

Lemma failed_attempt_emits_nothing rt env up ctx provider config prompt model parameters t e :
  (let* modelService := createModelService env ctx provider config in
   generateStreamingCompletion rt up ctx modelService prompt model parameters)
  = (t, inl e) ->
  emitted t = [].
Proof.
  intros H. apply bind_fails in H as [H | (t1 & svc & t2 & H1 & H2 & ->)].
  - pose proof (silent_createModelService env ctx provider config) as S.
    unfold silent in S. now rewrite H in S.
  - pose proof (silent_createModelService env ctx provider config) as S.
    unfold silent in S. rewrite H1 in S. cbn [trace fst] in S.
    rewrite emitted_app, S. cbn [app].
    eapply failed_stream_emits_nothing. exact H2.
Qed.

End Silent.

(** ** Request validation *)

Section ValidationFacts.
Variable rt : Runtime.
Variable ctx : Context.




End ValidationFacts.




Lemma listed_provider_has_models m p :
  existsb (String.eqb p) providers = true ->
  validateModelProvider m p
  = Some (existsb (String.eqb m) (default [] (assoc p modelProviderMap))).
Proof.
  unfold providers. cbn [existsb]. rewrite orb_false_r.
  intros H.
  repeat (apply orb_true_iff in H as [H|H]);
    apply String.eqb_eq in H; subst p; reflexivity.
Qed.

Lemma config_of_listed_provider env provider :
  In provider providers ->
  getProviderConfig env provider
  = Own {| apiKey := env !! credential provider;
           baseUrl := baseUrl (default {| apiKey := None; baseUrl := None;
                                          available := false |}
                                 (assoc provider (configs env)));
           available := env_truthy (env !! credential provider) |}.
Proof.
  unfold providers. cbn [In].
  intros [<-|[<-|[<-|[<-|[]]]]]; reflexivity.
Qed.

(** ** The streaming adapters and the route *)

Lemma relay_cons rt c chunks res :
  relay rt (c :: chunks) res = relay rt chunks (write (sse (JSON_stringify rt c)) res).
Proof. reflexivity. Qed.

Lemma relay_after_end rt chunks res :
  ended res = true ->
  relay rt chunks res
  = {| statusCode := statusCode res; headers := headers res; body := body res;
       written := written res; ended := true;
       late := (late res ++ map (fun c => sse (JSON_stringify rt c)) chunks)%list |}.
Proof.
  revert res. induction chunks as [|c chunks IH]; intros res Hended.
  - destruct res. cbn in *. subst. now rewrite app_nil_r.
  - rewrite relay_cons, IH by (unfold write; now rewrite Hended).
    unfold write. rewrite Hended. cbn. now rewrite <- app_assoc.
Qed.

(** The status [handleApiError] gives the error it raises: the upstream's
    when there is a response, 502 when only the request is set, 500
    otherwise; the provider is the adapter's. *)
Lemma handleApiError_raises {A} rt ctx svc e op :
  exists text,
    @handleApiError rt ctx A svc e op
    = throw (APIError (now ctx) text
               (StatusNum match e_response e with
                          | Some (upstream_status, _) => upstream_status
                          | None => if e_request e then 502 else 500
                          end)
               (Some (provider_name svc))).
Proof.
  unfold handleApiError.
  destruct (e_response e) as [[upstream_status d]|]; [|destruct (e_request e)]; eauto.
Qed.

Lemma substring_all s : String.substring 0 (String.length s) s = s.
Proof. induction s as [|c s IH]; [reflexivity|]. cbn. now rewrite IH. Qed.

Lemma slice_data payload : slice 6 ("data: " +:+ payload) = payload.
Proof.
  unfold slice.
  change (String.length ("data: " +:+ payload) - 6)%nat with (String.length payload - 0)%nat.
  rewrite Nat.sub_0_r. exact (substring_all payload).
Qed.

Lemma startsWith_data payload : startsWith "data: " ("data: " +:+ payload) = true.
Proof. now destruct payload. Qed.

(** The listener calls [onChunk] for the frames in their order, each frame
    giving the chunks of [frame_chunks] (one when it carries text, none
    when it is malformed or carries none), up to the end marker. *)
Lemma frame_lines_in_order rt payloads :
  Forall (fun payload => payload <> "[DONE]") payloads ->
  frame_lines rt (map (String.append "data: ") payloads)
  = concat (map (frame_chunks rt) payloads).
Proof.
  induction 1 as [|payload payloads Hpayload _ IH]; [reflexivity|].
  cbn [map frame_lines concat].
  rewrite startsWith_data, slice_data.
  destruct (String.eqb payload "[DONE]") eqn:E.
  - apply String.eqb_eq in E. contradiction.
  - now rewrite IH.
Qed.

Lemma chars_app a b : chars (a +:+ b) = (chars a ++ chars b)%list.
Proof.
  induction a as [|c a IH]; [reflexivity|].
  change (chars (String c a +:+ b)) with (c :: chars (a +:+ b)).
  now rewrite IH.
Qed.

Lemma unchars_chars s : unchars (chars s) = s.
Proof. apply string_of_list_ascii_of_string. Qed.

Lemma split_line cur line rest :
  forallb (fun c => negb (Ascii.eqb c newline)) line = true ->
  split_lines_aux cur (line ++ newline :: rest)
  = unchars (rev cur ++ line) :: split_lines_aux [] rest.
Proof.
  revert cur. induction line as [|c line IH]; intros cur Hline.
  - cbn [app split_lines_aux]. change (ascii_of_nat 10) with newline.
    rewrite Ascii.eqb_refl. now rewrite app_nil_r.
  - cbn [forallb] in Hline. apply andb_true_iff in Hline as [Hc Hline].
    cbn [app split_lines_aux]. change (ascii_of_nat 10) with newline.
    apply negb_true_iff in Hc. rewrite Hc, (IH (c :: cur) Hline).
    cbn [rev]. now rewrite <- app_assoc.
Qed.

Lemma split_frame payload rest :
  one_line payload = true ->
  split_lines ("data: " +:+ payload +:+ LF +:+ LF +:+ rest)
  = ("data: " +:+ payload) :: EmptyString :: split_lines rest.
Proof.
  intros Hline. unfold split_lines.
  replace (chars ("data: " +:+ payload +:+ LF +:+ LF +:+ rest))
    with (chars ("data: " +:+ payload) ++ newline :: ([] ++ newline :: chars rest))%list.
  - rewrite split_line.
    + cbn [rev app]. rewrite unchars_chars. reflexivity.
    + rewrite chars_app, forallb_app. unfold one_line in Hline. now rewrite Hline.
  - rewrite !chars_app. cbn [app]. rewrite <- app_assoc. reflexivity.
Qed.

Lemma drop_spaces_keeps l c :
  is_space c = false -> drop_spaces (l ++ [c]) <> [].
Proof.
  intros Hc. induction l as [|x l IH]; cbn [app drop_spaces].
  - now rewrite Hc.
  - destruct (is_space x); [exact IH | discriminate].
Qed.

Lemma data_line_is_not_blank payload :
  negb (String.eqb (trim ("data: " +:+ payload)) EmptyString) = true.
Proof.
  apply negb_true_iff, String.eqb_neq. unfold trim.
  change (drop_spaces (chars ("data: " +:+ payload)))
    with ("d"%char :: chars ("ata: " +:+ payload)).
  cbn [rev].
  pose proof (drop_spaces_keeps (rev (chars ("ata: " +:+ payload))) "d"%char eq_refl) as H.
  destruct (drop_spaces (rev (chars ("ata: " +:+ payload)) ++ ["d"%char])) as [|x l];
    [contradiction|].
  cbn [rev]. destruct (rev l); discriminate.
Qed.

(** Frames written one after the other, each on a line of its own and
    followed by an empty line, in one buffer: the listener calls [onChunk]
    once for every frame that carries text, in the order of the frames. *)
Lemma on_data_in_order rt payloads :
  Forall (fun payload => payload <> "[DONE]" /\ one_line payload = true) payloads ->
  on_data rt (stream_text payloads) = concat (map (frame_chunks rt) payloads).
Proof.
  intros Hpayloads. unfold on_data.
  rewrite <- frame_lines_in_order
    by (induction Hpayloads; constructor; tauto).
  f_equal.
  induction Hpayloads as [|payload payloads [_ Hline] _ IH]; [reflexivity|].
  cbn [stream_text fold_right map]. fold (stream_text payloads).
  rewrite (split_frame payload (stream_text payloads) Hline).
  cbn [List.filter]. rewrite data_line_is_not_blank.
  change (negb (String.eqb (trim EmptyString) EmptyString)) with false.
  cbv iota. now rewrite IH.
Qed.

Lemma configured_entry env k c :
  assoc k (configs env) = Some c -> available c = env_truthy (apiKey c).
Proof.
  unfold configs. cbn [assoc].
  repeat (destruct (String.eqb k _); [intros [= <-]; reflexivity|]).
  discriminate.
Qed.

Lemma usable_has_key env provider config :
  usable (getProviderConfig env provider) = Some config ->
  env_truthy (apiKey config) = true.
Proof.
  unfold usable, getProviderConfig, lookup_literal.
  destruct (assoc (toLowerCase provider) (configs env)) as [c|] eqn:E.
  - destruct (available c) eqn:Ha; [|discriminate]. intros [= <-].
    now rewrite <- (configured_entry env _ c E).
  - destruct (inherited (toLowerCase provider)); discriminate.
Qed.

Lemma concat_on_data rt groups :
  Forall (Forall (fun payload => payload <> "[DONE]" /\ one_line payload = true)) groups ->
  concat (map (on_data rt) (upstream_stream groups))
  = concat (map (frame_chunks rt) (concat groups)).
Proof.
  unfold upstream_stream. rewrite map_app, concat_app.
  change (concat (map (on_data rt) [stream_text ["[DONE]"]])) with (@nil Json).
  rewrite app_nil_r.
  induction 1 as [|group groups Hgroup _ IH]; [reflexivity|].
  cbn [map concat]. rewrite map_app, concat_app, IH.
  now rewrite (on_data_in_order rt group Hgroup).
Qed.

Lemma emitted_chunks (chunks : list Json) :
  omap (fun ev => match ev with Chunk c => Some c | _ => None end) (map Chunk chunks)
  = chunks.
Proof. induction chunks as [|c chunks IH]; [reflexivity|]. cbn. now rewrite IH. Qed.

(** X1.  On the streaming route, with the OpenAI or the Groq
    adapter and an upstream stream of whole frames: the listener calls
    [onChunk] for the frames in their order, and every one of these calls
    comes after the route has written the terminator and ended the
    response, so the SSE body is the terminator alone. *)
Lemma streamed_chunks_arrive_after_the_end
    rt env up ctx body value request config groups :
  validateRequest rt ctx body = Next value ->
  validateModelCompatibility rt ctx value = Next request ->
  provider request = "openai" \/ provider request = "groq" ->
  usable (getProviderConfig env (provider request)) = Some config ->
  Forall (Forall (fun payload => payload <> "[DONE]" /\ one_line payload = true)) groups ->
  (forall r, post_stream up r = inr (upstream_stream groups)) ->
  let chunks := concat (map (frame_chunks rt) (concat groups)) in
  let result := post_stream_route rt env up ctx body in
  emitted (fst result) = chunks
  /\ snd result
     = Replied {| statusCode := 200; headers := sse_headers; body := None;
                  written := [ sse "[DONE]" ]; ended := true;
                  late := map (fun c => sse (JSON_stringify rt c)) chunks |}.
Proof.
  intros Hvalid Hcompatible Hprovider Husable Hgroups Hstream chunks result.
  subst result. unfold post_stream_route, post_route. rewrite Hvalid, Hcompatible.
  unfold asyncHandler, stream_handler. rewrite Husable. cbv zeta.
  pose proof (usable_has_key env _ config Husable) as Hkey.
  destruct Hprovider as [-> | ->].
  - unfold createModelService, BaseModelService.
    change (toLowerCase "openai") with "openai". cbn [String.eqb Ascii.eqb Bool.eqb].
    rewrite Hkey.
    unfold generateStreamingCompletion, bind, tell, ret. cbn [adapter app].
    unfold OpenAIService_generateStreamingCompletion, chat_completion_stream,
      axios_post_stream, try_catch, bind, tell.
    rewrite Hstream. cbn [ret app fst snd emitted omap list_omap].
    rewrite (concat_on_data rt groups Hgroups). fold chunks.
    split; [apply emitted_chunks|].
    rewrite relay_after_end by reflexivity. reflexivity.
  - unfold createModelService, BaseModelService.
    change (toLowerCase "groq") with "groq". cbn [String.eqb Ascii.eqb Bool.eqb].
    rewrite Hkey.
    unfold generateStreamingCompletion, bind, tell, ret. cbn [adapter app].
    unfold GroqService_generateStreamingCompletion, chat_completion_stream,
      axios_post_stream, try_catch, bind, tell.
    rewrite Hstream. cbn [ret app fst snd emitted omap list_omap].
    rewrite (concat_on_data rt groups Hgroups). fold chunks.
    split; [apply emitted_chunks|].
    rewrite relay_after_end by reflexivity. reflexivity.
Qed.

(** ** Worked examples of the built-ins *)

Example parseFloat_fraction : parseFloat (Some "0.7") = Num (7 # 10).
Proof. reflexivity. Qed.

Example parseFloat_exponent : parseFloat (Some " -1.5e2x") = Num (-150 # 1).
Proof. reflexivity. Qed.

Example parseFloat_unset : parseFloat None = NaN.
Proof. reflexivity. Qed.

Example parseInt_prefix : parseInt (Some "2000 tokens") = Num (2000 # 1).
Proof. reflexivity. Qed.

Example parseInt_stops_at_point : parseInt (Some "12.9") = Num (12 # 1).
Proof. reflexivity. Qed.

Example configured_zero_is_replaced :
  num_or (parseFloat (Some "0")) (Num (7 # 10)) = Num (7 # 10).
Proof. reflexivity. Qed.

Example sample_frame_text :
  Sample.frame_text
  = "{" +:+ DQUOTE +:+ "choices" +:+ DQUOTE +:+ ":[{" +:+ DQUOTE +:+ "delta" +:+ DQUOTE
    +:+ ":{" +:+ DQUOTE +:+ "content" +:+ DQUOTE +:+ ":" +:+ DQUOTE +:+ "Hi" +:+ DQUOTE
    +:+ "}}]}".
Proof. reflexivity. Qed.

Example listener_skips_malformed_frames :
  on_data Sample.runtime
    ("data: {broken" +:+ LF +:+ LF +:+ ": keep-alive" +:+ LF
     +:+ "data: " +:+ Sample.frame_text +:+ LF +:+ LF
     +:+ "data: [DONE]" +:+ LF +:+ "data: " +:+ Sample.frame_text +:+ LF)
  = [ content_chunk (Some (JStr "Hi")) ].
Proof. reflexivity. Qed.

Example prototype_name_is_unavailable :
  snd (get_provider Sample.runtime Sample.all_configured Sample.context "constructor")
  = Replied (json (provider_unavailable "constructor") (status 503 fresh)).
Proof. reflexivity. Qed.

Example unknown_provider_is_404 :
  match snd (get_provider Sample.runtime Sample.all_configured Sample.context "cohere") with
  | Replied res => statusCode res = 404%nat
  | Defaulted _ _ => False
  end.
Proof. reflexivity. Qed.

(** ** The claims *)

(** C1 (the code departs from it).  The claim: on a streaming request the
    chunks of the upstream frames are written to the SSE response in arrival
    order, followed by the [data: [DONE]] terminator.  In the code the
    OpenAI adapter returns as soon as its ['data'] listener is registered,
    so the route writes the terminator and ends the response first.  For
    the sample request, whose upstream stream carries one frame with the
    text [Hi], the listener calls [onChunk] once, with that text; the
    response body is the terminator alone, and the chunk's event is a write
    after the end, which is never sent. *)
Example openai_stream_ends_before_chunks :
  let result := post_stream_route Sample.runtime Sample.environment Sample.answering
                  Sample.context (Sample.request "gpt-4" "openai" []) in
  emitted (fst result) = [ content_chunk (Some (JStr "Hi")) ]
  /\ snd result = Replied {| statusCode := 200; headers := sse_headers; body := None;
                             written := [ sse "[DONE]" ];
                             ended := true;
                             late := [ hi_event ] |}.
Proof. vm_compute. split; reflexivity. Qed.

(** C2 (the code departs from it).  The claim: the Anthropic and Google
    adapters make one blocking completion call and then call [onChunk] with
    one content chunk followed by one done chunk.  The Google adapter does;
    the Anthropic adapter makes the call and emits the content chunk, and
    no done chunk. *)
Example anthropic_stream_emits_no_done_chunk :
  let anthropic := post_stream_route Sample.runtime Sample.all_configured Sample.answering
                     Sample.context
                     (Sample.request "claude-sonnet-4-20250514" "anthropic" []) in
  let google := post_stream_route Sample.runtime Sample.all_configured Sample.answering
                  Sample.context (Sample.request "gemini-2.5-pro" "google" []) in
  length (posted (fst anthropic)) = 1%nat
  /\ emitted (fst anthropic) = [ content_chunk (Some (JStr "hi")) ]
  /\ length (posted (fst google)) = 1%nat
  /\ emitted (fst google) = [ content_chunk (Some (JStr "hi")); done_chunk ].
Proof. vm_compute. repeat split; reflexivity. Qed.

(** C3, as amended.  For each of the four providers whose credential is not
    set (or is empty), GET /api/models/<provider> answers 503 with the body
    [{error: 'Provider Unavailable', message, provider}], which has no
    [available] field; a POST /api/models/chat request that passes both
    validation steps and names that provider gets the same 503 answer; in
    both cases no adapter is constructed and no upstream call is made. *)
Theorem unavailable_provider_is_refused rt env up ctx (provider : string) :
  In provider providers ->
  env_truthy (env !! credential provider) = false ->
  get_provider rt env ctx provider
  = ([], Replied (json (provider_unavailable provider) (status 503 fresh)))
  /\ (forall body value request,
        validateRequest rt ctx body = Next value ->
        validateModelCompatibility rt ctx value = Next request ->
        Validation.provider request = provider ->
        post_chat rt env up ctx body
        = ([], Replied (json (provider_unavailable provider) (status 503 fresh))))
  /\ opt_prop (Some (provider_unavailable provider)) "available" = None.
Proof.
  intros Hlisted Hkey. split; [|split].
  - unfold get_provider, provider_handler.
    rewrite (config_of_listed_provider env provider Hlisted). cbn [available].
    now rewrite Hkey.
  - intros body value request Hvalid Hcompatible <-.
    unfold post_chat, post_route. rewrite Hvalid, Hcompatible.
    unfold chat_handler.
    rewrite (config_of_listed_provider env _ Hlisted). unfold usable. cbn [available].
    now rewrite Hkey.
  - reflexivity.
Qed.

Lemma unavailable_provider_is_refused_witness :
  get_provider Sample.runtime Sample.environment Sample.context "anthropic"
  = ([], Replied (json (JObj [ ("error", JStr "Provider Unavailable");
                               ("message",
                                  JStr "Provider 'anthropic' is not configured or API key is missing");
                               ("provider", JStr "anthropic") ])
                    (status 503 fresh)))
  /\ post_chat Sample.runtime Sample.environment Sample.answering Sample.context
       (Sample.request "claude-sonnet-4-20250514" "anthropic" [])
     = ([], Replied (json (provider_unavailable "anthropic") (status 503 fresh))).
Proof.
  destruct (unavailable_provider_is_refused Sample.runtime Sample.environment
              Sample.answering Sample.context "anthropic")
    as (Hget & Hpost & _).
  - cbn [In providers]. tauto.
  - reflexivity.
  - split; [exact Hget|].
    eapply Hpost; reflexivity.
Defined.

(** C3 as stated fails: with no Anthropic credential, the 503 answer of
    GET /api/models/anthropic has no [available: false] in its body. *)
Lemma unavailable_body_has_no_available_flag :
  ~ (exists res,
       snd (get_provider Sample.runtime Sample.environment Sample.context "anthropic")
       = Replied res
       /\ statusCode res = 503%nat
       /\ opt_prop (body res) "available" = Some (JBool false)).
Proof.
  intros (res & Hres & _ & Hflag).
  vm_compute in Hres. injection Hres as <-. discriminate Hflag.
Qed.

(** C4 (the code departs from it).  The claim: a failed upstream call gives
    the upstream's status when there is one, 502 for a network failure and
    504 when the 60-second timeout expires.  When axios rejects with its
    timeout error (no response, request set), [handleApiError] raises an
    APIError for provider [openai] with status 502, and the HTTP answer is
    502; an upstream 429 is mirrored as 429. *)
Example timeout_is_answered_502 :
  let timed_out := post_chat Sample.runtime Sample.environment Sample.timing_out
                     Sample.context (Sample.request "gpt-4" "openai" []) in
  let limited := post_chat Sample.runtime Sample.environment Sample.rate_limited
                   Sample.context (Sample.request "gpt-4" "openai" []) in
  snd timed_out
  = Replied (json (JObj [ ("error", JStr "APIError");
                          ("message", JStr "Network error during OpenAI completion");
                          ("timestamp", JStr (now Sample.context));
                          ("requestId", JStr (requestId Sample.context));
                          ("provider", JStr "openai");
                          ("userMessage",
                             JStr "Bad Gateway - The AI service is temporarily unavailable") ])
               (status 502 fresh))
  /\ match snd limited with
     | Replied res => statusCode res = 429%nat
     | Defaulted _ _ => False
     end.
Proof. vm_compute. split; reflexivity. Qed.





(** C7 (the code departs from it).  The claim: every adapter's result has
    the shape [{content, usage?, metadata: {model, finish_reason}}].  The
    Anthropic adapter's metadata is [{model, stop_reason}]: it has no
    [finish_reason], and its usage is the upstream's own record
    ([input_tokens], [output_tokens]).  The OpenAI adapter's result has the
    claimed shape. *)
Example anthropic_metadata_has_no_finish_reason :
  let completion provider model :=
    outcome
      (let* modelService :=
         createModelService Sample.all_configured Sample.context provider
           {| apiKey := Sample.all_configured !! credential provider;
              baseUrl := Some (if String.eqb provider "openai"
                               then "https://api.openai.com/v1"
                               else "https://api.anthropic.com");
              available := true |} in
       generateCompletion Sample.runtime Sample.answering Sample.context modelService
         "Say hi" model None) in
  completion "anthropic" "claude-sonnet-4-20250514"
  = inr {| content := Some (JStr "hi");
           usage := Some (Some (JObj [ ("input_tokens", JNum (Num (2 # 1)));
                                       ("output_tokens", JNum (Num (1 # 1))) ]));
           metadata := [ ("model", Some (JStr "claude-sonnet-4-20250514"));
                         ("stop_reason", Some (JStr "end_turn")) ] |}
  /\ completion "openai" "gpt-4"
     = inr {| content := Some (JStr "hi");
              usage := Some (Some (JObj [ ("prompt_tokens", JNum (Num (2 # 1)));
                                          ("completion_tokens", JNum (Num (1 # 1)));
                                          ("total_tokens", JNum (Num (3 # 1))) ]));
              metadata := [ ("model", Some (JStr "gpt-4"));
                            ("finish_reason", Some (JStr "stop")) ] |}.
Proof. vm_compute. split; reflexivity. Qed.

(** C8 (the code departs from it).  The claim: a parameter the client did
    not supply takes the configured default (the DEFAULT_* settings).  With
    DEFAULT_MAX_TOKENS set to 2000 the configured default is 2000, and a
    request without a [parameters] object is sent upstream with
    [max_tokens] 2000; a request whose [parameters] holds only
    [temperature] is sent with [max_tokens] 1000, the default the request
    schema fills in, and with the client's [temperature]. *)
Example schema_defaults_shadow_configured_defaults :
  let sent body :=
    map (fun r => (obj_get "temperature" (data r), obj_get "max_tokens" (data r)))
      (posted (fst (post_chat Sample.runtime Sample.environment Sample.answering
                      Sample.context body))) in
  obj_get "max_tokens" (getDefaultParameters Sample.environment)
  = Some (JNum (Num (2000 # 1)))
  /\ sent (JObj [ ("prompt", JStr "Say hi"); ("model", JStr "gpt-4");
                  ("provider", JStr "openai") ])
     = [ (Some (JNum (Num (7 # 10))), Some (JNum (Num (2000 # 1)))) ]
  /\ sent (Sample.request "gpt-4" "openai" [ ("temperature", JNum (Num (1 # 2))) ])
     = [ (Some (JNum (Num (1 # 2))), Some (JNum (Num (1000 # 1)))) ].
Proof. vm_compute. repeat split; reflexivity. Qed.

(** C9.  GET /api/models/providers answers with a [providers] map that is
    a function of the environment alone: each of the four providers with
    its availability flag (credential set and not empty) and its model
    catalog.  Two calls under the same environment give the same map; only
    the timestamps differ. *)
Theorem providers_listing_depends_on_environment_only rt env ctx ctx' :
  let listing :=
    JObj (map (provider_status env) [ "openai"; "anthropic"; "groq"; "google" ]) in
  get_providers rt env ctx
  = ([], Replied (json (JObj [ ("providers", listing); ("timestamp", JStr (now ctx)) ]) fresh))
  /\ get_providers rt env ctx'
     = ([], Replied (json (JObj [ ("providers", listing); ("timestamp", JStr (now ctx')) ])
                       fresh)).
Proof. split; reflexivity. Qed.



(** * Further properties *)

(** ** Objects, again *)

Lemma obj_get_absent k (o : Obj) : ~ In k (map fst o) -> obj_get k o = None.
Proof.
  induction o as [|[k' v'] o IH]; [reflexivity|].
  cbn [map fst In obj_get]. intros H.
  destruct (String.eqb k k') eqn:E.
  - apply String.eqb_eq in E. subst k'. exfalso. apply H. now left.
  - apply IH. intros Hin. apply H. now right.
Qed.

Lemma obj_spread_cons (a : Obj) k v (b : Obj) :
  obj_spread a ((k, v) :: b) = obj_spread (obj_set k v a) b.
Proof. reflexivity. Qed.

Lemma obj_get_spread (a b : Obj) k :
  List.NoDup (map fst b) ->
  obj_get k (obj_spread a b)
  = match obj_get k b with
    | Some v => Some v
    | None => obj_get k a
    end.
Proof.
  revert a. induction b as [|[k' v'] b IH]; intros a Hkeys; [reflexivity|].
  cbn [map fst] in Hkeys. apply List.NoDup_cons_iff in Hkeys as [Hfresh Hkeys].
  rewrite obj_spread_cons, (IH _ Hkeys). cbn [obj_get].
  destruct (String.eqb k k') eqn:E.
  - apply String.eqb_eq in E. subst k'.
    now rewrite (obj_get_absent k b Hfresh), obj_get_set_eq.
  - apply String.eqb_neq in E. now rewrite (obj_get_set_ne k k' v' a E).
Qed.

(** X2.  [mergeParameters]: for an object with distinct keys, a key the
    caller supplies has the caller's value, and every other key has the
    adapter's default; no default is lost and nothing else is added. *)
Theorem merged_parameter_is_the_users_or_the_default svc (userParams : Obj) k :
  List.NoDup (obj_keys userParams) ->
  obj_get k (mergeParameters svc (Some userParams))
  = match obj_get k userParams with
    | Some v => Some v
    | None => obj_get k (defaultParams svc)
    end.
Proof. intros Hkeys. unfold mergeParameters. cbn [default]. now apply obj_get_spread. Qed.

Lemma merged_parameter_is_the_users_or_the_default_witness :
  let svc := service_of Sample.environment "openai"
               {| apiKey := Some "sk-test"; baseUrl := None; available := true |} in
  let merged := mergeParameters svc (Some [ ("temperature", JNum (Num (1 # 2))) ]) in
  obj_get "temperature" merged = Some (JNum (Num (1 # 2)))
  /\ obj_get "max_tokens" merged = Some (JNum (Num (2000 # 1))).
Proof.
  cbv zeta.
  rewrite !merged_parameter_is_the_users_or_the_default
    by (repeat constructor; intros []).
  split; reflexivity.
Defined.

Lemma num_or_truthy n d :
  truthy (Some (JNum d)) = true -> truthy (Some (JNum (num_or n d))) = true.
Proof.
  intros Hd. unfold num_or. destruct n as [q| |negative]; [|exact Hd|reflexivity].
  destruct (num_zero (Num q)) eqn:E; [exact Hd|]. cbn [truthy]. now rewrite E.
Qed.

Lemma num_or_number n d : d <> NaN -> num_or n d <> NaN.
Proof.
  intros Hd. unfold num_or. destruct n as [q| |negative]; [|exact Hd|discriminate].
  destruct (num_zero (Num q)); [exact Hd | discriminate].
Qed.

(** X3.  Whatever the environment holds, [getDefaultParameters]
    gives each of the five parameters a number that is not NaN, and
    temperature, max_tokens and top_p are never 0: an unset, unreadable or
    zero setting is replaced by the literal default. *)
Theorem configured_defaults_are_numbers env k :
  In k [ "temperature"; "max_tokens"; "top_p"; "frequency_penalty"; "presence_penalty" ] ->
  exists n,
    obj_get k (getDefaultParameters env) = Some (JNum n)
    /\ n <> NaN
    /\ (In k [ "temperature"; "max_tokens"; "top_p" ] -> truthy (Some (JNum n)) = true).
Proof.
  cbn [In]. intros [<-|[<-|[<-|[<-|[<-|[]]]]]]; eexists; (split; [reflexivity|]); split;
    try (apply num_or_number; discriminate);
    try (intros _; apply num_or_truthy; reflexivity);
    intros [H|[H|[H|[]]]]; discriminate H.
Qed.

Lemma configured_defaults_are_numbers_witness :
  exists n, obj_get "max_tokens" (getDefaultParameters Sample.environment) = Some (JNum n)
            /\ n <> NaN.
Proof.
  destruct (configured_defaults_are_numbers Sample.environment "max_tokens")
    as (n & Hn & Hnumber & _).
  - cbn [In]. tauto.
  - exists n. split; assumption.
Defined.

(** ** The model tables *)

Ltac pick_entry := cbn [In]; repeat (first [left; reflexivity | right]).

(** X4.  The compatibility check and the catalogue agree: the check
    accepts a (model, provider) pair exactly when GET /api/models/<provider>
    would list a model with that id for that provider name.  For a name
    that is no key of the two tables both sides fail. *)
Theorem compatible_pairs_are_the_catalogue m p :
  validateModelProvider m p = Some true
  <-> exists entries entry,
        getProviderModels p = Some (JArr entries)
        /\ In entry entries
        /\ opt_prop (Some entry) "id" = Some (JStr m).
Proof.
  unfold validateModelProvider, getProviderModels, lookup_literal.
  unfold modelProviderMap, modelMap. cbn [assoc].
  generalize (inherited p) as prototype_member. intros prototype_member.
  destruct (String.eqb p "openai"); [|destruct (String.eqb p "groq");
    [|destruct (String.eqb p "google"); [|destruct (String.eqb p "anthropic")]]].
  all: split.
  all: try (intros H; injection H as H; cbn [existsb] in H; rewrite ?orb_false_r in H;
            repeat (apply orb_true_iff in H as [H|H]);
            apply String.eqb_eq in H; subst m;
            eexists; eexists; (split; [reflexivity|]); cbn [In];
            first [ split; [left; reflexivity | reflexivity]
                  | split; [right; left; reflexivity | reflexivity]
                  | split; [right; right; left; reflexivity | reflexivity]
                  | split; [right; right; right; left; reflexivity | reflexivity]
                  | split; [right; right; right; right; left; reflexivity | reflexivity] ]).
  all: try (intros (entries & entry & [= <-] & Hin & Hid); cbn [In] in Hin;
            repeat (destruct Hin as [<-|Hin]; [injection Hid as <-; reflexivity|]);
            destruct Hin).
  all: try discriminate.
  all: try (destruct prototype_member; discriminate).
  all: try (destruct prototype_member; intros (entries & entry & H & Hin & Hid);
            [discriminate | injection H as <-; destruct Hin]).
Qed.

(** X5.  A model passes the request schema's [valid(...)] list
    exactly when the compatibility table has it under one of the four
    providers, and then under that provider only: every accepted model can
    be paired with exactly one provider. *)
Theorem every_listed_model_has_one_provider m :
  In m models <->
  exists p, In p providers /\ validateModelProvider m p = Some true
            /\ forall p', validateModelProvider m p' = Some true -> p' = p.
Proof.
  split.
  - unfold models. cbn [In]. intros H.
    repeat (destruct H as [<-|H];
      [first [ exists "openai"; split; [pick_entry|]; split; [reflexivity|]
             | exists "groq"; split; [pick_entry|]; split; [reflexivity|]
             | exists "google"; split; [pick_entry|]; split; [reflexivity|]
             | exists "anthropic"; split; [pick_entry|]; split; [reflexivity|] ];
       intros p' H'; unfold validateModelProvider, lookup_literal, modelProviderMap in H';
       cbn [assoc] in H';
       generalize dependent (inherited p'); intros prototype_member H';
       repeat match type of H' with
              | context [String.eqb p' ?k] =>
                  let E := fresh "E" in
                  destruct (String.eqb p' k) eqn:E;
                  [apply String.eqb_eq in E; subst p';
                   first [reflexivity | vm_compute in H'; discriminate H']|]
              end;
       destruct prototype_member; discriminate H' |]).
    destruct H.
  - intros (p & Hp & H & _). unfold providers in Hp. cbn [In] in Hp.
    repeat (destruct Hp as [<-|Hp];
      [injection H as H; cbn [existsb] in H; rewrite ?orb_false_r in H;
       repeat (apply orb_true_iff in H as [H|H]);
       apply String.eqb_eq in H; subst m; unfold models; pick_entry |]).
    destruct Hp.
Qed.

(** ** Requests that reach an adapter *)

Lemma accepted_request rt ctx body value request :
  validateRequest rt ctx body = Next value ->
  validateModelCompatibility rt ctx value = Next request ->
  exists fields ps,
    body = JObj fields
    /\ obj_get "prompt" fields = Some (JStr (prompt request))
    /\ obj_get "model" fields = Some (JStr (model request))
    /\ obj_get "provider" fields = Some (JStr (provider request))
    /\ In (provider request) providers
    /\ validateModelProvider (model request) (provider request) = Some true
    /\ validate rt parametersSchema [ "parameters" ] (obj_get "parameters" fields)
       = (Some (JObj ps), [])
    /\ parameters request = Some ps.
Proof.
  intros Hvalid Hcompatible.
  destruct (validateRequest_next rt ctx body value Hvalid) as (fields & -> & Hv).
  destruct (validated_shape rt fields value Hv)
    as (p & m & pr & ps & Hp & Hm & Hpr & _ & Hlisted & Hps & Hd).
  unfold validateModelCompatibility in Hcompatible. rewrite Hd in Hcompatible.
  cbn [model provider] in Hcompatible.
  destruct (validateModelProvider m pr) as [[|]|] eqn:Htable; try discriminate.
  injection Hcompatible as <-. cbn [prompt model provider parameters].
  exists fields, ps. repeat split; try assumption.
  apply existsb_exists in Hlisted as (x & Hin & Hx).
  apply String.eqb_eq in Hx. now subst x.
Qed.

Lemma createModelService_listed env ctx provider cfg :
  In provider providers ->
  env_truthy (apiKey cfg) = true ->
  createModelService env ctx provider cfg
  = ([ New provider ], inr (service_of env provider cfg)).
Proof.
  unfold providers. cbn [In]. intros Hlisted Hkey.
  destruct Hlisted as [<-|[<-|[<-|[<-|[]]]]];
    unfold createModelService, BaseModelService, service_of;
    cbn [toLowerCase]; rewrite Hkey; cbn; try reflexivity.
  destruct (env_truthy (baseUrl cfg)); reflexivity.
Qed.

Lemma handleApiError_silent {A} rt ctx svc e op :
  fst (@handleApiError rt ctx A svc e op) = [].
Proof.
  unfold handleApiError.
  destruct (e_response e) as [[]|]; [|destruct (e_request e)]; reflexivity.
Qed.

Lemma rejected_call_is_handled {A} up r e (k : JsVal -> M A) (h : JsError -> M A) :
  post up r = inl e ->
  fst (h e) = [] ->
  try_catch (let* response_data := axios_post up r in k response_data) h
  = ([ Post r ], snd (h e)).
Proof.
  intros Hpost Hsilent. unfold axios_post, bind, tell, try_catch, throw. rewrite Hpost.
  cbn [app]. destruct (h e) as [t' r']. cbn [fst snd] in *. now subst t'.
Qed.

Lemma generateCompletion_rejected rt env up ctx provider cfg prompt model parameters e :
  In provider providers ->
  (forall r, post up r = inl e) ->
  exists r,
    generateCompletion rt up ctx (service_of env provider cfg) prompt model parameters
    = ([ Post r ],
       snd (@handleApiError rt ctx CompletionResult (service_of env provider cfg) e
              (completion_operation (adapter_of provider)))).
Proof.
  unfold providers. cbn [In]. intros Hlisted Hpost.
  destruct Hlisted as [<-|[<-|[<-|[<-|[]]]]];
    unfold generateCompletion; cbn [adapter service_of adapter_of String.eqb Ascii.eqb Bool.eqb];
    unfold OpenAIService_generateCompletion, GroqService_generateCompletion,
      AnthropicService_generateCompletion, GoogleAIService_generateCompletion,
      chat_completion;
    eexists;
    exact (rejected_call_is_handled up _ e _
             (fun error => handleApiError rt ctx _ error _)
             (Hpost _) (handleApiError_silent rt ctx _ e _)).
Qed.

Lemma error_reply_fields rt env ctx text code provider :
  code <> 0%nat ->
  provider <> EmptyString ->
  exists res,
    errorHandler rt env (APIError (now ctx) text (StatusNum code) (Some provider)) ctx fresh
    = Replied res
    /\ statusCode res = code
    /\ opt_prop (body res) "error" = Some (JStr "APIError")
    /\ opt_prop (body res) "message" = Some (JStr text)
    /\ opt_prop (body res) "provider" = Some (JStr provider)
    /\ opt_prop (body res) "userMessage" = Some (JStr (getErrorMessage (StatusNum code))).
Proof.
  intros Hcode Hprovider.
  unfold errorHandler, APIError, code_is.
  cbn [headersSent fresh ended written orb negb e_statusCode status_truthy e_name e_code
       String.eqb Ascii.eqb Bool.eqb default].
  apply Nat.eqb_neq in Hcode. rewrite Hcode. cbn [negb].
  eexists. split; [reflexivity|]. split; [reflexivity|].
  cbn [body json]. unfold formatErrorResponse.
  cbn [e_name e_message e_timestamp e_provider e_details e_statusCode text_truthy
       status_truthy default String.eqb Ascii.eqb Bool.eqb].
  rewrite Hcode. apply String.eqb_neq in Hprovider. rewrite Hprovider. cbn [negb].
  destruct (negb (String.eqb (now ctx) EmptyString));
    destruct (decide (env !! "NODE_ENV" = Some "development"));
    try destruct (String.eqb (Error_stack rt "APIError" text) EmptyString);
    repeat split; reflexivity.
Qed.

Lemma listed_provider_is_named provider : In provider providers -> provider <> EmptyString.
Proof. unfold providers. cbn [In]. intros [<-|[<-|[<-|[<-|[]]]]]; discriminate. Qed.

(** X6.  POST /api/models/chat, for a request that passes both
    validation steps to an available provider, when axios rejects the
    upstream call with error [e]: one adapter is constructed, one call is
    made, and the answer has the upstream's status when [e] has a response,
    502 when only the request was sent and 500 otherwise.  Its body names
    the error [APIError] and the provider, carries the user message of that
    status, and its message is the upstream's [error.message] or [message]
    (or "<operation> failed"), "Network error during <operation>", or
    "Unexpected error during <operation>: <message>". *)
Theorem upstream_failure_is_classified rt env up ctx req_body value request config e :
  validateRequest rt ctx req_body = Next value ->
  validateModelCompatibility rt ctx value = Next request ->
  usable (getProviderConfig env (provider request)) = Some config ->
  (forall r, post up r = inl e) ->
  failure_status e <> 0%nat ->
  let operation := completion_operation (adapter_of (provider request)) in
  exists r res,
    post_chat rt env up ctx req_body = ([ New (provider request); Post r ], Replied res)
    /\ statusCode res = failure_status e
    /\ opt_prop (body res) "error" = Some (JStr "APIError")
    /\ opt_prop (body res) "provider" = Some (JStr (provider request))
    /\ opt_prop (body res) "userMessage"
       = Some (JStr (getErrorMessage (StatusNum (failure_status e))))
    /\ (forall upstream_status data,
          e_response e = Some (upstream_status, data) ->
          opt_prop (body res) "message"
          = Some (JStr (ToString rt
                          (default JNull
                             (js_or (opt_prop (opt_prop data "error") "message")
                                (js_or (opt_prop data "message")
                                   (Some (JStr (operation +:+ " failed")))))))))
    /\ (e_response e = None -> e_request e = true ->
        opt_prop (body res) "message" = Some (JStr ("Network error during " +:+ operation)))
    /\ (e_response e = None -> e_request e = false ->
        opt_prop (body res) "message"
        = Some (JStr ("Unexpected error during " +:+ operation +:+ ": " +:+ e_message e))).
Proof.
  intros Hvalid Hcompatible Husable Hpost Hcode operation.
  destruct (accepted_request rt ctx req_body value request Hvalid Hcompatible)
    as (fields & ps & _ & _ & _ & _ & Hlisted & _).
  pose proof (usable_has_key env _ config Husable) as Hkey.
  destruct (generateCompletion_rejected rt env up ctx (provider request) config
              (prompt request) (model request) (parameters request) e Hlisted Hpost)
    as (r & Hcall).
  assert (Hraised : exists text,
             snd (@handleApiError rt ctx CompletionResult
                    (service_of env (provider request) config) e operation)
             = inl (APIError (now ctx) text (StatusNum (failure_status e))
                      (Some (provider request)))
             /\ (forall upstream_status data,
                   e_response e = Some (upstream_status, data) ->
                   text = ToString rt
                            (default JNull
                               (js_or (opt_prop (opt_prop data "error") "message")
                                  (js_or (opt_prop data "message")
                                     (Some (JStr (operation +:+ " failed")))))))
             /\ (e_response e = None -> e_request e = true ->
                 text = "Network error during " +:+ operation)
             /\ (e_response e = None -> e_request e = false ->
                 text = "Unexpected error during " +:+ operation +:+ ": " +:+ e_message e)).
  { unfold handleApiError, failure_status.
    destruct (e_response e) as [[upstream_status data]|]; [|destruct (e_request e)];
      eexists; (split; [reflexivity|]); repeat split; try discriminate; try reflexivity.
    intros s d [= <- <-]. reflexivity. }
  destruct Hraised as (text & Hraised & Hresponse & Hnetwork & Hother).
  destruct (error_reply_fields rt env ctx text (failure_status e) (provider request) Hcode
              (listed_provider_is_named _ Hlisted))
    as (res & Hreply & Hstatus & Herror & Hmessage & Hprovider & Huser).
  exists r, res. split.
  - unfold post_chat, post_route. rewrite Hvalid, Hcompatible.
    unfold asyncHandler, chat_handler. rewrite Husable.
    rewrite (createModelService_listed env ctx _ config Hlisted Hkey).
    unfold bind at 1. fold operation in Hcall. rewrite Hcall.
    unfold bind, try_catch, throw. rewrite Hraised. cbn [app]. now rewrite Hreply.
  - repeat split; try assumption.
    + intros s d H. now rewrite Hmessage, (Hresponse s d H).
    + intros H1 H2. now rewrite Hmessage, (Hnetwork H1 H2).
    + intros H1 H2. now rewrite Hmessage, (Hother H1 H2).
Qed.

Lemma upstream_failure_is_classified_witness :
  exists r res,
    post_chat Sample.runtime Sample.environment Sample.rate_limited Sample.context
      (Sample.request "gpt-4" "openai" [])
    = ([ New "openai"; Post r ], Replied res)
    /\ statusCode res = 429%nat
    /\ opt_prop (body res) "message" = Some (JStr "Rate limit exceeded").
Proof.
  destruct (upstream_failure_is_classified Sample.runtime Sample.environment
              Sample.rate_limited Sample.context (Sample.request "gpt-4" "openai" [])
              _ _ _
              (Sample.rate_limit_error
                 (JObj [ ("error", JObj [ ("message", JStr "Rate limit exceeded") ]) ]))
              eq_refl eq_refl eq_refl (fun _ => eq_refl))
    as (r & res & Hreply & Hstatus & _ & _ & _ & Hmessage & _).
  - discriminate.
  - exists r, res. split; [exact Hreply|]. split; [exact Hstatus|].
    exact (Hmessage _ _ eq_refl).
Defined.

Lemma google_without_candidates rt up ctx svc prompt model parameters answer :
  (forall r, post up r = inr (Some (JObj answer))) ->
  truthy (opt_first (obj_get "candidates" answer)) = false ->
  exists r,
    GoogleAIService_generateCompletion rt up ctx svc prompt model parameters
    = ([ Post r ],
       inl (APIError (now ctx)
              "Unexpected error during Google AI completion: No response generated"
              (StatusNum 500) (Some (provider_name svc)))).
Proof.
  intros Hpost Hnone. eexists.
  unfold GoogleAIService_generateCompletion, axios_post. rewrite Hpost.
  cbv beta iota zeta delta [bind tell ret prop throw try_catch].
  rewrite Hnone.
  cbv beta iota zeta delta [negb throw handleApiError APIError e_response e_request e_message
                            app].
  reflexivity.
Qed.

(** X7.  When Google answers a chat request with an object that
    has no first candidate, the route answers 500 with an APIError for
    provider [google] whose message is "Unexpected error during Google AI
    completion: No response generated": the text code the adapter gives its
    own APIError is replaced by [handleApiError]. *)
Theorem google_answer_without_candidates_is_500
    rt env up ctx req_body value request config answer :
  validateRequest rt ctx req_body = Next value ->
  validateModelCompatibility rt ctx value = Next request ->
  provider request = "google" ->
  usable (getProviderConfig env "google") = Some config ->
  (forall r, post up r = inr (Some (JObj answer))) ->
  truthy (opt_first (obj_get "candidates" answer)) = false ->
  exists r res,
    post_chat rt env up ctx req_body = ([ New "google"; Post r ], Replied res)
    /\ statusCode res = 500%nat
    /\ opt_prop (body res) "error" = Some (JStr "APIError")
    /\ opt_prop (body res) "message"
       = Some (JStr "Unexpected error during Google AI completion: No response generated")
    /\ opt_prop (body res) "provider" = Some (JStr "google").
Proof.
  intros Hvalid Hcompatible Hgoogle Husable Hpost Hnone.
  pose proof (usable_has_key env _ config Husable) as Hkey.
  destruct (error_reply_fields rt env ctx
              "Unexpected error during Google AI completion: No response generated"
              500 "google")
    as (res & Hreply & Hstatus & Herror & Hmessage & Hprovider & _);
    [discriminate | discriminate |].
  destruct (google_without_candidates rt up ctx (service_of env "google" config)
              (prompt request) (model request) (parameters request) answer Hpost Hnone)
    as (r & Hcall).
  exists r, res. split; [|repeat split; assumption].
  unfold post_chat, post_route. rewrite Hvalid, Hcompatible.
  unfold asyncHandler, chat_handler. rewrite Hgoogle, Husable.
  rewrite (createModelService_listed env ctx "google" config) by (cbn; tauto || exact Hkey).
  unfold bind at 1. unfold generateCompletion.
  cbn [adapter service_of adapter_of String.eqb Ascii.eqb Bool.eqb].
  cbn [service_of adapter_of String.eqb Ascii.eqb Bool.eqb] in Hcall.
  rewrite Hcall. cbn [provider_name].
  unfold bind, try_catch, throw. cbn [app].
  change (provider_name (service_of env "google" config)) with "google".
  now rewrite Hreply.
Qed.

Lemma google_answer_without_candidates_is_500_witness :
  exists r res,
    post_chat Sample.runtime Sample.all_configured Cases.blocked Sample.context
      (Sample.request "gemini-2.5-pro" "google" [])
    = ([ New "google"; Post r ], Replied res)
    /\ statusCode res = 500%nat.
Proof.
  destruct (google_answer_without_candidates_is_500 Sample.runtime Sample.all_configured
              Cases.blocked Sample.context (Sample.request "gemini-2.5-pro" "google" [])
              _ _ _ _ eq_refl eq_refl eq_refl eq_refl (fun _ => eq_refl) eq_refl)
    as (r & res & Hreply & Hstatus & _).
  exists r, res. split; assumption.
Defined.

(** ** What the routes can answer *)

Lemma try_catch_fails {A} (m : M A) (h : JsError -> M A) t err :
  try_catch m h = (t, inl err) -> exists e, snd (h e) = inl err.
Proof.
  destruct m as [t1 [e|a]]; cbn [try_catch]; [|discriminate].
  destruct (h e) as [t2 r] eqn:E. intros [= _ ->]. exists e. now rewrite E.
Qed.

Lemma handled_error_is_api_error {A} rt ctx svc e op err :
  snd (@handleApiError rt ctx A svc e op) = inl err ->
  exists text code,
    err = APIError (now ctx) text (StatusNum code) (Some (provider_name svc)).
Proof.
  destruct (@handleApiError_raises A rt ctx svc e op) as (text & ->).
  intros [= <-]. eauto.
Qed.

Lemma generateCompletion_fails rt up ctx svc prompt model parameters t err :
  generateCompletion rt up ctx svc prompt model parameters = (t, inl err) ->
  exists text code,
    err = APIError (now ctx) text (StatusNum code) (Some (provider_name svc)).
Proof.
  unfold generateCompletion, OpenAIService_generateCompletion,
    GroqService_generateCompletion, AnthropicService_generateCompletion,
    GoogleAIService_generateCompletion, chat_completion.
  destruct (adapter svc); intros H; apply try_catch_fails in H as (e & H);
    exact (handled_error_is_api_error rt ctx svc e _ err H).
Qed.

Lemma generateStreamingCompletion_fails rt up ctx svc prompt model parameters t err :
  generateStreamingCompletion rt up ctx svc prompt model parameters = (t, inl err) ->
  exists text code,
    err = APIError (now ctx) text (StatusNum code) (Some (provider_name svc)).
Proof.
  unfold generateStreamingCompletion, OpenAIService_generateStreamingCompletion,
    GroqService_generateStreamingCompletion, AnthropicService_generateStreamingCompletion,
    GoogleAIService_generateStreamingCompletion, chat_completion_stream.
  destruct (adapter svc) eqn:Hadapter; intros H.
  - apply try_catch_fails in H as (e & H).
    exact (handled_error_is_api_error rt ctx svc e _ err H).
  - apply bind_fails in H as [H | (t1 & a & t2 & _ & H & _)]; [|discriminate H].
    pose proof (generateCompletion_fails rt up ctx svc prompt model parameters t err) as G.
    unfold generateCompletion in G. rewrite Hadapter in G. exact (G H).
  - apply try_catch_fails in H as (e & H).
    exact (handled_error_is_api_error rt ctx svc e _ err H).
  - apply bind_fails in H as [H | (t1 & a & t2 & _ & H & _)]; [|discriminate H].
    pose proof (generateCompletion_fails rt up ctx svc prompt model parameters t err) as G.
    unfold generateCompletion in G. rewrite Hadapter in G. exact (G H).
Qed.

(** X8.  Every error [generateCompletion] or
    [generateStreamingCompletion] throws, in any of the four adapters, is an
    APIError that carries the adapter's provider and a numeric status. *)
Theorem adapter_failures_are_api_errors rt up ctx svc prompt model parameters t err :
  generateCompletion rt up ctx svc prompt model parameters = (t, inl err)
  \/ generateStreamingCompletion rt up ctx svc prompt model parameters = (t, inl err) ->
  e_name err = "APIError"
  /\ e_provider err = Some (provider_name svc)
  /\ exists code, e_statusCode err = Some (StatusNum code).
Proof.
  intros [H|H];
    [apply generateCompletion_fails in H | apply generateStreamingCompletion_fails in H];
    destruct H as (text & code & ->); cbn; eauto.
Qed.

Lemma adapter_failures_are_api_errors_witness :
  exists t err,
    generateCompletion Sample.runtime Sample.timing_out Sample.context
      (service_of Sample.environment "openai"
         {| apiKey := Some "sk-test"; baseUrl := Some "https://api.openai.com/v1";
            available := true |})
      "Say hi" "gpt-4" None = (t, inl err)
    /\ e_name err = "APIError" /\ e_provider err = Some "openai".
Proof.
  eexists. eexists. split; [reflexivity|].
  destruct (adapter_failures_are_api_errors Sample.runtime Sample.timing_out Sample.context
              (service_of Sample.environment "openai"
                 {| apiKey := Some "sk-test"; baseUrl := Some "https://api.openai.com/v1";
                    available := true |})
              "Say hi" "gpt-4" None _ _ (or_introl eq_refl))
    as (Hname & Hprovider & _).
  split; assumption.
Defined.

Lemma api_error_reply rt env ctx text code provider :
  provider <> EmptyString ->
  exists res,
    errorHandler rt env (APIError (now ctx) text (StatusNum code) (Some provider)) ctx fresh
    = Replied res
    /\ statusCode res = (if (code =? 0)%nat then 500%nat else code)
    /\ opt_prop (body res) "error" = Some (JStr "APIError")
    /\ opt_prop (body res) "message" = Some (JStr text)
    /\ opt_prop (body res) "provider" = Some (JStr provider).
Proof.
  intros Hprovider.
  unfold errorHandler, APIError, code_is.
  cbn [headersSent fresh ended written orb negb e_statusCode status_truthy e_name e_code
       String.eqb Ascii.eqb Bool.eqb default].
  apply String.eqb_neq in Hprovider.
  destruct (code =? 0)%nat eqn:Hcode; cbn [negb].
  all: eexists; (split; [reflexivity|]); (split; [reflexivity|]).
  all: cbn [body json]; unfold formatErrorResponse.
  all: cbn [e_name e_message e_timestamp e_provider e_details e_statusCode text_truthy
            status_truthy default String.eqb Ascii.eqb Bool.eqb].
  all: rewrite Hcode, Hprovider; cbn [negb].
  all: destruct (negb (String.eqb (now ctx) EmptyString));
    destruct (decide (env !! "NODE_ENV" = Some "development"));
    try destruct (String.eqb (Error_stack rt "APIError" text) EmptyString);
    repeat split; reflexivity.
Qed.

Lemma validateRequest_responds rt ctx req_body res :
  validateRequest rt ctx req_body = Respond res -> statusCode res = 400%nat.
Proof.
  unfold validateRequest.
  destruct (validate rt requestSchema [] (Some req_body)) as [v es].
  destruct es; [discriminate|]. now intros [= <-].
Qed.

Lemma validateModelCompatibility_after_validation rt ctx req_body value :
  validateRequest rt ctx req_body = Next value ->
  (exists res, validateModelCompatibility rt ctx value = Respond res
               /\ statusCode res = 400%nat)
  \/ (exists request, validateModelCompatibility rt ctx value = Next request).
Proof.
  intros Hvalid.
  destruct (validateRequest_next rt ctx req_body value Hvalid) as (fields & -> & Hv).
  destruct (validated_shape rt fields value Hv)
    as (p & m & pr & ps & _ & _ & _ & _ & Hlisted & _ & Hd).
  unfold validateModelCompatibility. rewrite Hd. cbn [model provider].
  rewrite (listed_provider_has_models m pr Hlisted).
  destruct (existsb (String.eqb m) (default [] (assoc pr modelProviderMap))); eauto.
Qed.

(** X9.  POST /api/models/chat answers every body with a JSON
    response: 400, 503, 200 with [success: true], or an APIError body that
    names one of the four providers.  No other error reaches the client and
    the request never goes to Express's default handler. *)
Theorem chat_route_outcomes rt env up ctx req_body :
  exists res,
    snd (post_chat rt env up ctx req_body) = Replied res
    /\ (statusCode res = 400%nat
        \/ statusCode res = 503%nat
        \/ (statusCode res = 200%nat
            /\ opt_prop (body res) "success" = Some (JBool true))
        \/ (opt_prop (body res) "error" = Some (JStr "APIError")
            /\ exists provider,
                 In provider providers
                 /\ opt_prop (body res) "provider" = Some (JStr provider))).
Proof.
  unfold post_chat, post_route.
  destruct (validateRequest rt ctx req_body) as [res|value|e] eqn:Hvalid.
  - exists res. split; [reflexivity|]. left.
    exact (validateRequest_responds rt ctx req_body res Hvalid).
  - destruct (validateModelCompatibility_after_validation rt ctx req_body value Hvalid)
      as [(res & -> & Hstatus) | (request & Hcompatible)].
    + exists res. split; [reflexivity|]. now left.
    + rewrite Hcompatible.
      destruct (accepted_request rt ctx req_body value request Hvalid Hcompatible)
        as (fields & ps & _ & _ & _ & _ & Hlisted & _).
      unfold asyncHandler, chat_handler.
      destruct (usable (getProviderConfig env (provider request))) as [config|] eqn:Husable.
      * pose proof (usable_has_key env _ config Husable) as Hkey.
        rewrite (createModelService_listed env ctx _ config Hlisted Hkey).
        unfold bind at 1.
        destruct (generateCompletion rt up ctx (service_of env (provider request) config)
                    (prompt request) (model request) (parameters request))
          as [t [err|response]] eqn:Hcall.
        -- apply generateCompletion_fails in Hcall as (text & code & ->).
           cbn [provider_name service_of].
           destruct (api_error_reply rt env ctx text code (provider request)
                       (listed_provider_is_named _ Hlisted))
             as (res & Hreply & _ & Herror & _ & Hprovider).
           exists res. unfold bind, try_catch, throw. cbn [app snd]. rewrite Hreply.
           split; [reflexivity|]. right. right. right. eauto.
        -- unfold bind, try_catch, ret. cbn [app snd]. eexists. split; [reflexivity|].
           right. right. left. split; reflexivity.
      * eexists. split; [reflexivity|]. right. left. reflexivity.
  - exfalso. exact (validateRequest_never_fails rt ctx req_body e Hvalid).
Qed.

Lemma relay_before_end rt chunks res :
  ended res = false ->
  relay rt chunks res
  = {| statusCode := statusCode res; headers := headers res; body := body res;
       written := (written res ++ map (fun c => sse (JSON_stringify rt c)) chunks)%list;
       ended := false; late := late res |}.
Proof.
  revert res. induction chunks as [|c chunks IH]; intros res Hopen.
  - destruct res. cbn in *. subst. now rewrite app_nil_r.
  - rewrite relay_cons, IH by (unfold write; now rewrite Hopen).
    unfold write. rewrite Hopen. cbn. now rewrite <- app_assoc.
Qed.

(** X10.  POST /api/models/stream answers every body with 400,
    503, or an SSE response of status 200 that has been ended and whose
    last event is the terminator [data: [DONE]] or, alone, an error event
    [data: {"error": ...}]; the error handler is never reached. *)
Theorem stream_route_outcomes rt env up ctx req_body :
  exists res,
    snd (post_stream_route rt env up ctx req_body) = Replied res
    /\ (statusCode res = 400%nat
        \/ statusCode res = 503%nat
        \/ (statusCode res = 200%nat
            /\ headers res = sse_headers
            /\ body res = None
            /\ ended res = true
            /\ exists events final,
                 written res = (events ++ [ final ])%list
                 /\ (final = sse "[DONE]"
                     \/ (events = []
                         /\ exists text,
                              final = sse (JSON_stringify rt
                                             (JObj [ ("error", JStr text) ])))))).
Proof.
  unfold post_stream_route, post_route.
  destruct (validateRequest rt ctx req_body) as [res|value|e] eqn:Hvalid.
  - exists res. split; [reflexivity|]. left.
    exact (validateRequest_responds rt ctx req_body res Hvalid).
  - destruct (validateModelCompatibility_after_validation rt ctx req_body value Hvalid)
      as [(res & -> & Hstatus) | (request & Hcompatible)].
    + exists res. split; [reflexivity|]. now left.
    + rewrite Hcompatible. unfold asyncHandler, stream_handler.
      destruct (usable (getProviderConfig env (provider request))) as [config|] eqn:Husable.
      * cbv zeta.
        destruct (let* modelService
                    := createModelService env ctx (provider request) config in
                  generateStreamingCompletion rt up ctx modelService (prompt request)
                    (model request)
                    (Some (obj_set "stream" (JBool true)
                             (obj_spread [] (default [] (parameters request))))))
          as [t [err|deferred]] eqn:Hattempt.
        -- pose proof (failed_attempt_emits_nothing _ _ _ _ _ _ _ _ _ _ _ Hattempt) as Hquiet.
           rewrite Hquiet. eexists. split; [reflexivity|]. right. right.
           repeat (split; [reflexivity|]).
           exists [], (sse (JSON_stringify rt (JObj [ ("error", JStr (e_message err)) ]))).
           split; [reflexivity|]. right. eauto.
        -- eexists. split; [reflexivity|]. right. right.
           rewrite relay_after_end by reflexivity.
           rewrite relay_before_end by reflexivity.
           repeat (split; [reflexivity|]).
           eexists. exists (sse "[DONE]"). split; [reflexivity|]. now left.
      * eexists. split; [reflexivity|]. right. left. reflexivity.
  - exfalso. exact (validateRequest_never_fails rt ctx req_body e Hvalid).
Qed.

(** ** Events of a request *)

Section Counting.
Context {X : Type} (f : Event -> option X).

Lemma count_ret {A} (a : A) : count f (ret a) = 0%nat.
Proof. reflexivity. Qed.

Lemma count_throw {A} e : count f (@throw A e) = 0%nat.
Proof. reflexivity. Qed.

Lemma count_bind {A B} (m : M A) (k : A -> M B) a b :
  (count f m <= a)%nat -> (forall x, (count f (k x) <= b)%nat) ->
  (count f (bind m k) <= a + b)%nat.
Proof.
  unfold count. destruct m as [t [e|x]]; cbn [bind fst]; intros Hm Hk; [lia|].
  specialize (Hk x). destruct (k x) as [t' r]. cbn [fst] in *.
  rewrite omap_app, length_app. lia.
Qed.

Lemma count_try_catch {A} (m : M A) (h : JsError -> M A) a b :
  (count f m <= a)%nat -> (forall e, (count f (h e) <= b)%nat) ->
  (count f (try_catch m h) <= a + b)%nat.
Proof.
  unfold count. destruct m as [t [e|x]]; cbn [try_catch fst]; intros Hm Hh; [|lia].
  specialize (Hh e). destruct (h e) as [t' r]. cbn [fst] in *.
  rewrite omap_app, length_app. lia.
Qed.

Lemma count_prop {A} rt v k (c : JsVal -> M A) n :
  (forall x, (count f (c x) <= n)%nat) ->
  (count f (let* x := prop rt v k in c x) <= n)%nat.
Proof.
  intros Hc. apply (count_bind (prop rt v k) c 0 n); [|exact Hc].
  destruct v as [[]|]; cbn; lia.
Qed.

Lemma count_first {A} rt v (c : JsVal -> M A) n :
  (forall x, (count f (c x) <= n)%nat) ->
  (count f (let* x := first rt v in c x) <= n)%nat.
Proof.
  intros Hc. apply (count_bind (first rt v) c 0 n); [|exact Hc].
  destruct v as [[| | |[]| |]|]; cbn; lia.
Qed.

Lemma count_handleApiError {A} rt ctx svc e op :
  count f (@handleApiError rt ctx A svc e op) = 0%nat.
Proof. unfold count. now rewrite handleApiError_silent. Qed.

End Counting.

Ltac counting :=
  repeat first
    [ apply count_prop; intros ?
    | apply count_first; intros ?
    | match goal with
      | |- (count _ (ret _) <= _)%nat => rewrite count_ret; lia
      | |- (count _ (throw _) <= _)%nat => rewrite count_throw; lia
      | |- (count _ (handleApiError _ _ _ _ _) <= _)%nat =>
          rewrite count_handleApiError; lia
      | |- (count _ (if ?b then _ else _) <= _)%nat => destruct b
      end ].

Lemma count_all_zero {A} (m : M A) : (count Some m <= 0)%nat -> fst m = [].
Proof.
  unfold count. destruct (fst m) as [|ev t]; [reflexivity|]. cbn. lia.
Qed.

Lemma call_then_quiet {A} up r (k : JsVal -> M A) (h : JsError -> M A) :
  (forall d, fst (k d) = []) -> (forall e, fst (h e) = []) ->
  fst (try_catch (let* d := axios_post up r in k d) h) = [ Post r ].
Proof.
  intros Hk Hh. unfold axios_post, bind, tell, try_catch, throw, ret.
  destruct (post up r) as [e|d]; cbn [app fst].
  - specialize (Hh e). destruct (h e) as [t' r']. cbn [fst] in *. now subst.
  - specialize (Hk d). destruct (k d) as [t' [e|a]]; cbn [fst] in *; subst t'.
    + specialize (Hh e). destruct (h e) as [t' r']. cbn [fst] in *. now subst.
    + reflexivity.
Qed.

Lemma generateCompletion_trace rt up ctx svc prompt model parameters :
  exists r, fst (generateCompletion rt up ctx svc prompt model parameters) = [ Post r ].
Proof.
  unfold generateCompletion, OpenAIService_generateCompletion,
    GroqService_generateCompletion, AnthropicService_generateCompletion,
    GoogleAIService_generateCompletion, chat_completion.
  destruct (adapter svc); eexists;
    (apply call_then_quiet;
     [intros d; apply count_all_zero; counting
     |intros e; apply handleApiError_silent]).
Qed.

Lemma generateStreamingCompletion_trace rt up ctx svc prompt model parameters :
  exists r chunks,
    fst (generateStreamingCompletion rt up ctx svc prompt model parameters)
    = Post r :: map Chunk chunks.
Proof.
  unfold generateStreamingCompletion.
  destruct (adapter svc) eqn:Hadapter.
  - unfold OpenAIService_generateStreamingCompletion, chat_completion_stream.
    eexists. exists []. unfold axios_post_stream, bind, tell, try_catch, throw, ret.
    destruct (post_stream up _) as [e|d]; cbn [app fst map]; [|reflexivity].
    pose proof (handleApiError_silent (A:=list string) rt ctx svc e
                  "OpenAI streaming completion") as Hh.
    destruct (handleApiError rt ctx svc e "OpenAI streaming completion") as [t' r'].
    cbn [fst] in *. now subst.
  - unfold AnthropicService_generateStreamingCompletion.
    destruct (generateCompletion_trace rt up ctx svc prompt model parameters) as (r & Hr).
    unfold generateCompletion in Hr. rewrite Hadapter in Hr.
    destruct (AnthropicService_generateCompletion rt up ctx svc prompt model parameters)
      as [t [e|result]]; cbn [fst] in Hr; subst t.
    + exists r, []. reflexivity.
    + exists r. eexists [_]. reflexivity.
  - unfold GroqService_generateStreamingCompletion, chat_completion_stream.
    eexists. exists []. unfold axios_post_stream, bind, tell, try_catch, throw, ret.
    destruct (post_stream up _) as [e|d]; cbn [app fst map]; [|reflexivity].
    pose proof (handleApiError_silent (A:=list string) rt ctx svc e
                  "Groq streaming completion") as Hh.
    destruct (handleApiError rt ctx svc e "Groq streaming completion") as [t' r'].
    cbn [fst] in *. now subst.
  - unfold GoogleAIService_generateStreamingCompletion.
    destruct (generateCompletion_trace rt up ctx svc prompt model parameters) as (r & Hr).
    unfold generateCompletion in Hr. rewrite Hadapter in Hr.
    destruct (GoogleAIService_generateCompletion rt up ctx svc prompt model parameters)
      as [t [e|result]]; cbn [fst] in Hr; subst t.
    + exists r, []. reflexivity.
    + exists r. eexists [_; _]. reflexivity.
Qed.

Lemma trace_asyncHandler rt env ctx (m : M Response) :
  fst (asyncHandler rt env ctx m) = fst m.
Proof. now destruct m as [t [e|res]]. Qed.

(** X11.  A request to either POST route constructs no adapter and
    makes no upstream call, or constructs one adapter, for one of the four
    providers, and makes exactly one upstream call (followed, on the
    streaming route, by [onChunk] calls only): there is no retry. *)
Theorem request_makes_one_upstream_call rt env up ctx req_body :
  (fst (post_chat rt env up ctx req_body) = []
   \/ exists provider r,
        In provider providers
        /\ fst (post_chat rt env up ctx req_body) = [ New provider; Post r ])
  /\ (fst (post_stream_route rt env up ctx req_body) = []
      \/ exists provider r chunks,
           In provider providers
           /\ fst (post_stream_route rt env up ctx req_body)
              = New provider :: Post r :: map Chunk chunks).
Proof.
  unfold post_chat, post_stream_route, post_route.
  destruct (validateRequest rt ctx req_body) as [res|value|e] eqn:Hvalid;
    [split; left; reflexivity| |split; left; reflexivity].
  destruct (validateModelCompatibility_after_validation rt ctx req_body value Hvalid)
    as [(res & -> & Hstatus) | (request & Hcompatible)]; [split; left; reflexivity|].
  rewrite Hcompatible.
  destruct (accepted_request rt ctx req_body value request Hvalid Hcompatible)
    as (fields & ps & _ & _ & _ & _ & Hlisted & _).
  rewrite !trace_asyncHandler. unfold chat_handler, stream_handler.
  destruct (usable (getProviderConfig env (provider request))) as [config|] eqn:Husable;
    [|split; left; reflexivity].
  pose proof (usable_has_key env _ config Husable) as Hkey.
  cbv zeta. rewrite (createModelService_listed env ctx _ config Hlisted Hkey).
  split; right; exists (provider request).
  - destruct (generateCompletion_trace rt up ctx (service_of env (provider request) config)
                (prompt request) (model request) (parameters request)) as (r & Hr).
    exists r. split; [exact Hlisted|].
    cbv beta iota zeta delta [bind try_catch].
    destruct (generateCompletion rt up ctx _ _ _ _) as [t [err|response]];
      cbn [fst] in Hr; subst t; reflexivity.
  - destruct (generateStreamingCompletion_trace rt up ctx
                (service_of env (provider request) config)
                (prompt request) (model request)
                (Some (obj_set "stream" (JBool true)
                         (obj_spread [] (default [] (parameters request))))))
      as (r & chunks & Hr).
    exists r. cbv beta iota zeta delta [bind].
    destruct (generateStreamingCompletion rt up ctx _ _ _ _) as [t [err|deferred]];
      cbn [fst] in Hr; subst t.
    + exists chunks. split; [exact Hlisted | reflexivity].
    + exists (chunks ++ concat (map (on_data rt) deferred))%list.
      split; [exact Hlisted|]. cbn [app fst]. now rewrite map_app.
Qed.

(** ** The fallback streaming methods *)

(** X12.  POST /api/models/stream with the Anthropic or the
    Google adapter, whose streaming method is the blocking call: when the
    call succeeds the response holds the content event (and, for Google,
    the done event) followed by the terminator, all written before the
    response ends. *)
Theorem fallback_stream_is_written_in_order
    rt env up ctx req_body value request config t result :
  validateRequest rt ctx req_body = Next value ->
  validateModelCompatibility rt ctx value = Next request ->
  provider request = "anthropic" \/ provider request = "google" ->
  usable (getProviderConfig env (provider request)) = Some config ->
  generateCompletion rt up ctx (service_of env (provider request) config)
    (prompt request) (model request)
    (Some (obj_set "stream" (JBool true) (obj_spread [] (default [] (parameters request)))))
  = (t, inr result) ->
  let chunks := fallback_chunks (provider request) result in
  post_stream_route rt env up ctx req_body
  = ((New (provider request) :: t ++ map Chunk chunks)%list,
     Replied {| statusCode := 200; headers := sse_headers; body := None;
                written := (map (fun c => sse (JSON_stringify rt c)) chunks
                            ++ [ sse "[DONE]" ])%list;
                ended := true; late := [] |}).
Proof.
  intros Hvalid Hcompatible Hprovider Husable Hcall chunks. subst chunks.
  pose proof (usable_has_key env _ config Husable) as Hkey.
  unfold post_stream_route, post_route. rewrite Hvalid, Hcompatible.
  unfold asyncHandler, stream_handler. rewrite Husable. cbv zeta.
  rewrite (createModelService_listed env ctx _ config)
    by (try exact Hkey; unfold providers; cbn [In]; destruct Hprovider as [-> | ->]; tauto).
  destruct (generateCompletion_trace rt up ctx (service_of env (provider request) config)
              (prompt request) (model request)
              (Some (obj_set "stream" (JBool true)
                       (obj_spread [] (default [] (parameters request))))))
    as (r & Hr).
  rewrite Hcall in Hr. cbn [fst] in Hr. subst t.
  unfold generateCompletion in Hcall. unfold generateStreamingCompletion.
  destruct Hprovider as [Hp | Hp]; rewrite Hp in *;
    cbn [adapter service_of adapter_of String.eqb Ascii.eqb Bool.eqb] in *;
    unfold AnthropicService_generateStreamingCompletion,
      GoogleAIService_generateStreamingCompletion;
    cbv beta iota zeta delta [bind]; rewrite Hcall;
    reflexivity.
Qed.

Lemma fallback_stream_is_written_in_order_witness :
  exists t,
    post_stream_route Sample.runtime Sample.all_configured Sample.answering Sample.context
      (Sample.request "gemini-2.5-pro" "google" [])
    = (t,
       Replied {| statusCode := 200; headers := sse_headers; body := None;
                  written := [ sse (JSON_stringify Sample.runtime
                                      (content_chunk (Some (JStr "hi"))));
                               sse (JSON_stringify Sample.runtime done_chunk);
                               sse "[DONE]" ];
                  ended := true; late := [] |}).
Proof.
  eexists.
  exact (fallback_stream_is_written_in_order Sample.runtime Sample.all_configured
           Sample.answering Sample.context (Sample.request "gemini-2.5-pro" "google" [])
           _ _ _ _ _ eq_refl eq_refl (or_intror eq_refl) eq_refl eq_refl).
Defined.

(** ** What validation hands on *)

Lemma obj_get_delete_eq k (o : Obj) : obj_get k (obj_delete k o) = None.
Proof.
  induction o as [|[k' v'] o IH]; [reflexivity|].
  rewrite obj_delete_cons. destruct (String.eqb k k') eqn:E; cbn [negb]; [exact IH|].
  cbn [obj_get]. now rewrite E.
Qed.

Lemma obj_get_delete_ne k k' (o : Obj) :
  k <> k' -> obj_get k (obj_delete k' o) = obj_get k o.
Proof.
  intros Hne. induction o as [|[k'' v''] o IH]; [reflexivity|].
  rewrite obj_delete_cons. cbn [obj_get].
  destruct (String.eqb k' k'') eqn:E; cbn [negb].
  - apply String.eqb_eq in E. subst k''. now rewrite (eqb_neq_false _ _ Hne).
  - cbn [obj_get]. now rewrite IH.
Qed.

Lemma obj_get_store_ne k k' r es (o : Obj) :
  k <> k' -> obj_get k (store k' r es o) = obj_get k o.
Proof.
  intros Hne. unfold store. destruct r as [x|]; [now apply obj_get_set_ne|].
  destruct es; [now apply obj_get_delete_ne | reflexivity].
Qed.

Lemma obj_get_store_eq k r (o : Obj) : obj_get k (store k r [] o) = r.
Proof.
  unfold store. destruct r as [x|]; [apply obj_get_set_eq | apply obj_get_delete_eq].
Qed.

Section ChildResults.
Variable rt : Runtime.

Lemma children_other ks p fields value k :
  ~ In k (map fst ks) ->
  obj_get k (fst (children rt ks p fields value)) = obj_get k value.
Proof.
  revert value. induction ks as [|[k0 child] rest IH]; intros value Hk; [reflexivity|].
  cbn [children]. cbn [map fst In] in Hk.
  destruct (validate rt child (p ++ [k0]) (obj_get k0 fields)) as [r es].
  specialize (IH (store k0 r es value)).
  destruct (children rt rest p fields (store k0 r es value)) as [value' es'].
  cbn [fst] in *. rewrite IH by tauto.
  apply obj_get_store_ne. intros ->. tauto.
Qed.

Lemma children_result ks p fields value value' k child :
  List.NoDup (map fst ks) ->
  children rt ks p fields value = (value', []) ->
  In (k, child) ks ->
  exists r, validate rt child (p ++ [k])%list (obj_get k fields) = (r, [])
            /\ obj_get k value' = r.
Proof.
  revert value. induction ks as [|[k0 child0] rest IH]; intros value Hkeys Hrun Hin;
    [destruct Hin|].
  cbn [map fst] in Hkeys. apply List.NoDup_cons_iff in Hkeys as [Hfresh Hkeys].
  cbn [children] in Hrun.
  destruct (validate rt child0 (p ++ [k0]) (obj_get k0 fields)) as [r0 es0] eqn:E0.
  pose proof (children_other rest p fields (store k0 r0 es0 value) k0 Hfresh) as Hkeep.
  destruct (children rt rest p fields (store k0 r0 es0 value)) as [v' es'] eqn:Erest.
  injection Hrun as <- Hes. apply app_eq_nil in Hes as [-> ->].
  destruct Hin as [[= <- <-]|Hin].
  - exists r0. split; [exact E0|]. cbn [fst] in Hkeep. rewrite Hkeep.
    apply obj_get_store_eq.
  - exact (IH _ Hkeys Erest Hin).
Qed.

Lemma number_accepts lo hi d p v r :
  validate rt (Joi_number lo hi d) p v = (r, []) ->
  (v = None /\ r = Some (JNum d))
  \/ exists q, r = Some (JNum (Num q)) /\ Qle_bool lo q = true /\ Qle_bool q hi = true.
Proof.
  cbn [validate].
  set (coerced := match v with Some (JStr x) => Joi_number_coerce rt x | _ => None end).
  destruct coerced as [[n [|]]|] eqn:Ec; [discriminate| |].
  - destruct n as [q| |negative]; try discriminate.
    destruct (unsafe_number q); [discriminate|].
    destruct (Qle_bool lo q) eqn:Hlo, (Qle_bool q hi) eqn:Hhi; try discriminate.
    intros [= <-]. right. eauto.
  - destruct v as [j|]; [|intros [= <-]; now left].
    destruct j as [| |n| | |]; try discriminate.
    destruct n as [q| |negative]; try discriminate.
    destruct (unsafe_number q); [discriminate|].
    destruct (Qle_bool lo q) eqn:Hlo, (Qle_bool q hi) eqn:Hhi; try discriminate.
    intros [= <-]. right. eauto.
Qed.

Lemma boolean_accepts d p v r :
  validate rt (Joi_boolean d) p v = (r, []) -> exists b, r = Some (JBool b).
Proof.
  cbn [validate].
  set (v' := match v with
             | Some (JStr x) =>
                 if String.eqb (toLowerCase x) "true" then Some (JBool true)
                 else if String.eqb (toLowerCase x) "false" then Some (JBool false)
                 else v
             | _ => v
             end).
  destruct v' as [[| b | | | |]|]; try discriminate; intros [= <-]; eauto.
Qed.

Lemma kept_items_are_strings p items :
  Forall (fun it => exists x, it = JStr x /\ x <> EmptyString)
    (omap (fun it => match validate rt (Joi_string false None None None []) p (Some it) with
                     | (Some it', []) => Some it'
                     | _ => None
                     end) items).
Proof.
  induction items as [|it items IH]; [constructor|].
  rewrite omap_cons. cbn [validate].
  destruct it as [| | |x| |]; try exact IH.
  cbn [app]. destruct (String.eqb x EmptyString) eqn:E; cbn [andb negb when]; [exact IH|].
  constructor; [|exact IH]. exists x. split; [reflexivity|]. now apply String.eqb_neq.
Qed.

Lemma stop_accepts p v r :
  validate rt (Joi_array (Joi_string false None None None []) 4) p v = (r, []) ->
  r = None
  \/ exists items, r = Some (JArr items) /\ (length items <= 4)%nat
                   /\ Forall (fun it => exists x, it = JStr x /\ x <> EmptyString) items.
Proof.
  destruct v as [j|]; [|intros [= <-]; now left].
  destruct j as [| | | |items|]; try discriminate.
  rewrite validate_array. cbv zeta.
  pose proof (kept_items_are_strings p items) as Hkept.
  destruct (4 <? length _)%nat eqn:Hlen; [discriminate|].
  intros [= <-]. right. eexists. split; [reflexivity|]. split; [|exact Hkept].
  apply Nat.ltb_ge in Hlen. exact Hlen.
Qed.

End ChildResults.

Lemma parameter_keys_are_distinct :
  List.NoDup [ "temperature"; "max_tokens"; "top_p"; "frequency_penalty";
               "presence_penalty"; "stop"; "stream" ].
Proof.
  repeat (constructor; [cbn [In]; intros H; repeat (destruct H as [H|H]; [discriminate H|]);
                        exact H|]).
  constructor.
Qed.

Ltac child_result Hrun name r Hr Hget :=
  match type of Hrun with
  | children ?rt ?ks ?p ?fields ?value = (?value', []) =>
      match ks with
      | context [ (name, ?child) ] =>
          destruct (children_result rt ks p fields value value' name child
                      parameter_keys_are_distinct Hrun)
            as (r & Hr & Hget); [cbn [In]; tauto|]
      end
  end.

Ltac numeric_parameter Hrun name :=
  let r := fresh "r" in let Hr := fresh "Hr" in let Hget := fresh "Hget" in
  let q := fresh "q" in let Hlo := fresh "Hlo" in let Hhi := fresh "Hhi" in
  child_result Hrun name r Hr Hget;
  apply number_accepts in Hr as [[_ ->] | (q & -> & Hlo & Hhi)];
  unfold within; rewrite obj_get_known by reflexivity; rewrite Hget;
  [eexists; split; [reflexivity|]; split; reflexivity
  |exists q; auto].

(** X13.  What [validateRequest] hands on: when the body has no
    [parameters] the validated parameters are the empty object; otherwise
    each of temperature (0..2), max_tokens (1..8000), top_p (0..1),
    frequency_penalty and presence_penalty (-2..2) is present as a finite
    number within its range, [stream] is a boolean, and [stop], when
    present, holds at most four non-empty strings. *)
Theorem accepted_parameters_are_within_range rt ctx req_body value :
  validateRequest rt ctx req_body = Next value ->
  exists request ps,
    destructure value = Some request
    /\ parameters request = Some ps
    /\ ((opt_prop (Some req_body) "parameters" = None /\ ps = [])
        \/ (within ps "temperature" (0 # 1) (2 # 1)
            /\ within ps "max_tokens" (1 # 1) (8000 # 1)
            /\ within ps "top_p" (0 # 1) (1 # 1)
            /\ within ps "frequency_penalty" (-2 # 1) (2 # 1)
            /\ within ps "presence_penalty" (-2 # 1) (2 # 1)
            /\ (exists b, obj_get "stream" ps = Some (JBool b))
            /\ stop_strings ps)).
Proof.
  intros Hvalid.
  destruct (validateRequest_next rt ctx req_body value Hvalid) as (fields & -> & Hv).
  destruct (validated_shape rt fields value Hv)
    as (p & m & pr & ps & _ & _ & _ & _ & _ & Hps & Hd).
  eexists. exists ps. split; [exact Hd|]. split; [reflexivity|].
  cbn [opt_prop].
  destruct (obj_get "parameters" fields) as [j|]; [right | left; split; [reflexivity|]].
  - destruct j as [| | | | |given]; try discriminate.
    unfold parametersSchema in Hps. rewrite validate_object in Hps.
    destruct (children rt _ [ "parameters" ] given given) as [value' es] eqn:Hrun.
    injection Hps as <- ->. clear Hd.
    cbn [map fst] in *.
    split; [numeric_parameter Hrun "temperature"|].
    split; [numeric_parameter Hrun "max_tokens"|].
    split; [numeric_parameter Hrun "top_p"|].
    split; [numeric_parameter Hrun "frequency_penalty"|].
    split; [numeric_parameter Hrun "presence_penalty"|].
    split.
    + child_result Hrun "stream" r Hr Hget.
      apply boolean_accepts in Hr as (b & ->). exists b.
      rewrite obj_get_known by reflexivity. exact Hget.
    + child_result Hrun "stop" r Hr Hget.
      unfold stop_strings. rewrite obj_get_known by reflexivity. rewrite Hget.
      apply stop_accepts in Hr as [-> | (items & -> & Hlen & Hitems)]; [now left|].
      right. eauto.
  - cbn in Hps. now injection Hps as <-.
Qed.

Lemma accepted_parameters_are_within_range_witness :
  exists request ps,
    destructure (fst (validate Sample.runtime requestSchema []
                        (Some (Sample.request "gpt-4" "openai"
                                 [ ("temperature", JNum (Num (1 # 2))) ]))))
    = Some request
    /\ parameters request = Some ps
    /\ within ps "max_tokens" (1 # 1) (8000 # 1).
Proof.
  destruct (accepted_parameters_are_within_range Sample.runtime Sample.context
              (Sample.request "gpt-4" "openai" [ ("temperature", JNum (Num (1 # 2))) ])
              _ eq_refl)
    as (request & ps & Hd & Hps & [[Habsent _] | (_ & Hmax & _)]).
  - discriminate Habsent.
  - exists request, ps. repeat split; assumption.
Defined.

(** ** The error handler and the provider route *)

Lemma errorHandler_body rt env err ctx res r :
  errorHandler rt env err ctx res = Replied r ->
  body r = Some (formatErrorResponse rt env err ctx).
Proof.
  unfold errorHandler. destruct (headersSent res); [discriminate|].
  repeat match goal with
         | |- context [if ?b then _ else _] => destruct b
         end;
    try discriminate;
    try (intros [= <-]; reflexivity);
    destruct (e_statusCode err) as [[n|s]|]; cbn [default];
    try discriminate; intros [= <-]; reflexivity.
Qed.

(** X14.  Unless NODE_ENV is [development], no reply of the error
    handler has a [stack] property; every reply carries the error's name
    (or "Error"), its message and the request id. *)
Theorem error_reply_hides_the_stack rt env err ctx res r :
  env !! "NODE_ENV" <> Some "development" ->
  errorHandler rt env err ctx res = Replied r ->
  opt_prop (body r) "stack" = None
  /\ opt_prop (body r) "error"
     = Some (JStr (if String.eqb (e_name err) EmptyString then "Error" else e_name err))
  /\ opt_prop (body r) "message" = Some (JStr (e_message err))
  /\ opt_prop (body r) "requestId" = Some (JStr (requestId ctx)).
Proof.
  intros Hproduction Hreply. rewrite (errorHandler_body rt env err ctx res r Hreply).
  unfold formatErrorResponse.
  destruct (decide (env !! "NODE_ENV" = Some "development")) as [Hdev|_]; [contradiction|].
  destruct (text_truthy (e_provider err)), (e_details err) as [ds|],
    (status_truthy (e_statusCode err)); repeat split; reflexivity.
Qed.

Lemma error_reply_hides_the_stack_witness :
  exists r,
    errorHandler Sample.runtime Sample.environment Sample.timeout_error Sample.context fresh
    = Replied r
    /\ opt_prop (body r) "stack" = None.
Proof.
  eexists. split; [reflexivity|].
  apply (error_reply_hides_the_stack Sample.runtime Sample.environment Sample.timeout_error
           Sample.context fresh).
  - discriminate.
  - reflexivity.
Defined.

Lemma prototype_name_is_not_a_provider p :
  inherited p = true -> ~ In (toLowerCase p) providers.
Proof.
  unfold inherited, prototype_names. cbn [existsb]. rewrite orb_false_r.
  intros H.
  repeat (apply orb_true_iff in H as [H|H]);
    apply String.eqb_eq in H; subst p; vm_compute;
    intros H; repeat (destruct H as [H|H]; [discriminate H|]); exact H.
Qed.

Lemma unlisted_name_has_no_catalogue p :
  In (toLowerCase p) providers -> ~ In p providers ->
  getProviderModels p = Some (JArr []).
Proof.
  intros Hlower Hraw. unfold getProviderModels, lookup_literal.
  assert (Hnone : assoc p modelMap = None).
  { unfold modelMap. cbn [assoc].
    repeat match goal with
           | |- context [String.eqb p ?k] =>
               let E := fresh "E" in
               destruct (String.eqb p k) eqn:E;
               [apply String.eqb_eq in E; exfalso; apply Hraw; rewrite E;
                unfold providers; cbn [In]; tauto|]
           end.
    reflexivity. }
  rewrite Hnone.
  destruct (inherited p) eqn:Hproto; [|reflexivity].
  exfalso. exact (prototype_name_is_not_a_provider p Hproto Hlower).
Qed.

(** X15.  GET /api/models/<provider> looks the configuration up by the
    lower-cased name and the catalogue by the name as given: for a name that
    differs from a configured provider's only in letter case the answer is
    200 with [available: true] and an empty model list. *)
Theorem provider_name_in_other_case_has_no_models rt env ctx p :
  In (toLowerCase p) providers ->
  ~ In p providers ->
  env_truthy (env !! credential (toLowerCase p)) = true ->
  get_provider rt env ctx p
  = ([], Replied (json (JObj [ ("provider", JStr p); ("models", JArr []);
                               ("available", JBool true);
                               ("timestamp", JStr (now ctx)) ])
                    fresh)).
Proof.
  intros Hlower Hraw Hkey.
  unfold get_provider, provider_handler, getProviderConfig.
  pose proof (config_of_listed_provider env (toLowerCase p)) as Hconfig.
  unfold getProviderConfig in Hconfig.
  assert (Hidem : toLowerCase (toLowerCase p) = toLowerCase p).
  { unfold providers in Hlower. cbn [In] in Hlower.
    destruct Hlower as [<-|[<-|[<-|[<-|[]]]]]; reflexivity. }
  rewrite Hidem in Hconfig. rewrite (Hconfig Hlower). cbn [available].
  rewrite Hkey. cbn [negb].
  now rewrite (unlisted_name_has_no_catalogue p Hlower Hraw).
Qed.

Lemma provider_name_in_other_case_has_no_models_witness :
  get_provider Sample.runtime Sample.environment Sample.context "OpenAI"
  = ([], Replied (json (JObj [ ("provider", JStr "OpenAI"); ("models", JArr []);
                               ("available", JBool true);
                               ("timestamp", JStr (now Sample.context)) ])
                    fresh)).
Proof.
  apply provider_name_in_other_case_has_no_models.
  - cbn. tauto.
  - cbn. intros H. repeat (destruct H as [H|H]; [discriminate H|]). exact H.
  - reflexivity.
Defined.

(** ** The stream listener *)

Lemma append_assoc (a b c : string) : (a +:+ b) +:+ c = a +:+ (b +:+ c).
Proof.
  induction a as [|x a IH]; [reflexivity|].
  change (String x ((a +:+ b) +:+ c) = String x (a +:+ (b +:+ c))). now rewrite IH.
Qed.

Lemma frame_lines_stop rt payloads more :
  Forall (fun payload => payload <> "[DONE]") payloads ->
  frame_lines rt (map (String.append "data: ") payloads ++ "data: [DONE]" :: more)
  = concat (map (frame_chunks rt) payloads).
Proof.
  induction 1 as [|payload payloads Hpayload _ IH]; [reflexivity|].
  cbn [map app frame_lines concat].
  rewrite startsWith_data, slice_data.
  destruct (String.eqb payload "[DONE]") eqn:E.
  - apply String.eqb_eq in E. contradiction.
  - now rewrite IH.
Qed.

Lemma data_lines_of_frames payloads tail :
  Forall (fun payload => one_line payload = true) payloads ->
  List.filter (fun line => negb (String.eqb (trim line) EmptyString))
    (split_lines (stream_text payloads +:+ tail))
  = (map (String.append "data: ") payloads
     ++ List.filter (fun line => negb (String.eqb (trim line) EmptyString))
          (split_lines tail))%list.
Proof.
  induction 1 as [|payload payloads Hline _ IH]; [reflexivity|].
  cbn [stream_text fold_right map app]. fold (stream_text payloads).
  rewrite !append_assoc.
  rewrite (split_frame payload (stream_text payloads +:+ tail) Hline).
  cbn [List.filter]. rewrite data_line_is_not_blank.
  change (negb (String.eqb (trim EmptyString) EmptyString)) with false.
  cbv iota. now rewrite IH.
Qed.

(** X16.  The ['data'] listener of the streaming adapters, on a
    buffer of whole frames followed by the end marker: it calls [onChunk]
    for the frames before the marker, in order (once for a frame with text,
    not at all for a malformed or empty one), and ignores whatever follows
    the marker in that buffer. *)
Theorem listener_stops_at_the_end_marker rt payloads rest :
  Forall (fun payload => payload <> "[DONE]" /\ one_line payload = true) payloads ->
  on_data rt (stream_text payloads +:+ "data: [DONE]" +:+ LF +:+ rest)
  = concat (map (frame_chunks rt) payloads).
Proof.
  intros Hpayloads. unfold on_data.
  rewrite data_lines_of_frames by (induction Hpayloads; constructor; tauto).
  assert (Hsplit : split_lines ("data: [DONE]" +:+ LF +:+ rest)
                   = "data: [DONE]" :: split_lines rest).
  { unfold split_lines.
    change (chars ("data: [DONE]" +:+ LF +:+ rest))
      with (chars "data: [DONE]" ++ newline :: chars rest)%list.
    rewrite split_line by reflexivity. reflexivity. }
  rewrite Hsplit. cbn [List.filter].
  change (negb (String.eqb (trim "data: [DONE]") EmptyString)) with true. cbv iota.
  apply frame_lines_stop. induction Hpayloads; constructor; tauto.
Qed.

Lemma listener_stops_at_the_end_marker_witness :
  on_data Sample.runtime
    (stream_text [ Sample.frame_text ] +:+ "data: [DONE]" +:+ LF
     +:+ stream_text [ Sample.frame_text ])
  = [ content_chunk (Some (JStr "Hi")) ].
Proof.
  apply (listener_stops_at_the_end_marker Sample.runtime [ Sample.frame_text ]).
  repeat constructor. discriminate.
Defined.

Lemma streamed_chunks_arrive_after_the_end_witness :
  let result := post_stream_route Sample.runtime Sample.environment Sample.answering
                  Sample.context (Sample.request "gpt-4" "openai" []) in
  emitted (fst result) = [ content_chunk (Some (JStr "Hi")) ]
  /\ snd result = Replied {| statusCode := 200; headers := sse_headers; body := None;
                             written := [ sse "[DONE]" ];
                             ended := true;
                             late := [ hi_event ] |}.
Proof.
  eapply (streamed_chunks_arrive_after_the_end Sample.runtime Sample.environment
            Sample.answering Sample.context (Sample.request "gpt-4" "openai" [])
            _ _ _ [[Sample.frame_text]]).
  - vm_compute. reflexivity.
  - vm_compute. reflexivity.
  - left. reflexivity.
  - vm_compute. reflexivity.
  - repeat constructor. discriminate.
  - intros r. reflexivity.
Defined.

(** ** Successful completions *)

Lemma chat_completion_succeeds rt up ctx svc op prompt model parameters answer choice rest
    message :
  (forall r, post up r = inr (Some (JObj answer))) ->
  obj_get "choices" answer = Some (JArr (JObj choice :: rest)) ->
  obj_get "message" choice = Some (JObj message) ->
  chat_completion rt up ctx svc op prompt model parameters
  = ([ Post (chat_completions_request svc prompt model (mergeParameters svc parameters)
               false) ],
     inr {| content := obj_get "content" message;
            usage := Some (obj_get "usage" answer);
            metadata := [ ("model", obj_get "model" answer);
                          ("finish_reason", obj_get "finish_reason" choice) ] |}).
Proof.
  intros Hpost Hchoices Hmessage.
  unfold chat_completion, axios_post. rewrite Hpost.
  cbv beta iota zeta delta [bind tell ret prop try_catch].
  rewrite Hchoices. cbv beta iota zeta delta [first ret head]. rewrite Hmessage.
  reflexivity.
Qed.

(** X17.  A chat request served by the OpenAI or the Groq
    adapter, when the upstream answers with an object whose first choice has
    a message: the one call made is the chat-completions request with the
    merged parameters and [stream: false], and the answer is 200 with the
    request's provider and model, the message's content, the upstream's
    usage, and metadata holding the upstream's model and the choice's
    finish_reason. *)
Theorem openai_answer_is_normalised
    rt env up ctx req_body value request config answer choice rest message :
  validateRequest rt ctx req_body = Next value ->
  validateModelCompatibility rt ctx value = Next request ->
  provider request = "openai" \/ provider request = "groq" ->
  usable (getProviderConfig env (provider request)) = Some config ->
  (forall r, post up r = inr (Some (JObj answer))) ->
  obj_get "choices" answer = Some (JArr (JObj choice :: rest)) ->
  obj_get "message" choice = Some (JObj message) ->
  let svc := service_of env (provider request) config in
  post_chat rt env up ctx req_body
  = ([ New (provider request);
       Post (chat_completions_request svc (prompt request) (model request)
               (mergeParameters svc (parameters request)) false) ],
     Replied
       (json (JObj (obj_literal
                      [ ("success", Some (JBool true));
                        ("provider", Some (JStr (provider request)));
                        ("model", Some (JStr (model request)));
                        ("response",
                           Some (JObj (obj_literal
                                         [ ("content", obj_get "content" message);
                                           ("usage", obj_get "usage" answer);
                                           ("metadata",
                                              Some (JObj (obj_literal
                                                            [ ("model", obj_get "model" answer);
                                                              ("finish_reason",
                                                                 obj_get "finish_reason"
                                                                   choice) ]))) ])));
                        ("duration", Some (JNum (Num (inject_Z (Z.of_nat (duration ctx))))));
                        ("timestamp", Some (JStr (now ctx))) ]))
          fresh)).
Proof.
  intros Hvalid Hcompatible Hprovider Husable Hpost Hchoices Hmessage svc. subst svc.
  pose proof (usable_has_key env _ config Husable) as Hkey.
  unfold post_chat, post_route. rewrite Hvalid, Hcompatible.
  unfold asyncHandler, chat_handler. rewrite Husable.
  rewrite (createModelService_listed env ctx _ config)
    by (try exact Hkey; unfold providers; cbn [In]; destruct Hprovider as [-> | ->]; tauto).
  cbv beta iota zeta delta [bind]. unfold generateCompletion.
  destruct Hprovider as [Hp | Hp]; rewrite Hp;
    [change (adapter (service_of env "openai" config)) with OpenAIService
    |change (adapter (service_of env "groq" config)) with GroqService];
    cbv beta iota;
    unfold OpenAIService_generateCompletion, GroqService_generateCompletion;
    rewrite (chat_completion_succeeds rt up ctx _ _ _ _ _ answer choice rest message
               Hpost Hchoices Hmessage);
    reflexivity.
Qed.

Lemma openai_answer_is_normalised_witness :
  exists t res,
    post_chat Sample.runtime Sample.environment Cases.openai_only Sample.context
      (Sample.request "gpt-4" "openai" [])
    = (t, Replied res)
    /\ opt_prop (opt_prop (body res) "response") "content" = Some (JStr "hi").
Proof.
  eexists. eexists. split.
  - exact (openai_answer_is_normalised Sample.runtime Sample.environment Cases.openai_only
             Sample.context (Sample.request "gpt-4" "openai" []) _ _ _
             _ _ _ _ eq_refl eq_refl (or_introl eq_refl) eq_refl (fun _ => eq_refl)
             eq_refl eq_refl).
  - reflexivity.
Defined.

Lemma google_completion_succeeds rt up ctx svc prompt model parameters answer candidate rest
    inner part parts :
  (forall r, post up r = inr (Some (JObj answer))) ->
  obj_get "candidates" answer = Some (JArr (JObj candidate :: rest)) ->
  obj_get "content" candidate = Some (JObj inner) ->
  obj_get "parts" inner = Some (JArr (JObj part :: parts)) ->
  exists r,
    GoogleAIService_generateCompletion rt up ctx svc prompt model parameters
    = ([ Post r ],
       inr {| content := obj_get "text" part;
              usage := None;
              metadata := [ ("model", Some (JStr model));
                            ("finish_reason", obj_get "finishReason" candidate) ] |})
    /\ url r = tpl (baseURL svc) +:+ "/v1beta/models/" +:+ model +:+ ":generateContent"
    /\ query r = [ ("key", tpl (apiKey (config svc))) ]
    /\ request_headers r = [ ("Content-Type", "application/json") ].
Proof.
  intros Hpost Hcandidates Hcontent Hparts. eexists. split.
  - unfold GoogleAIService_generateCompletion, axios_post. rewrite Hpost.
    cbv beta iota zeta delta [bind tell ret prop try_catch].
    rewrite Hcandidates. cbv beta iota zeta delta [opt_first head truthy negb ret].
    rewrite Hcontent. cbv beta iota. rewrite Hparts.
    cbv beta iota zeta delta [first ret head]. reflexivity.
  - repeat split; reflexivity.
Qed.

(** X18.  A chat request served by the Google adapter, when the
    upstream answers with a first candidate that has content parts: the call
    goes to [<base>/v1beta/models/<model>:generateContent] with the API key
    as the [key] query parameter, and the answer is 200 with the first
    part's text, no usage, and metadata holding the request's model and the
    candidate's finishReason. *)
Theorem google_answer_is_normalised
    rt env up ctx req_body value request config answer candidate rest inner part parts :
  validateRequest rt ctx req_body = Next value ->
  validateModelCompatibility rt ctx value = Next request ->
  provider request = "google" ->
  usable (getProviderConfig env "google") = Some config ->
  (forall r, post up r = inr (Some (JObj answer))) ->
  obj_get "candidates" answer = Some (JArr (JObj candidate :: rest)) ->
  obj_get "content" candidate = Some (JObj inner) ->
  obj_get "parts" inner = Some (JArr (JObj part :: parts)) ->
  exists r,
    post_chat rt env up ctx req_body
    = ([ New "google"; Post r ],
       Replied
         (json (JObj (obj_literal
                        [ ("success", Some (JBool true));
                          ("provider", Some (JStr "google"));
                          ("model", Some (JStr (model request)));
                          ("response",
                             Some (JObj (obj_literal
                                           [ ("content", obj_get "text" part);
                                             ("usage", None);
                                             ("metadata",
                                                Some (JObj (obj_literal
                                                              [ ("model",
                                                                   Some (JStr (model request)));
                                                                ("finish_reason",
                                                                   obj_get "finishReason"
                                                                     candidate) ]))) ])));
                          ("duration",
                             Some (JNum (Num (inject_Z (Z.of_nat (duration ctx))))));
                          ("timestamp", Some (JStr (now ctx))) ]))
            fresh))
    /\ url r = tpl (baseURL (service_of env "google" config)) +:+ "/v1beta/models/"
               +:+ model request +:+ ":generateContent"
    /\ query r = [ ("key", tpl (apiKey config)) ].
Proof.
  intros Hvalid Hcompatible Hgoogle Husable Hpost Hcandidates Hcontent Hparts.
  pose proof (usable_has_key env _ config Husable) as Hkey.
  destruct (google_completion_succeeds rt up ctx (service_of env "google" config)
              (prompt request) (model request) (parameters request)
              answer candidate rest inner part parts Hpost Hcandidates Hcontent Hparts)
    as (r & Hcall & Hurl & Hquery & _).
  exists r. split; [|split; assumption].
  unfold post_chat, post_route. rewrite Hvalid, Hcompatible.
  unfold asyncHandler, chat_handler. rewrite Hgoogle, Husable.
  rewrite (createModelService_listed env ctx "google" config)
    by (try exact Hkey; unfold providers; cbn [In]; tauto).
  cbv beta iota zeta delta [bind]. unfold generateCompletion.
  change (adapter (service_of env "google" config)) with GoogleAIService.
  cbv beta iota. rewrite Hcall. reflexivity.
Qed.

Lemma google_answer_is_normalised_witness :
  exists r res,
    post_chat Sample.runtime Sample.all_configured Cases.google_only Sample.context
      (Sample.request "gemini-2.5-pro" "google" [])
    = ([ New "google"; Post r ], Replied res)
    /\ opt_prop (opt_prop (body res) "response") "usage" = None
    /\ query r = [ ("key", "g-test") ].
Proof.
  destruct (google_answer_is_normalised Sample.runtime Sample.all_configured
              Cases.google_only Sample.context
              (Sample.request "gemini-2.5-pro" "google" []) _ _ _
              _ _ _ _ _ _ eq_refl eq_refl eq_refl eq_refl (fun _ => eq_refl)
              eq_refl eq_refl eq_refl)
    as (r & Hreply & _ & Hquery).
  exists r. eexists. split; [exact Hreply|]. split; [reflexivity | exact Hquery].
Defined.

(** ** The browser client: the stream reader *)

Section ClientStream.
Variable rt : Runtime.
Variable browser : Client.Browser.

Lemma client_lines_then_more payloads chunks more :
  Forall2 (chunk_frame rt) payloads chunks ->
  Client.stream_lines rt (map (String.append "data: ") payloads ++ more)
  = (map Client.OnChunk chunks ++ fst (Client.stream_lines rt more),
     snd (Client.stream_lines rt more))%list.
Proof.
  induction 1 as [|payload c payloads chunks (Hdone & _ & Hparse & Hnull & Herror) _ IH].
  - cbn [map app]. now destruct (Client.stream_lines rt more).
  - cbn [map app Client.stream_lines].
    rewrite startsWith_data, slice_data.
    destruct (String.eqb payload "[DONE]") eqn:E;
      [apply String.eqb_eq in E; contradiction|].
    rewrite Hparse, Herror, IH.
    destruct c; try reflexivity. contradiction.
Qed.

Lemma append_nil_r (s : string) : s +:+ EmptyString = s.
Proof.
  induction s as [|c s IH]; [reflexivity|].
  change (String c (s +:+ EmptyString) = String c s). now rewrite IH.
Qed.

Lemma frames_one_line payloads chunks :
  Forall2 (chunk_frame rt) payloads chunks ->
  Forall (fun payload => one_line payload = true) payloads.
Proof. induction 1 as [|? ? ? ? (_ & H & _) _ IH]; constructor; assumption. Qed.

(** The lines of a read that holds whole frames and then [tail]. *)
Lemma client_read payloads chunks tail :
  Forall2 (chunk_frame rt) payloads chunks ->
  Client.stream_lines rt
    (List.filter (fun line => negb (String.eqb (trim line) EmptyString))
       (split_lines (stream_text payloads +:+ tail)))
  = let rest := Client.stream_lines rt
                  (List.filter (fun line => negb (String.eqb (trim line) EmptyString))
                     (split_lines tail)) in
    ((map Client.OnChunk chunks ++ fst rest)%list, snd rest).
Proof.
  intros Hframes.
  rewrite (data_lines_of_frames payloads tail (frames_one_line _ _ Hframes)).
  apply client_lines_then_more. exact Hframes.
Qed.

Lemma pump_frames groups chunk_groups rest failure :
  Forall2 (Forall2 (chunk_frame rt)) groups chunk_groups ->
  Forall (fun group => Client.TextDecoder_decode browser (stream_text group)
                       = stream_text group) groups ->
  Client.pump rt browser (map stream_text groups ++ rest) failure
  = (map Client.OnChunk (concat chunk_groups) ++ Client.pump rt browser rest failure)%list.
Proof.
  induction 1 as [|group chunks groups chunk_groups Hgroup _ IH]; intros Hdecode;
    [reflexivity|].
  apply Forall_cons_1 in Hdecode as [Hhead Hdecode].
  cbn [map app Client.pump concat]. rewrite Hhead.
  rewrite <- (append_nil_r (stream_text group)).
  rewrite (client_read group chunks EmptyString Hgroup).
  cbn [split_lines List.filter Client.stream_lines fst snd].
  change (Client.stream_lines rt
            (List.filter (fun line => negb (String.eqb (trim line) EmptyString))
               (split_lines EmptyString))) with (@nil Client.Callback, false).
  cbn [fst snd]. rewrite app_nil_r, (IH Hdecode), map_app, app_assoc. reflexivity.
Qed.

End ClientStream.

Lemma pump_until_done
    rt browser groups chunk_groups last last_chunks junk later failure :
  Forall2 (Forall2 (chunk_frame rt)) groups chunk_groups ->
  Forall2 (chunk_frame rt) last last_chunks ->
  let final := stream_text last +:+ "data: [DONE]" +:+ LF +:+ junk in
  Forall (fun group => Client.TextDecoder_decode browser (stream_text group)
                       = stream_text group) groups ->
  Client.TextDecoder_decode browser final = final ->
  Client.pump rt browser (map stream_text groups ++ final :: later) failure
  = (map Client.OnChunk (concat chunk_groups ++ last_chunks) ++ [ Client.OnComplete ])%list.
Proof.
  intros Hgroups Hlast final Hdecode Hfinal.
  rewrite (pump_frames rt browser groups chunk_groups _ failure Hgroups Hdecode).
  cbn [Client.pump]. rewrite Hfinal. subst final.
  rewrite (client_read rt last last_chunks _ Hlast). cbv zeta.
  assert (Hsplit : split_lines ("data: [DONE]" +:+ LF +:+ junk)
                   = "data: [DONE]" :: split_lines junk).
  { unfold split_lines.
    change (chars ("data: [DONE]" +:+ LF +:+ junk))
      with (chars "data: [DONE]" ++ newline :: chars junk)%list.
    rewrite split_line by reflexivity. reflexivity. }
  rewrite Hsplit. cbn [List.filter].
  change (negb (String.eqb (trim "data: [DONE]") EmptyString)) with true. cbv iota.
  cbn [Client.stream_lines]. 
  change (startsWith "data: " "data: [DONE]") with true. cbv iota.
  change (String.eqb (slice 6 "data: [DONE]") "[DONE]") with true. cbv iota.
  cbn [fst snd]. now rewrite map_app, app_assoc.
Qed.

(** X19.  [streamChatCompletion] on a body whose reads hold whole
    chunk frames and, in one of them, the line [data: [DONE]]: [onChunk] is
    called for every frame before the marker, in order, then [onComplete]
    once, and nothing else.  The rest of that read, the later reads and a
    failure of the body after them are never looked at. *)
Theorem client_completes_once_at_the_end_marker
    rt browser groups chunk_groups last last_chunks junk later failure :
  Forall2 (Forall2 (chunk_frame rt)) groups chunk_groups ->
  Forall2 (chunk_frame rt) last last_chunks ->
  let final := stream_text last +:+ "data: [DONE]" +:+ LF +:+ junk in
  Forall (fun piece => Client.TextDecoder_decode browser piece = piece)
    (map stream_text groups ++ [ final ]) ->
  Client.pump rt browser (map stream_text groups ++ final :: later) failure
  = (map Client.OnChunk (concat chunk_groups ++ last_chunks) ++ [ Client.OnComplete ])%list.
Proof.
  intros Hgroups Hlast final Hdecode.
  apply Forall_app in Hdecode as [Hpieces Hfinal].
  apply Forall_cons_1 in Hfinal as [Hfinal _].
  apply pump_until_done; try assumption.
  now rewrite Forall_map in Hpieces.
Qed.

Lemma client_completes_once_at_the_end_marker_witness :
  let rt := Page.runtime [ hi_chunk ] in
  let text := JSON_stringify rt hi_chunk in
  Client.pump rt (Page.browser (Page.carrying rt fresh))
    [ stream_text [ text ] +:+ "data: [DONE]" +:+ LF +:+ stream_text [ text ];
      stream_text [ text ] ]
    (Some Sample.timeout_error)
  = [ Client.OnChunk hi_chunk; Client.OnComplete ].
Proof.
  cbv zeta.
  apply (client_completes_once_at_the_end_marker (Page.runtime [ hi_chunk ])
           (Page.browser (Page.carrying (Page.runtime [ hi_chunk ]) fresh))
           [] [] [ JSON_stringify (Page.runtime [ hi_chunk ]) hi_chunk ] [ hi_chunk ]).
  - constructor.
  - repeat constructor. discriminate. discriminate.
  - repeat constructor.
Defined.

(** ** The browser client against the streaming route *)

Lemma pump_until_error
    rt browser groups chunk_groups last last_chunks payload parsed junk later failure :
  Forall2 (Forall2 (chunk_frame rt)) groups chunk_groups ->
  Forall2 (chunk_frame rt) last last_chunks ->
  payload <> "[DONE]" ->
  one_line payload = true ->
  JSON_parse rt payload = Some parsed ->
  truthy (opt_prop (Some parsed) "error") = true ->
  let final := stream_text last +:+ "data: " +:+ payload +:+ LF +:+ junk in
  Forall (fun group => Client.TextDecoder_decode browser (stream_text group)
                       = stream_text group) groups ->
  Client.TextDecoder_decode browser final = final ->
  Client.pump rt browser (map stream_text groups ++ final :: later) failure
  = (map Client.OnChunk (concat chunk_groups ++ last_chunks)
     ++ [ Client.OnError
            (Client.Error (ToString rt (default JNull (opt_prop (Some parsed) "error")))) ])%list.
Proof.
  intros Hgroups Hlast Hdone Hline Hparse Herror final Hdecode Hfinal.
  rewrite (pump_frames rt browser groups chunk_groups _ failure Hgroups Hdecode).
  cbn [Client.pump]. rewrite Hfinal. subst final.
  rewrite (client_read rt last last_chunks _ Hlast). cbv zeta.
  assert (Hsplit : split_lines ("data: " +:+ payload +:+ LF +:+ junk)
                   = ("data: " +:+ payload) :: split_lines junk).
  { unfold split_lines.
    replace (chars ("data: " +:+ payload +:+ LF +:+ junk))
      with (chars ("data: " +:+ payload) ++ newline :: chars junk)%list.
    - rewrite split_line.
      + cbn [rev app]. now rewrite unchars_chars.
      + rewrite chars_app, forallb_app. unfold one_line in Hline. now rewrite Hline.
    - rewrite !chars_app. cbn [app]. now rewrite <- app_assoc. }
  rewrite Hsplit. cbn [List.filter]. rewrite data_line_is_not_blank.
  cbn [Client.stream_lines]. rewrite startsWith_data, slice_data.
  destruct (String.eqb payload "[DONE]") eqn:E; [apply String.eqb_eq in E; contradiction|].
  rewrite Hparse, Herror.
  assert (Hparsed : parsed <> JNull) by (intros ->; discriminate Herror).
  destruct parsed; try contradiction; cbn [fst snd]; now rewrite map_app, app_assoc.
Qed.

Lemma one_line_app a b : one_line (a +:+ b) = one_line a && one_line b.
Proof. unfold one_line. now rewrite chars_app, forallb_app. Qed.

Lemma quote_char_one_line c : one_line (quote_char c) = true.
Proof. destruct c as [[] [] [] [] [] [] [] []]; reflexivity. Qed.

Lemma quote_one_line s : one_line (quote s) = true.
Proof.
  unfold quote. rewrite !one_line_app.
  assert (H : one_line (fold_right (fun c acc => quote_char c +:+ acc) EmptyString (chars s))
              = true).
  { induction (chars s) as [|c l IH]; [reflexivity|].
    cbn [fold_right]. now rewrite one_line_app, quote_char_one_line, IH. }
  now rewrite H.
Qed.

Lemma error_event_is_one_line rt text :
  one_line (JSON_stringify rt (JObj [ ("error", JStr text) ])) = true.
Proof.
  cbn [JSON_stringify map join fst snd].
  now rewrite !one_line_app, !quote_one_line.
Qed.

(** X21.  When the streaming route has answered a failed
    adapter call (status 200 and the error event alone) and the error's
    message is not empty, the client calls [onError] once with an [Error]
    that carries the message, and neither [onChunk] nor [onComplete]. *)
Theorem client_reports_the_in_band_error
    rt browser baseUrl prompt model provider parameters error statusText :
  e_message error <> EmptyString ->
  let event := JObj [ ("error", JStr (e_message error)) ] in
  JSON_parse rt (JSON_stringify rt event) = Some event ->
  Client.TextDecoder_decode browser (sse (JSON_stringify rt event))
  = sse (JSON_stringify rt event) ->
  Client.fetch browser (baseUrl +:+ "/api/models/stream")
    (Some (Client.request_text rt prompt model provider parameters))
  = inr {| Client.http_status := statusCode (failed_stream rt error);
           Client.http_statusText := statusText;
           Client.reads := written (failed_stream rt error);
           Client.broken := None |} ->
  Client.streamChatCompletion rt browser baseUrl prompt model provider parameters
  = [ Client.OnError (Client.Error (e_message error)) ].
Proof.
  intros Htext event Hparse Hdecode Hfetch.
  unfold Client.streamChatCompletion. rewrite Hfetch.
  cbn [failed_stream statusCode written Client.http_ok Client.http_status Client.reads
       Client.broken Nat.leb andb negb].
  change (Client.http_ok _) with true. cbv iota. cbn [negb].
  pose proof (pump_until_error rt browser [] [] [] []
                (JSON_stringify rt event) event LF [] None
                (List.Forall2_nil _) (List.Forall2_nil _)) as H.
  cbn [map app concat stream_text fold_right] in H.
  apply H.
  - cbn [JSON_stringify]. discriminate.
  - apply error_event_is_one_line.
  - exact Hparse.
  - cbn. now apply negb_true_iff, String.eqb_neq.
  - constructor.
  - exact Hdecode.
Qed.

Lemma client_reports_the_in_band_error_witness :
  let failure := JObj [ ("error", JStr "OpenAI streaming completion failed") ] in
  let rt := Page.runtime [ failure ] in
  let answer := Page.reply_of
                  (post_stream_route rt Sample.environment Sample.rate_limited
                     Sample.context (Sample.request "gpt-4" "openai" [])) in
  Client.streamChatCompletion rt (Page.browser (Page.carrying rt answer))
    "http://localhost:3001" (Some (JStr "Say hi")) (Some (JStr "gpt-4"))
    (Some (JStr "openai")) None
  = [ Client.OnError (Client.Error "OpenAI streaming completion failed") ].
Proof.
  cbv zeta.
  apply (client_reports_the_in_band_error
           (Page.runtime [ JObj [ ("error", JStr "OpenAI streaming completion failed") ] ])
           _ _ _ _ _ _
           (APIError (now Sample.context) "OpenAI streaming completion failed"
              (StatusNum 429) (Some "openai"))
           EmptyString).
  - discriminate.
  - reflexivity.
  - reflexivity.
  - reflexivity.
Defined.

(** X20.  When the streaming route has written chunk events and
    then the terminator, one event per read, the client calls [onChunk]
    with the chunks, in the order written, and then [onComplete] once. *)
Theorem client_receives_the_chunks_the_route_wrote
    rt browser baseUrl prompt model provider parameters chunks res statusText :
  statusCode res = 200%nat ->
  written res = (map (fun c => sse (JSON_stringify rt c)) chunks ++ [ sse "[DONE]" ])%list ->
  Forall (fun c => chunk_frame rt (JSON_stringify rt c) c) chunks ->
  Forall (fun piece => Client.TextDecoder_decode browser piece = piece) (written res) ->
  Client.fetch browser (baseUrl +:+ "/api/models/stream")
    (Some (Client.request_text rt prompt model provider parameters))
  = inr {| Client.http_status := statusCode res; Client.http_statusText := statusText;
           Client.reads := written res; Client.broken := None |} ->
  Client.streamChatCompletion rt browser baseUrl prompt model provider parameters
  = (map Client.OnChunk chunks ++ [ Client.OnComplete ])%list.
Proof.
  intros Hstatus Hwritten Hchunks Hdecode Hfetch.
  unfold Client.streamChatCompletion. rewrite Hfetch.
  unfold Client.http_ok. cbn [Client.http_status Client.reads Client.broken].
  rewrite Hstatus. cbn [Nat.leb andb negb].
  rewrite Hwritten in *.
  apply Forall_app in Hdecode as [Hpieces Hlast].
  apply Forall_cons_1 in Hlast as [Hlast _].
  pose proof (pump_until_done rt browser
                (map (fun c => [ JSON_stringify rt c ]) chunks)
                (map (fun c => [ c ]) chunks) [] [] LF [] None) as H.
  cbv zeta in H. cbn [stream_text fold_right] in H.
  rewrite map_map in H.
  assert (Hflat : concat (map (fun c : Json => [ c ]) chunks) = chunks).
  { clear. induction chunks as [|c chunks IH]; [reflexivity|]. cbn. now rewrite IH. }
  rewrite Hflat, app_nil_r in H.
  apply H.
  - clear -Hchunks. induction Hchunks as [|c chunks Hc _ IH]; cbn [map]; [constructor|].
    constructor; [|exact IH]. constructor; [exact Hc | constructor].
  - constructor.
  - clear -Hpieces. rewrite Forall_map in *. exact Hpieces.
  - exact Hlast.
Qed.

Lemma client_receives_the_chunks_the_route_wrote_witness :
  let rt := Page.runtime [ hi_chunk; done_chunk ] in
  let answer := Page.reply_of
                  (post_stream_route rt Sample.all_configured Sample.answering
                     Sample.context (Sample.request "gemini-2.5-pro" "google" [])) in
  Client.streamChatCompletion rt (Page.browser (Page.carrying rt answer))
    "http://localhost:3001" (Some (JStr "Say hi")) (Some (JStr "gemini-2.5-pro"))
    (Some (JStr "google")) None
  = [ Client.OnChunk hi_chunk; Client.OnChunk done_chunk; Client.OnComplete ].
Proof.
  cbv zeta.
  apply (client_receives_the_chunks_the_route_wrote _ _ _ _ _ _ _ [ hi_chunk; done_chunk ]
           (Page.reply_of
              (post_stream_route (Page.runtime [ hi_chunk; done_chunk ])
                 Sample.all_configured Sample.answering
                 Sample.context (Sample.request "gemini-2.5-pro" "google" [])))
           EmptyString).
  - reflexivity.
  - reflexivity.
  - repeat constructor; discriminate.
  - repeat constructor.
  - reflexivity.
Defined.

(** ** The browser client against the chat route *)

Lemma chat_success_reply rt env up ctx req_body value request config t result :
  validateRequest rt ctx req_body = Next value ->
  validateModelCompatibility rt ctx value = Next request ->
  usable (getProviderConfig env (provider request)) = Some config ->
  generateCompletion rt up ctx (service_of env (provider request) config)
    (prompt request) (model request) (parameters request) = (t, inr result) ->
  post_chat rt env up ctx req_body
  = (New (provider request) :: t,
     Replied (json (JObj [ ("success", JBool true);
                           ("provider", JStr (provider request));
                           ("model", JStr (model request));
                           ("response", unwrapped result);
                           ("duration", JNum (Num (inject_Z (Z.of_nat (duration ctx)))));
                           ("timestamp", JStr (now ctx)) ])
                fresh)).
Proof.
  intros Hvalid Hcompatible Husable Hcall.
  destruct (accepted_request rt ctx req_body value request Hvalid Hcompatible)
    as (fields & ps & _ & _ & _ & _ & Hlisted & _).
  pose proof (usable_has_key env _ config Husable) as Hkey.
  unfold post_chat, post_route. rewrite Hvalid, Hcompatible.
  unfold asyncHandler, chat_handler. rewrite Husable.
  rewrite (createModelService_listed env ctx _ config Hlisted Hkey).
  cbv beta iota zeta delta [bind]. rewrite Hcall.
  cbv beta iota zeta delta [ret try_catch]. cbn [app]. now rewrite app_nil_r.
Qed.

(** X22.  [chatCompletion] against the chat route, for a request
    the route serves: the client returns the adapter's result alone
    ([content], [usage], [metadata]) when the content is truthy, and the
    route's whole answer, envelope included, when the content is empty or
    otherwise falsy. *)
Theorem client_returns_the_adapters_result
    rt env up ctx browser baseUrl req_body value request config t result r
    sent_prompt sent_model sent_provider sent_parameters :
  validateRequest rt ctx req_body = Next value ->
  validateModelCompatibility rt ctx value = Next request ->
  usable (getProviderConfig env (provider request)) = Some config ->
  generateCompletion rt up ctx (service_of env (provider request) config)
    (prompt request) (model request) (parameters request)
  = (t, inr result) ->
  (forall res, snd (post_chat rt env up ctx req_body) = Replied res ->
               arrives rt browser res r) ->
  Client.fetch browser (baseUrl +:+ "/api/models/chat")
    (Some (Client.request_text rt sent_prompt sent_model sent_provider sent_parameters))
  = inr r ->
  Client.chatCompletion rt browser baseUrl sent_prompt sent_model sent_provider
    sent_parameters
  = inr (if truthy (content result) then unwrapped result
         else JObj [ ("success", JBool true);
                     ("provider", JStr (provider request));
                     ("model", JStr (model request));
                     ("response", unwrapped result);
                     ("duration", JNum (Num (inject_Z (Z.of_nat (duration ctx)))));
                     ("timestamp", JStr (now ctx)) ]).
Proof.
  intros Hvalid Hcompatible Husable Hcall Harrives Hfetch.
  rewrite (chat_success_reply rt env up ctx req_body value request config t result
             Hvalid Hcompatible Husable Hcall) in Harrives.
  destruct (Harrives _ eq_refl) as (Hstatus & sent & Hsent & Hjson).
  cbn [body json statusCode fresh] in Hsent, Hstatus. injection Hsent as <-.
  unfold Client.chatCompletion. rewrite Hfetch, Hjson.
  unfold Client.http_ok. rewrite Hstatus. cbn [Nat.leb andb negb].
  cbn [prop outcome ret snd obj_get String.eqb Ascii.eqb Bool.eqb].
  unfold unwrapped. destruct result as [c u md]. cbn [content usage metadata].
  destruct (mjoin u) as [used|]; destruct c as [c|];
    cbn [obj_literal omap list_omap snd fst opt_prop obj_get
         String.eqb Ascii.eqb Bool.eqb truthy andb Client.relabel];
    try reflexivity;
    destruct (match c with JNull => _ | _ => _ end); reflexivity.
Qed.

Lemma client_returns_the_adapters_result_witness :
  let rt := Page.runtime [ hi_answer ] in
  let answer := Page.reply_of
                  (post_chat rt Sample.environment Cases.openai_only Sample.context
                     (Sample.request "gpt-4" "openai" [])) in
  Client.chatCompletion rt (Page.browser (Page.carrying rt answer))
    "http://localhost:3001" (Some (JStr "Say hi")) (Some (JStr "gpt-4"))
    (Some (JStr "openai")) None
  = inr (JObj [ ("content", JStr "hi");
                ("usage", JObj [ ("prompt_tokens", JNum (Num (2 # 1)));
                                 ("completion_tokens", JNum (Num (1 # 1)));
                                 ("total_tokens", JNum (Num (3 # 1))) ]);
                ("metadata", JObj [ ("model", JStr "gpt-4");
                                    ("finish_reason", JStr "stop") ]) ]).
Proof.
  cbv zeta.
  etransitivity.
  { eapply (client_returns_the_adapters_result (Page.runtime [ hi_answer ])
              Sample.environment Cases.openai_only Sample.context _ _
              (Sample.request "gpt-4" "openai" []))
      with (r := Page.carrying (Page.runtime [ hi_answer ])
                   (Page.reply_of
                      (post_chat (Page.runtime [ hi_answer ]) Sample.environment
                         Cases.openai_only Sample.context
                         (Sample.request "gpt-4" "openai" [])))).
    - reflexivity.
    - reflexivity.
    - reflexivity.
    - reflexivity.
    - intros res [= <-]. split; [reflexivity|]. eexists. split; reflexivity.
    - reflexivity. }
  reflexivity.
Defined.

(** X23.  When a route answers outside 200..299 with a JSON
    object whose [message] is a non-empty string, [chatCompletion] rejects
    with an [Error] whose message is "Chat completion failed: " followed by
    that message, and [streamChatCompletion] calls [onError] once with an
    [Error] whose message is the route's, without the prefix. *)
Theorem client_failure_carries_the_routes_message
    rt browser baseUrl res r data text sent_prompt sent_model sent_provider sent_parameters :
  arrives rt browser res r ->
  (statusCode res < 200 \/ 299 < statusCode res)%nat ->
  body res = Some (JObj data) ->
  obj_get "message" data = Some (JStr text) ->
  text <> EmptyString ->
  (Client.fetch browser (baseUrl +:+ "/api/models/chat")
     (Some (Client.request_text rt sent_prompt sent_model sent_provider sent_parameters))
   = inr r ->
   Client.chatCompletion rt browser baseUrl sent_prompt sent_model sent_provider
     sent_parameters
   = inl (Client.Error ("Chat completion failed: " +:+ text)))
  /\ (Client.fetch browser (baseUrl +:+ "/api/models/stream")
        (Some (Client.request_text rt sent_prompt sent_model sent_provider sent_parameters))
      = inr r ->
      Client.streamChatCompletion rt browser baseUrl sent_prompt sent_model sent_provider
        sent_parameters
      = [ Client.OnError (Client.Error text) ]).
Proof.
  intros (Hstatus & sent & Hsent & Hjson) Hrange Hbody Hmessage Htext.
  rewrite Hbody in Hsent. injection Hsent as <-.
  assert (Hok : Client.http_ok r = false).
  { unfold Client.http_ok. rewrite Hstatus.
    destruct Hrange as [Hlow | Hhigh].
    - apply andb_false_iff. left. apply Nat.leb_gt. exact Hlow.
    - apply andb_false_iff. right. apply Nat.leb_gt. exact Hhigh. }
  assert (Herror : Client.response_error rt r (JObj data) = Client.Error text).
  { unfold Client.response_error. cbn [prop outcome ret snd]. rewrite Hmessage.
    cbn [truthy default ToString]. apply String.eqb_neq in Htext. now rewrite Htext. }
  split; intros Hfetch.
  - unfold Client.chatCompletion. rewrite Hfetch, Hjson, Hok. cbn [negb Client.relabel].
    now rewrite Herror.
  - unfold Client.streamChatCompletion. rewrite Hfetch, Hok. cbn [negb].
    now rewrite Hjson, Herror.
Qed.

Lemma client_failure_carries_the_routes_message_witness :
  let refusal := default JNull
                   (body (Page.reply_of
                            (post_chat Sample.runtime Sample.environment Sample.answering
                               Sample.context invalid_body))) in
  let rt := Page.runtime [ refusal ] in
  let answer := Page.reply_of
                  (post_chat rt Sample.environment Sample.answering Sample.context
                     invalid_body) in
  Client.chatCompletion rt (Page.browser (Page.carrying rt answer))
    "http://localhost:3001" (Some (JStr EmptyString)) (Some (JStr "x")) (Some (JStr "y"))
    None
  = inl (Client.Error "Chat completion failed: Request validation failed").
Proof.
  cbv zeta.
  destruct (client_failure_carries_the_routes_message
               (Page.runtime
                  [ default JNull
                      (body (Page.reply_of
                               (post_chat Sample.runtime Sample.environment
                                  Sample.answering Sample.context invalid_body))) ])
               (Page.browser
                  (Page.carrying
                     (Page.runtime
                        [ default JNull
                            (body (Page.reply_of
                                     (post_chat Sample.runtime Sample.environment
                                        Sample.answering Sample.context invalid_body))) ])
                     (Page.reply_of
                        (post_chat Sample.runtime Sample.environment Sample.answering
                           Sample.context invalid_body))))
               "http://localhost:3001"
               (Page.reply_of
                  (post_chat Sample.runtime Sample.environment Sample.answering
                     Sample.context invalid_body))
               (Page.carrying
                  (Page.runtime
                     [ default JNull
                         (body (Page.reply_of
                                  (post_chat Sample.runtime Sample.environment
                                     Sample.answering Sample.context invalid_body))) ])
                  (Page.reply_of
                     (post_chat Sample.runtime Sample.environment Sample.answering
                        Sample.context invalid_body)))
               (match body (Page.reply_of
                              (post_chat Sample.runtime Sample.environment
                                 Sample.answering Sample.context invalid_body)) with
                | Some (JObj fields) => fields
                | _ => []
                end)
               "Request validation failed"
               (Some (JStr EmptyString)) (Some (JStr "x")) (Some (JStr "y")) None)
    as [Hchat _].
  - split; [reflexivity|]. eexists. split; reflexivity.
  - right. apply Nat.ltb_lt. reflexivity.
  - reflexivity.
  - reflexivity.
  - discriminate.
  - exact (Hchat eq_refl).
Defined.

(** ** The speech route: helpers *)

Lemma createModelService_named env ctx name cfg :
  In (toLowerCase name) providers ->
  env_truthy (apiKey cfg) = true ->
  createModelService env ctx name cfg
  = ([ New (toLowerCase name) ], inr (service_of env (toLowerCase name) cfg)).
Proof.
  unfold providers. cbn [In]. intros Hlisted Hkey.
  unfold createModelService, BaseModelService, service_of.
  destruct Hlisted as [<-|[<-|[<-|[<-|[]]]]]; rewrite Hkey; cbn; try reflexivity.
  destruct (env_truthy (baseUrl cfg)); reflexivity.
Qed.

Lemma createModelService_unsupported env ctx name cfg :
  ~ In (toLowerCase name) providers ->
  createModelService env ctx name cfg
  = ([], inl (ConfigurationError (now ctx) ("Unsupported provider: " +:+ name) None)).
Proof.
  unfold providers. cbn [In]. intros Hother. unfold createModelService.
  destruct (String.eqb (toLowerCase name) "openai") eqn:E1;
    [apply String.eqb_eq in E1; exfalso; apply Hother; auto|].
  destruct (String.eqb (toLowerCase name) "anthropic") eqn:E2;
    [apply String.eqb_eq in E2; exfalso; apply Hother; auto|].
  destruct (String.eqb (toLowerCase name) "groq") eqn:E3;
    [apply String.eqb_eq in E3; exfalso; apply Hother; auto|].
  destruct (String.eqb (toLowerCase name) "google") eqn:E4;
    [apply String.eqb_eq in E4; exfalso; apply Hother; auto 6|].
  reflexivity.
Qed.

Lemma bind_of_ret {A B} (a : A) (k : A -> M B) : bind (ret a) k = k a.
Proof. unfold bind, ret. now destruct (k a). Qed.

Section SpeechRoute.
Variable rt : Runtime.
Variable node : Speech.Node.
Variable env : gmap string string.
Variable up : Upstream.
Variable ctx : Context.

Lemma find_call_quiet name items : fst (Speech.find_call rt name items) = [].
Proof.
  induction items as [|part rest IH]; [reflexivity|].
  cbn [Speech.find_call]. unfold bind.
  destruct (prop rt (Some part) "functionCall") as [t [e|call]] eqn:E.
  - destruct part; cbn in E; injection E as <- _; reflexivity.
  - assert (t = []) as -> by (destruct part; cbn in E; injection E as <- _; reflexivity).
    destruct (opt_prop call "name") as [[]|];
      try (destruct (Speech.find_call rt name rest); cbn [fst] in *; subst; reflexivity).
    destruct (String.eqb s name); [reflexivity|].
    destruct (Speech.find_call rt name rest); cbn [fst] in *; subst; reflexivity.
Qed.

Lemma count_find_call {X A} (f : Event -> option X) name items (c : JsVal -> M A) n :
  (forall x, (count f (c x) <= n)%nat) ->
  (count f (let* x := Speech.find_call rt name items in c x) <= n)%nat.
Proof.
  intros Hc. apply (count_bind f (Speech.find_call rt name items) c 0 n); [|exact Hc].
  unfold count. rewrite find_call_quiet. cbn. lia.
Qed.

Lemma count_parse_value {X A} (f : Event -> option X) v (c : Json -> M A) n :
  (forall x, (count f (c x) <= n)%nat) ->
  (count f (let* x := Speech.parse_value rt node v in c x) <= n)%nat.
Proof.
  intros Hc. apply (count_bind f (Speech.parse_value rt node v) c 0 n); [|exact Hc].
  unfold Speech.parse_value. destruct (JSON_parse rt _); cbn; lia.
Qed.

Ltac quiet_transcription :=
  repeat first
    [ apply count_prop; intros ?
    | apply count_first; intros ?
    | apply count_parse_value; intros ?
    | match goal with
      | |- (count _ (ret _) <= _)%nat => rewrite count_ret; lia
      | |- (count _ (throw _) <= _)%nat => rewrite count_throw; lia
      | |- (count _ (if ?b then _ else _) <= _)%nat => destruct b
      | |- (count _ (bind (match ?p with _ => _ end) _) <= _)%nat =>
          destruct p as [[]|];
          try (apply count_find_call; intros ?);
          try (unfold bind, throw, count; cbn; lia)
      end ].

Lemma transcribeSpeech_trace svc audio model :
  Speech.speechToTextEnabled svc = true ->
  fst (Speech.GoogleAIService_transcribeSpeech rt node up ctx svc audio model)
  = match Speech.Buffer_base64 node audio with
    | inl _ => []
    | inr encoded => [ Post (Speech.transcription_request rt svc model encoded) ]
    end.
Proof.
  intros Henabled. unfold Speech.GoogleAIService_transcribeSpeech. rewrite Henabled.
  cbn [negb].
  destruct (Speech.Buffer_base64 node audio) as [e|encoded] eqn:Hencoded.
  - unfold bind, throw, try_catch. cbn [app].
    pose proof (handleApiError_silent (A:=Json) rt ctx svc e
                  "Google AI speech transcription") as Hh.
    destruct (handleApiError rt ctx svc e "Google AI speech transcription") as [t' r'].
    cbn [fst] in *. now subst.
  - rewrite bind_of_ret. apply call_then_quiet.
    + intros d. apply count_all_zero. quiet_transcription.
    + intros e. apply handleApiError_silent.
Qed.

Lemma transcribeSpeech_fails svc audio model t err :
  Speech.speechToTextEnabled svc = true ->
  Speech.GoogleAIService_transcribeSpeech rt node up ctx svc audio model = (t, inl err) ->
  exists text code,
    err = APIError (now ctx) text (StatusNum code) (Some (provider_name svc)).
Proof.
  intros Henabled. unfold Speech.GoogleAIService_transcribeSpeech. rewrite Henabled.
  cbn [negb]. intros H. apply try_catch_fails in H as (e & H).
  exact (handled_error_is_api_error rt ctx svc e _ err H).
Qed.

End SpeechRoute.

(** ** The speech route: providers and keys *)

Lemma lower_of_upper c : lower_ascii (Speech.upper_ascii c) = lower_ascii c.
Proof. destruct c as [[] [] [] [] [] [] [] []]; reflexivity. Qed.

Lemma chars_unchars l : chars (unchars l) = l.
Proof. apply list_ascii_of_string_of_list_ascii. Qed.

Lemma toLowerCase_toUpperCase s : toLowerCase (Speech.toUpperCase s) = toLowerCase s.
Proof.
  unfold toLowerCase, Speech.toUpperCase. rewrite chars_unchars, map_map.
  f_equal. apply map_ext. exact lower_of_upper.
Qed.

Lemma upper_google_is_google name :
  Speech.toUpperCase name = "GOOGLE" -> toLowerCase name = "google".
Proof.
  intros H. rewrite <- toLowerCase_toUpperCase, H. reflexivity.
Qed.

Section SpeechRoute.
Variable rt : Runtime.
Variable node : Speech.Node.
Variable env : gmap string string.
Variable up : Upstream.
Variable ctx : Context.

(** The key the route finds for a name that upper-cases to GOOGLE. *)
Lemma google_speech_key name :
  Speech.toUpperCase name = "GOOGLE" ->
  Speech.speech_key env name
  = if env_truthy (env !! "GOOGLE_API_KEY") then env !! "GOOGLE_API_KEY"
    else env !! "GOOGLE_AI_API_KEY".
Proof.
  intros Hname. unfold Speech.speech_key. rewrite Hname.
  change ("GOOGLE" +:+ "_API_KEY") with "GOOGLE_API_KEY".
  destruct (env_truthy (env !! "GOOGLE_API_KEY")); reflexivity.
Qed.

(** A request with audio for a name that upper-cases to GOOGLE, when a key
    is found: the adapter is built and called. *)
Lemma transcribe_reaches_google fields audio name key :
  obj_get "audioData" fields = Some audio ->
  truthy (Some audio) = true ->
  default (JStr "google") (obj_get "provider" fields) = JStr name ->
  Speech.toUpperCase name = "GOOGLE" ->
  Speech.speech_key env name = key ->
  env_truthy key = true ->
  let cfg := {| apiKey := key; baseUrl := None; available := false |} in
  let svc := service_of env "google" cfg in
  let model := default (JStr "gemini-2.5-flash-lite") (obj_get "model" fields) in
  Speech.transcribe_handler rt node env up ctx (Some (JObj fields))
  = let '(t, r) := Speech.GoogleAIService_transcribeSpeech rt node up ctx svc audio model in
    (New "google" :: t,
     match r with
     | inl e => inl e
     | inr result => inr (json result fresh)
     end).
Proof.
  intros Haudio Htruthy Hprovider Hname Hkey Hfound cfg svc model.
  unfold Speech.transcribe_handler, Speech.member.
  rewrite !bind_of_ret, Haudio, Htruthy, Hprovider. cbn [negb]. cbv beta iota.
  rewrite Hkey, Hfound. cbn [negb]. cbv beta iota. fold cfg.
  rewrite (createModelService_named env ctx name cfg);
    [ | rewrite (upper_google_is_google name Hname); unfold providers; cbn [In]; tauto
      | exact Hfound ].
  rewrite (upper_google_is_google name Hname).
  cbv beta iota zeta delta [bind]. fold cfg. fold svc.
  change (Speech.speechToTextEnabled svc) with true. cbn [negb].
  change (default JNull (Some audio)) with audio. fold model.
  destruct (Speech.GoogleAIService_transcribeSpeech rt node up ctx svc audio model)
    as [t [e|result]]; cbn [app]; [reflexivity|].
  unfold ret. cbn [app]. now rewrite ?app_nil_r.
Qed.

(** X24.  POST /api/speech/transcribe with audio, for a provider
    name that is openai, anthropic or groq in any letter case and whose
    [<NAME>_API_KEY] variable is set: the adapter is constructed, no
    upstream call is made, and the answer is 400 "Speech-to-text is not
    supported by <name>". *)
Theorem transcription_is_refused_for_other_providers fields audio name :
  obj_get "audioData" fields = Some audio ->
  truthy (Some audio) = true ->
  obj_get "provider" fields = Some (JStr name) ->
  In (toLowerCase name) [ "openai"; "anthropic"; "groq" ] ->
  env_truthy (env !! (Speech.toUpperCase name +:+ "_API_KEY")) = true ->
  Speech.post_transcribe rt node env up ctx (Some (JObj fields))
  = ([ New (toLowerCase name) ],
     Replied (Speech.refusal ("Speech-to-text is not supported by " +:+ name))).
Proof.
  intros Haudio Htruthy Hprovider Hlisted Hkey.
  unfold Speech.post_transcribe, asyncHandler, Speech.transcribe_handler, Speech.member.
  rewrite !bind_of_ret, Haudio, Htruthy, Hprovider.
  change (default (JStr "google") (Some (JStr name))) with (JStr name).
  cbn [negb]. cbv beta iota zeta.
  unfold Speech.speech_key. cbv zeta. rewrite Hkey. cbn [negb andb]. rewrite ?Hkey.
  cbn [negb].
  rewrite (createModelService_named env ctx name)
    by (try exact Hkey; unfold providers; cbn [In] in *; tauto).
  cbv beta iota zeta delta [bind].
  assert (Hadapter : Speech.speechToTextEnabled
                       (service_of env (toLowerCase name)
                          {| apiKey := env !! (Speech.toUpperCase name +:+ "_API_KEY");
                             baseUrl := None; available := false |}) = false).
  { unfold Speech.speechToTextEnabled, service_of, adapter_of. cbn [adapter].
    cbn [In] in Hlisted. destruct Hlisted as [<-|[<-|[<-|[]]]]; reflexivity. }
  rewrite Hadapter. reflexivity.
Qed.

(** X25.  POST /api/speech/transcribe with audio, for no provider
    or a name that upper-cases to GOOGLE: the key is [GOOGLE_API_KEY] when
    that is set and not empty, otherwise [GOOGLE_AI_API_KEY]; with a key
    found, one call is made, to the model's [generateContent] address on
    [https://generativelanguage.googleapis.com] whatever
    [GOOGLE_AI_BASE_URL] holds, with the key as the [key] query parameter
    and the re-encoded audio as inline [audio/wav] data. *)
Theorem transcription_uses_the_google_key_found fields audio name encoded :
  obj_get "audioData" fields = Some audio ->
  truthy (Some audio) = true ->
  default (JStr "google") (obj_get "provider" fields) = JStr name ->
  Speech.toUpperCase name = "GOOGLE" ->
  let found := if env_truthy (env !! "GOOGLE_API_KEY") then env !! "GOOGLE_API_KEY"
               else env !! "GOOGLE_AI_API_KEY" in
  let model := default (JStr "gemini-2.5-flash-lite") (obj_get "model" fields) in
  env_truthy found = true ->
  Speech.Buffer_base64 node audio = inr encoded ->
  exists r,
    fst (Speech.post_transcribe rt node env up ctx (Some (JObj fields)))
    = [ New "google"; Post r ]
    /\ url r = "https://generativelanguage.googleapis.com/v1beta/models/"
               +:+ ToString rt model +:+ ":generateContent"
    /\ query r = [ ("key", tpl found) ]
    /\ obj_get "contents" (data r)
       = Some (JArr [ JObj [ ("parts",
                                JArr [ JObj [ ("inline_data",
                                                 JObj [ ("mime_type", JStr "audio/wav");
                                                        ("data", JStr encoded) ]) ] ]) ] ]).
Proof.
  intros Haudio Htruthy Hprovider Hname found model Hfound Hencoded.
  eexists. unfold Speech.post_transcribe. rewrite trace_asyncHandler.
  rewrite (transcribe_reaches_google fields audio name found Haudio Htruthy Hprovider Hname
             (google_speech_key name Hname) Hfound).
  cbv zeta.
  match goal with
  | |- context [Speech.GoogleAIService_transcribeSpeech rt node up ctx ?svc audio ?m] =>
      pose proof (transcribeSpeech_trace rt node up ctx svc audio m eq_refl) as Htrace;
      destruct (Speech.GoogleAIService_transcribeSpeech rt node up ctx svc audio m)
        as [t r]
  end.
  rewrite Hencoded in Htrace. cbn [fst] in *. subst t.
  split; [reflexivity|]. split; [reflexivity|]. split; reflexivity.
Qed.

(** X26.  With [GOOGLE_API_KEY] set and [GOOGLE_AI_API_KEY]
    unset or empty, the two routes disagree about Google: a valid chat
    request for provider [google] is answered 503 without an upstream call,
    while a transcription request calls Google with [GOOGLE_API_KEY]. *)
Theorem speech_accepts_a_key_the_chat_route_ignores
    req_body value request fields audio encoded :
  env_truthy (env !! "GOOGLE_API_KEY") = true ->
  env_truthy (env !! "GOOGLE_AI_API_KEY") = false ->
  validateRequest rt ctx req_body = Next value ->
  validateModelCompatibility rt ctx value = Next request ->
  provider request = "google" ->
  obj_get "audioData" fields = Some audio ->
  truthy (Some audio) = true ->
  obj_get "provider" fields = None ->
  Speech.Buffer_base64 node audio = inr encoded ->
  post_chat rt env up ctx req_body
  = ([], Replied (json (provider_unavailable "google") (status 503 fresh)))
  /\ exists r,
       fst (Speech.post_transcribe rt node env up ctx (Some (JObj fields)))
       = [ New "google"; Post r ]
       /\ query r = [ ("key", tpl (env !! "GOOGLE_API_KEY")) ].
Proof.
  intros Hspeech Hchat Hvalid Hcompatible Hgoogle Haudio Htruthy Hprovider Hencoded. split.
  - unfold post_chat, post_route. rewrite Hvalid, Hcompatible.
    unfold asyncHandler, chat_handler. rewrite Hgoogle.
    unfold usable, getProviderConfig, lookup_literal.
    change (assoc (toLowerCase "google") (configs env))
      with (Some (provider_entry env "GOOGLE_AI_API_KEY" "GOOGLE_AI_BASE_URL")).
    cbn [provider_entry available]. rewrite Hchat. reflexivity.
  - eexists. unfold Speech.post_transcribe. rewrite trace_asyncHandler.
    assert (Hkey : Speech.speech_key env "google" = env !! "GOOGLE_API_KEY").
    { rewrite (google_speech_key "google" eq_refl). now rewrite Hspeech. }
    rewrite (transcribe_reaches_google fields audio "google" (env !! "GOOGLE_API_KEY")
               Haudio Htruthy)
      by (try reflexivity; try assumption; rewrite Hprovider; reflexivity).
    cbv zeta.
    match goal with
    | |- context [Speech.GoogleAIService_transcribeSpeech rt node up ctx ?svc audio ?m] =>
        pose proof (transcribeSpeech_trace rt node up ctx svc audio m eq_refl) as Htrace;
        destruct (Speech.GoogleAIService_transcribeSpeech rt node up ctx svc audio m)
          as [t r]
    end.
    rewrite Hencoded in Htrace. cbn [fst] in *. subst t.
    split; reflexivity.
Qed.

End SpeechRoute.

(** ** The speech route: what it can answer *)

Lemma bind_returns {A B} (P : B -> Prop) (m : M A) (k : A -> M B) :
  (forall x t b, k x = (t, inr b) -> P b) ->
  forall t b, bind m k = (t, inr b) -> P b.
Proof.
  intros Hk t b. destruct m as [t1 [e|x]]; cbn [bind]; [discriminate|].
  destruct (k x) as [t2 r] eqn:E. intros [= _ ->]. exact (Hk x t2 b E).
Qed.

Lemma error_reply_name rt env err ctx r :
  errorHandler rt env err ctx fresh = Replied r ->
  opt_prop (body r) "error"
  = Some (JStr (if String.eqb (e_name err) EmptyString then "Error" else e_name err)).
Proof.
  intros Hreply. rewrite (errorHandler_body rt env err ctx fresh r Hreply).
  unfold formatErrorResponse.
  destruct (decide (env !! "NODE_ENV" = Some "development")),
    (text_truthy (e_provider err)), (e_details err) as [ds|],
    (status_truthy (e_statusCode err)),
    (String.eqb (Error_stack rt (e_name err) (e_message err)) EmptyString);
    reflexivity.
Qed.

Lemma type_error_reply rt env ctx message :
  exists res,
    errorHandler rt env (Speech.engine_error "TypeError" message) ctx fresh = Replied res
    /\ statusCode res = 500%nat
    /\ opt_prop (body res) "error" = Some (JStr "TypeError").
Proof.
  eexists. split; [reflexivity|]. split; [reflexivity|].
  exact (error_reply_name rt env (Speech.engine_error "TypeError" message) ctx _ eq_refl).
Qed.

Lemma configuration_error_reply rt env ctx message :
  exists res,
    errorHandler rt env (ConfigurationError (now ctx) message None) ctx fresh = Replied res
    /\ statusCode res = 500%nat
    /\ opt_prop (body res) "error" = Some (JStr "ConfigurationError").
Proof.
  eexists. split; [reflexivity|]. split; [reflexivity|].
  exact (error_reply_name rt env (ConfigurationError (now ctx) message None) ctx _ eq_refl).
Qed.

Section SpeechRoute.
Variable rt : Runtime.
Variable node : Speech.Node.
Variable env : gmap string string.
Variable up : Upstream.
Variable ctx : Context.

Lemma transcribeSpeech_returns svc audio model t result :
  Speech.GoogleAIService_transcribeSpeech rt node up ctx svc audio model = (t, inr result) ->
  exists text reason, result = Speech.transcription text model reason.
Proof.
  unfold Speech.GoogleAIService_transcribeSpeech.
  destruct (negb (Speech.speechToTextEnabled svc)); [discriminate|].
  match goal with
  | |- try_catch ?m ?h = _ -> _ => destruct m as [t1 [e|x]] eqn:Hm; cbn [try_catch]
  end.
  - destruct (handleApiError_raises (A:=Json) rt ctx svc e
                "Google AI speech transcription") as (text & ->).
    discriminate.
  - intros [= <- <-]. revert t1 x Hm.
    repeat first
      [ progress (apply bind_returns; intros ?; cbv beta)
      | match goal with
        | |- forall t b, ret _ = _ -> _ => intros ? ? [= _ <-]; eauto
        | |- forall t b, throw _ = _ -> _ => intros ? ? [=]
        | |- forall t b, (if ?c then _ else _) = _ -> _ => destruct c
        end ].
Qed.

(** X27.  POST /api/speech/transcribe answers every body,
    [undefined] included, with a JSON response and at most one upstream
    call: 400 with an [error] text, 200 with the transcription ([text] and
    [metadata]), 500 for a TypeError (a body that is [undefined] or [null],
    a provider that is no string) or a ConfigurationError (a name that has
    a key but no adapter), or the reply for an APIError of provider
    [google]. *)
Theorem transcribe_route_outcomes req_body :
  exists res,
    snd (Speech.post_transcribe rt node env up ctx req_body) = Replied res
    /\ (length (posted (fst (Speech.post_transcribe rt node env up ctx req_body))) <= 1)%nat
    /\ ((statusCode res = 400%nat
         /\ exists text, body res = Some (JObj [ ("error", JStr text) ]))
        \/ (statusCode res = 200%nat
            /\ exists text model reason,
                 body res = Some (Speech.transcription text model reason))
        \/ (statusCode res = 500%nat
            /\ opt_prop (body res) "error" = Some (JStr "TypeError"))
        \/ (statusCode res = 500%nat
            /\ opt_prop (body res) "error" = Some (JStr "ConfigurationError"))
        \/ (opt_prop (body res) "error" = Some (JStr "APIError")
            /\ opt_prop (body res) "provider" = Some (JStr "google"))).
Proof.
  unfold Speech.post_transcribe.
  assert (Hrefused : forall t text,
            (length (posted t) <= 1)%nat ->
            Speech.transcribe_handler rt node env up ctx req_body
            = (t, inr (Speech.refusal text)) ->
            exists res,
              snd (asyncHandler rt env ctx
                     (Speech.transcribe_handler rt node env up ctx req_body)) = Replied res
              /\ (length (posted (fst (asyncHandler rt env ctx
                                         (Speech.transcribe_handler rt node env up ctx
                                            req_body)))) <= 1)%nat
              /\ ((statusCode res = 400%nat
                   /\ exists text, body res = Some (JObj [ ("error", JStr text) ]))
                  \/ (statusCode res = 200%nat
                      /\ exists text model reason,
                           body res = Some (Speech.transcription text model reason))
                  \/ (statusCode res = 500%nat
                      /\ opt_prop (body res) "error" = Some (JStr "TypeError"))
                  \/ (statusCode res = 500%nat
                      /\ opt_prop (body res) "error" = Some (JStr "ConfigurationError"))
                  \/ (opt_prop (body res) "error" = Some (JStr "APIError")
                      /\ opt_prop (body res) "provider" = Some (JStr "google")))).
  { intros t text Hposted ->. eexists. split; [reflexivity|]. split; [exact Hposted|].
    left. split; [reflexivity|]. eauto. }
  assert (Htype : forall message,
            Speech.transcribe_handler rt node env up ctx req_body
            = ([], inl (Speech.engine_error "TypeError" message)) ->
            exists res,
              snd (asyncHandler rt env ctx
                     (Speech.transcribe_handler rt node env up ctx req_body)) = Replied res
              /\ (length (posted (fst (asyncHandler rt env ctx
                                         (Speech.transcribe_handler rt node env up ctx
                                            req_body)))) <= 1)%nat
              /\ ((statusCode res = 400%nat
                   /\ exists text, body res = Some (JObj [ ("error", JStr text) ]))
                  \/ (statusCode res = 200%nat
                      /\ exists text model reason,
                           body res = Some (Speech.transcription text model reason))
                  \/ (statusCode res = 500%nat
                      /\ opt_prop (body res) "error" = Some (JStr "TypeError"))
                  \/ (statusCode res = 500%nat
                      /\ opt_prop (body res) "error" = Some (JStr "ConfigurationError"))
                  \/ (opt_prop (body res) "error" = Some (JStr "APIError")
                      /\ opt_prop (body res) "provider" = Some (JStr "google")))).
  { intros message ->. destruct (type_error_reply rt env ctx message) as (res & Hres & H500 & Hname).
    exists res. unfold asyncHandler. rewrite Hres. split; [reflexivity|].
    split; [cbn; lia|]. right. right. left. now split. }
  destruct req_body as [[| | | | |fields]|];
    try (apply (Hrefused [] "Audio data is required"); [cbn; lia | reflexivity]);
    try (apply (Htype (Speech.destructure_message node)); reflexivity).
  destruct (obj_get "audioData" fields) as [audio|] eqn:Haudio.
  2: { apply (Hrefused [] "Audio data is required"); [cbn; lia|].
       unfold Speech.transcribe_handler, Speech.member. rewrite !bind_of_ret, Haudio.
       reflexivity. }
  destruct (truthy (Some audio)) eqn:Htruthy.
  2: { apply (Hrefused [] "Audio data is required"); [cbn; lia|].
       unfold Speech.transcribe_handler, Speech.member.
       rewrite !bind_of_ret, Haudio, Htruthy. reflexivity. }
  assert (Hstart :
            Speech.transcribe_handler rt node env up ctx (Some (JObj fields))
            = match default (JStr "google") (obj_get "provider" fields) with
              | JStr name =>
                  let envKey := Speech.toUpperCase name +:+ "_API_KEY" in
                  let apiKey := Speech.speech_key env name in
                  if negb (env_truthy apiKey)
                  then ret (Speech.refusal ("API key for " +:+ name
                                              +:+ " is not configured. Looking for "
                                              +:+ envKey))
                  else
                    let* modelService :=
                      createModelService env ctx name
                        {| apiKey := apiKey; baseUrl := None; available := false |} in
                    if negb (Speech.speechToTextEnabled modelService)
                    then ret (Speech.refusal ("Speech-to-text is not supported by " +:+ name))
                    else
                      let* result :=
                        Speech.GoogleAIService_transcribeSpeech rt node up ctx modelService
                          audio
                          (default (JStr "gemini-2.5-flash-lite") (obj_get "model" fields)) in
                      ret (json result fresh)
              | JNull => throw (TypeError rt "toUpperCase")
              | _ => throw (Speech.engine_error "TypeError"
                              (Speech.not_a_function node "provider.toUpperCase"))
              end).
  { unfold Speech.transcribe_handler, Speech.member.
    rewrite !bind_of_ret, Haudio, Htruthy. reflexivity. }
  destruct (default (JStr "google") (obj_get "provider" fields)) as [| | |name| |] eqn:Hprovider;
    try (eapply Htype; rewrite Hstart; reflexivity).
  cbv zeta in Hstart.
  destruct (env_truthy (Speech.speech_key env name)) eqn:Hkey; cbn [negb] in Hstart.
  2: { eapply (Hrefused []); [cbn; lia | exact Hstart]. }
  destruct (decide (In (toLowerCase name) providers)) as [Hlisted | Hother].
  2: { rewrite (createModelService_unsupported env ctx name _ Hother) in Hstart.
       cbn [bind] in Hstart. rewrite Hstart.
       destruct (configuration_error_reply rt env ctx ("Unsupported provider: " +:+ name))
         as (res & Hres & H500 & Hname).
       exists res. unfold asyncHandler. rewrite Hres. split; [reflexivity|].
       split; [cbn; lia|]. right. right. right. left. now split. }
  rewrite (createModelService_named env ctx name
             {| apiKey := Speech.speech_key env name; baseUrl := None; available := false |}
             Hlisted Hkey) in Hstart.
  cbv beta iota zeta delta [bind] in Hstart.
  destruct (Speech.speechToTextEnabled
              (service_of env (toLowerCase name)
                 {| apiKey := Speech.speech_key env name; baseUrl := None;
                    available := false |})) eqn:Henabled; cbn [negb] in Hstart.
  2: { eapply (Hrefused [ New (toLowerCase name) ]); [cbn; lia | exact Hstart]. }
  assert (Hgoogle : toLowerCase name = "google").
  { unfold providers in Hlisted. cbn [In] in Hlisted.
    destruct Hlisted as [H|[H|[H|[H|[]]]]]; rewrite <- H in Henabled;
      try discriminate Henabled. now symmetry. }
  rewrite Hgoogle in *.
  pose proof (transcribeSpeech_trace rt node up ctx _ audio
                (default (JStr "gemini-2.5-flash-lite") (obj_get "model" fields))
                Henabled) as Htrace.
  destruct (Speech.GoogleAIService_transcribeSpeech rt node up ctx
              (service_of env "google"
                 {| apiKey := Speech.speech_key env name; baseUrl := None;
                    available := false |})
              audio (default (JStr "gemini-2.5-flash-lite") (obj_get "model" fields)))
    as [t [err|result]] eqn:Hcall; cbn [fst] in Htrace.
  - apply transcribeSpeech_fails in Hcall as (text & code & ->); [|exact Henabled].
    cbn [provider_name service_of] in Hstart.
    destruct (api_error_reply rt env ctx text code "google") as
      (res & Hres & _ & Herror & _ & Hprov); [discriminate|].
    exists res. rewrite Hstart. unfold asyncHandler. rewrite Hres.
    split; [reflexivity|]. split.
    + cbn [fst app]. subst t. destruct (Speech.Buffer_base64 node audio); cbn; lia.
    + right. right. right. right. now split.
  - apply transcribeSpeech_returns in Hcall as (text & reason & ->).
    rewrite Hstart. unfold asyncHandler, ret. eexists. split; [reflexivity|]. split.
    + cbn [fst app]. subst t. rewrite app_nil_r.
      destruct (Speech.Buffer_base64 node audio); cbn; lia.
    + right. left. split; [reflexivity|]. eauto.
Qed.

End SpeechRoute.

Section SpeechRoute.
Variable rt : Runtime.
Variable node : Speech.Node.
Variable env : gmap string string.
Variable up : Upstream.
Variable ctx : Context.

(** X28.  When Google's first candidate has a
    [speech_to_text] function call whose [args] is a JSON object and not a
    JSON text, the transcription fails: [JSON.parse] is given the object,
    reads it as the text "[object Object]" and throws, and the route answers
    500 with an APIError whose message is "Unexpected error during Google AI
    speech transcription: " followed by the SyntaxError's message. *)
Theorem function_call_with_object_arguments_fails
    fields audio name encoded answer candidate rest inner items part call arguments :
  obj_get "audioData" fields = Some audio ->
  truthy (Some audio) = true ->
  default (JStr "google") (obj_get "provider" fields) = JStr name ->
  Speech.toUpperCase name = "GOOGLE" ->
  env_truthy (Speech.speech_key env name) = true ->
  Speech.Buffer_base64 node audio = inr encoded ->
  (forall r, post up r = inr (Some (JObj answer))) ->
  obj_get "candidates" answer = Some (JArr (JObj candidate :: rest)) ->
  obj_get "content" candidate = Some (JObj inner) ->
  obj_get "parts" inner = Some (JArr items) ->
  Speech.find_call rt "speech_to_text" items = ([], inr (Some (JObj part))) ->
  obj_get "functionCall" part = Some (JObj call) ->
  obj_get "args" call = Some (JObj arguments) ->
  JSON_parse rt "[object Object]" = None ->
  exists res,
    snd (Speech.post_transcribe rt node env up ctx (Some (JObj fields))) = Replied res
    /\ statusCode res = 500%nat
    /\ opt_prop (body res) "error" = Some (JStr "APIError")
    /\ opt_prop (body res) "message"
       = Some (JStr ("Unexpected error during Google AI speech transcription: "
                       +:+ Speech.SyntaxError_message node "[object Object]")).
Proof.
  intros Haudio Htruthy Hprovider Hname Hkey Hencoded Hpost Hcandidates Hcontent Hparts
    Hfound Hcall Hargs Hparse.
  unfold Speech.post_transcribe.
  rewrite (transcribe_reaches_google rt node env up ctx fields audio name _ Haudio Htruthy
             Hprovider Hname eq_refl Hkey).
  cbv zeta.
  match goal with
  | |- context [Speech.GoogleAIService_transcribeSpeech rt node up ctx ?s audio ?m] =>
      set (svc := s); set (model := m)
  end.
  assert (Hfails :
            Speech.GoogleAIService_transcribeSpeech rt node up ctx svc audio model
            = ([ Post (Speech.transcription_request rt svc model encoded) ],
               inl (APIError (now ctx)
                      ("Unexpected error during Google AI speech transcription: "
                         +:+ Speech.SyntaxError_message node "[object Object]")
                      (StatusNum 500) (Some "google")))).
  { unfold Speech.GoogleAIService_transcribeSpeech.
    change (Speech.speechToTextEnabled svc) with true. cbn [negb].
    rewrite Hencoded, bind_of_ret. unfold axios_post.
    cbv beta iota zeta delta [bind tell]. rewrite Hpost.
    cbv beta iota zeta delta [ret prop]. rewrite Hcandidates.
    cbn [opt_first head truthy negb]. cbv beta iota zeta delta [bind ret prop].
    rewrite Hcontent, Hparts, Hfound.
    cbn [truthy]. rewrite Hcall, Hargs.
    unfold Speech.parse_value. cbn [ToString]. rewrite Hparse.
    cbv beta iota zeta delta [throw try_catch handleApiError Speech.engine_error
                              e_response e_request e_message].
    cbn [app]. reflexivity. }
  rewrite Hfails.
  destruct (api_error_reply rt env ctx
              ("Unexpected error during Google AI speech transcription: "
                 +:+ Speech.SyntaxError_message node "[object Object]") 500 "google")
    as (res & Hres & Hstatus & Herror & Hmessage & _); [discriminate|].
  exists res. unfold asyncHandler. cbn [snd]. rewrite Hres. repeat split; assumption.
Qed.

End SpeechRoute.

(** ** The speech route: worked examples *)

Lemma transcription_is_refused_for_other_providers_witness :
  Speech.post_transcribe Sample.runtime Recording.node Sample.environment Sample.answering
    Sample.context (Some (JObj (("provider", JStr "OpenAI") :: Recording.clip)))
  = ([ New "openai" ],
     Replied (Speech.refusal "Speech-to-text is not supported by OpenAI")).
Proof.
  apply (transcription_is_refused_for_other_providers Sample.runtime Recording.node
           Sample.environment Sample.answering Sample.context
           (("provider", JStr "OpenAI") :: Recording.clip) (JStr "UklGRg==") "OpenAI").
  - reflexivity.
  - reflexivity.
  - reflexivity.
  - left. reflexivity.
  - reflexivity.
Defined.

Lemma transcription_uses_the_google_key_found_witness :
  exists r,
    fst (Speech.post_transcribe Sample.runtime Recording.node Sample.all_configured
           Sample.answering Sample.context (Some (JObj Recording.clip)))
    = [ New "google"; Post r ]
    /\ url r = "https://generativelanguage.googleapis.com/v1beta/models/gemini-2.5-flash-lite:generateContent"
    /\ query r = [ ("key", "g-test") ].
Proof.
  destruct (transcription_uses_the_google_key_found Sample.runtime Recording.node
              Sample.all_configured Sample.answering Sample.context
              Recording.clip (JStr "UklGRg==") "google" "UklGRg=="
              eq_refl eq_refl eq_refl eq_refl eq_refl eq_refl)
    as (r & Htrace & Hurl & Hquery & _).
  exists r. split; [exact Htrace|]. split; [exact Hurl | exact Hquery].
Defined.

Lemma speech_accepts_a_key_the_chat_route_ignores_witness :
  post_chat Sample.runtime Recording.google_key_only Sample.answering Sample.context
    (Sample.request "gemini-2.5-pro" "google" [])
  = ([], Replied (json (provider_unavailable "google") (status 503 fresh)))
  /\ exists r,
       fst (Speech.post_transcribe Sample.runtime Recording.node Recording.google_key_only
              Sample.answering Sample.context (Some (JObj Recording.clip)))
       = [ New "google"; Post r ]
       /\ query r = [ ("key", "g-speech") ].
Proof.
  eapply (speech_accepts_a_key_the_chat_route_ignores Sample.runtime Recording.node
            Recording.google_key_only Sample.answering Sample.context
            (Sample.request "gemini-2.5-pro" "google" []) _ _
            Recording.clip (JStr "UklGRg==") "UklGRg==");
    reflexivity.
Defined.

Lemma function_call_with_object_arguments_fails_witness :
  exists res,
    snd (Speech.post_transcribe Sample.runtime Recording.node Sample.all_configured
           Recording.calling Sample.context (Some (JObj Recording.clip))) = Replied res
    /\ statusCode res = 500%nat
    /\ opt_prop (body res) "message"
       = Some (JStr ("Unexpected error during Google AI speech transcription: "
                       +:+ "Unexpected token o in JSON at position 1")).
Proof.
  destruct (function_call_with_object_arguments_fails Sample.runtime Recording.node
              Sample.all_configured Recording.calling Sample.context
              Recording.clip (JStr "UklGRg==") "google" "UklGRg==" Recording.call_answer
              _ _ _ _ _ _ _
              eq_refl eq_refl eq_refl eq_refl eq_refl eq_refl (fun _ => eq_refl)
              eq_refl eq_refl eq_refl eq_refl eq_refl eq_refl eq_refl)
    as (res & Hreply & Hstatus & _ & Hmessage).
  exists res. split; [exact Hreply|]. split; [exact Hstatus | exact Hmessage].
Defined.

(** ** Start-up: the environment schema *)

Section StartupChecks.
Variable rt : Runtime.
Variable Joi_uri : string -> bool.

Lemma validate_keys_step name rule rest env value value' :
  Startup.validate_keys rt Joi_uri ((name, rule) :: rest) env value = inr value' ->
  exists r,
    Startup.validate_rule rt Joi_uri rule name value (env !! name) = (r, [])
    /\ Startup.validate_keys rt Joi_uri rest env
         match r with
         | Some x => <[ name := x ]> value
         | None => value
         end = inr value'.
Proof.
  cbn [Startup.validate_keys].
  destruct (Startup.validate_rule rt Joi_uri rule name value (env !! name)) as [[x|] [|d ds]];
    try discriminate; eauto.
Qed.

Lemma validate_keys_frame rules env value value' k :
  Startup.validate_keys rt Joi_uri rules env value = inr value' ->
  ~ In k (map fst rules) ->
  value' !! k = value !! k.
Proof.
  revert value. induction rules as [|[name rule] rest IH]; intros value.
  - now intros [= <-].
  - intros Hkeys Hfresh. apply validate_keys_step in Hkeys as (r & _ & Hrest).
    cbn [map fst In] in Hfresh.
    rewrite (IH _ Hrest) by tauto.
    destruct r as [x|]; [|reflexivity].
    apply lookup_insert_ne. intros ->. tauto.
Qed.

Lemma production_passes_with_the_key env value :
  env !! "NODE_ENV" = Some "production" ->
  Startup.validate_env rt Joi_uri env = inr value ->
  value !! "NODE_ENV" = Some (JStr "production")
  /\ exists key,
       env !! "OPENAI_API_KEY" = Some key
       /\ key <> EmptyString
       /\ value !! "OPENAI_API_KEY" = Some (JStr key).
Proof.
  intros Hproduction. unfold Startup.validate_env, Startup.envSchema. intros Hkeys.
  apply validate_keys_step in Hkeys as (port & _ & Hkeys).
  set (value1 := match port with Some x => _ | None => _ end) in Hkeys.
  apply validate_keys_step in Hkeys as (mode & Hmode & Hkeys).
  cbn [Startup.validate_rule] in Hmode. rewrite Hproduction in Hmode.
  cbn in Hmode. injection Hmode as <-.
  apply validate_keys_step in Hkeys as (key & Hkey & Hkeys).
  cbn [Startup.validate_rule] in Hkey.
  rewrite lookup_insert_eq in Hkey.
  change (String.eqb "production" "production") with true in Hkey.
  destruct (env !! "OPENAI_API_KEY") as [x|] eqn:Hgiven; [|discriminate Hkey].
  cbn [fmap option_fmap option_map validate] in Hkey.
  destruct (String.eqb x EmptyString) eqn:Hempty; [discriminate Hkey|].
  cbn [andb app Joi.when] in Hkey. injection Hkey as <-.
  split.
  - rewrite (validate_keys_frame _ _ _ _ "NODE_ENV" Hkeys)
      by (cbn; intuition discriminate).
    rewrite lookup_insert_ne by discriminate. apply lookup_insert_eq.
  - exists x. split; [reflexivity|]. split; [now apply String.eqb_neq|].
    rewrite (validate_keys_frame _ _ _ _ "OPENAI_API_KEY" Hkeys)
      by (cbn; intuition discriminate).
    apply lookup_insert_eq.
Qed.

Lemma mode_is_kept env value :
  Startup.validate_env rt Joi_uri env = inr value ->
  value !! "NODE_ENV" = Some (JStr "production") ->
  env !! "NODE_ENV" = Some "production".
Proof.
  unfold Startup.validate_env, Startup.envSchema. intros Hkeys.
  apply validate_keys_step in Hkeys as (port & _ & Hkeys).
  set (value1 := match port with Some x => _ | None => _ end) in Hkeys.
  apply validate_keys_step in Hkeys as (mode & Hmode & Hkeys).
  apply validate_keys_step in Hkeys as (key & _ & Hkeys).
  rewrite (validate_keys_frame _ _ _ _ "NODE_ENV" Hkeys) by (cbn; intuition discriminate).
  assert (Hafter : (match key with
                    | Some x => <[ "OPENAI_API_KEY" := x ]>
                                  match mode with
                                  | Some y => <[ "NODE_ENV" := y ]> value1
                                  | None => value1
                                  end
                    | None => match mode with
                              | Some y => <[ "NODE_ENV" := y ]> value1
                              | None => value1
                              end
                    end) !! "NODE_ENV"
                   = match mode with
                     | Some y => Some y
                     | None => value1 !! "NODE_ENV"
                     end).
  { destruct key, mode; rewrite ?lookup_insert_ne by discriminate;
      rewrite ?lookup_insert_eq; reflexivity. }
  rewrite Hafter. clear Hafter Hkeys.
  cbn [Startup.validate_rule] in Hmode.
  destruct (env !! "NODE_ENV") as [x|] eqn:Hgiven.
  - cbn [fmap option_fmap option_map validate] in Hmode.
    destruct (existsb (String.eqb x) [ "development"; "production"; "test" ]) eqn:Hlisted.
    + injection Hmode as <-. now intros [= ->].
    + exfalso. cbn [app] in Hmode.
      destruct (String.eqb x EmptyString && negb false); discriminate Hmode.
  - cbn [fmap option_fmap option_map] in Hmode. injection Hmode as <-. discriminate.
Qed.

(** X29.  [validateEnvironment] with [NODE_ENV=production] returns
    only when [OPENAI_API_KEY] is set and not empty, whatever other
    provider keys are set; so every error it throws is the "Environment
    validation error: ..." one, and its own check "At least one AI model API
    key must be provided in production" can never fail. *)
Theorem production_start_needs_the_openai_key env :
  (forall value,
     env !! "NODE_ENV" = Some "production" ->
     Startup.validateEnvironment rt Joi_uri env = inr value ->
     exists key,
       env !! "OPENAI_API_KEY" = Some key
       /\ key <> EmptyString
       /\ value !! "OPENAI_API_KEY" = Some (JStr key))
  /\ (forall e,
        Startup.validateEnvironment rt Joi_uri env = inl e ->
        exists text, e_message e = "Environment validation error: " +:+ text).
Proof.
  unfold Startup.validateEnvironment.
  destruct (Startup.validate_env rt Joi_uri env) as [detail|value] eqn:Hvalid.
  - split; [discriminate|]. intros e [= <-]. eauto.
  - destruct (match value !! "NODE_ENV" with
              | Some (JStr x) => String.eqb x "production"
              | _ => false
              end) eqn:Hmode.
    + assert (Hproduction : value !! "NODE_ENV" = Some (JStr "production")).
      { destruct (value !! "NODE_ENV") as [[| | |x| |]|]; try discriminate Hmode.
        apply String.eqb_eq in Hmode. now subst. }
      pose proof (mode_is_kept env value Hvalid Hproduction) as Hgiven.
      destruct (production_passes_with_the_key env value Hgiven Hvalid)
        as (_ & key & Hkey & Hfilled & Hvalue).
      assert (Htruthy : truthy (Some (JStr key)) = true).
      { cbn [truthy]. apply String.eqb_neq in Hfilled. now rewrite Hfilled. }
      rewrite Hvalue. unfold js_or. rewrite !Htruthy. cbn [negb andb].
      split; [|discriminate]. intros value' _ [= <-]. eauto.
    + rewrite andb_false_r. split; [|discriminate].
      intros value' Hgiven [= <-].
      destruct (production_passes_with_the_key env value Hgiven Hvalid)
        as (_ & key & Hkey & Hfilled & Hvalue). eauto.
Qed.

End StartupChecks.

Lemma production_start_needs_the_openai_key_witness :
  exists value,
    Startup.validateEnvironment Sample.runtime Deployment.any_uri Deployment.production
    = inr value
    /\ value !! "OPENAI_API_KEY" = Some (JStr "sk-test").
Proof.
  eexists. split; [reflexivity|].
  destruct (proj1 (production_start_needs_the_openai_key Sample.runtime Deployment.any_uri
                     Deployment.production) _ eq_refl eq_refl)
    as (key & Hkey & _ & Hvalue).
  injection Hkey as <-. exact Hvalue.
Defined.

Section StartupChecks.
Variable rt : Runtime.
Variable Joi_uri : string -> bool.

(** What the key loop leaves under a declared name: the rule's result, or
    what was there when the rule gives [undefined]. *)
Lemma validate_keys_lookup rules env value value' name rule :
  List.NoDup (map fst rules) ->
  In (name, rule) rules ->
  Startup.validate_keys rt Joi_uri rules env value = inr value' ->
  exists seen r,
    Startup.validate_rule rt Joi_uri rule name seen (env !! name) = (r, [])
    /\ value' !! name = match r with
                        | Some x => Some x
                        | None => value !! name
                        end.
Proof.
  revert value. induction rules as [|[name' rule'] rest IH]; intros value Hdistinct Hin Hkeys;
    [destruct Hin|].
  cbn [map fst] in Hdistinct. apply List.NoDup_cons_iff in Hdistinct as [Hfresh Hdistinct].
  apply validate_keys_step in Hkeys as (r & Hrule & Hrest).
  destruct Hin as [[= -> ->]|Hin].
  - exists value, r. split; [exact Hrule|].
    rewrite (validate_keys_frame rt Joi_uri _ _ _ _ name Hrest Hfresh).
    destruct r as [x|]; [apply lookup_insert_eq | reflexivity].
  - destruct (IH _ Hdistinct Hin Hrest) as (seen & r' & Hrule' & Hvalue).
    exists seen, r'. split; [exact Hrule'|]. rewrite Hvalue.
    destruct r' as [x'|]; [reflexivity|].
    destruct r as [x|]; [|reflexivity].
    apply lookup_insert_ne. intros ->. apply Hfresh.
    apply (in_map fst) in Hin. exact Hin.
Qed.

Lemma envSchema_names_are_distinct : List.NoDup (map fst Startup.envSchema).
Proof.
  unfold Startup.envSchema. cbn [map fst].
  repeat (apply List.NoDup_cons; [cbn [In]; intuition discriminate|]).
  apply List.NoDup_nil.
Qed.

Lemma plain_string_accepts valid p x r :
  validate rt (Joi_string false valid None None []) p (Some (JStr x)) = (r, []) ->
  r = Some (JStr x)
  /\ match valid with
     | Some listed => In x listed
     | None => x <> EmptyString
     end.
Proof.
  cbn [validate].
  destruct valid as [listed|].
  - destruct (existsb (String.eqb x) listed) eqn:Hlisted.
    + intros [= <-]. split; [reflexivity|].
      apply existsb_exists in Hlisted as (y & Hy & Heq).
      apply String.eqb_eq in Heq. now subst.
    + cbn [app]. destruct (String.eqb x EmptyString && negb false); discriminate.
  - cbn [app]. destruct (String.eqb x EmptyString) eqn:Hempty; cbn [andb negb].
    + discriminate.
    + intros [= <-]. split; [reflexivity|]. now apply String.eqb_neq.
Qed.

(** X30.  The configuration [validateEnvironment] returns has
    every declared default filled in: [PORT] is a number, [NODE_ENV] is one
    of development, production and test, the four base URLs are non-empty
    texts, and the five default parameters are finite numbers within their
    declared ranges. *)
Theorem validated_environment_has_every_default env value :
  Startup.validateEnvironment rt Joi_uri env = inr value ->
  (exists n, value !! "PORT" = Some (JNum n))
  /\ (exists mode,
        value !! "NODE_ENV" = Some (JStr mode)
        /\ In mode [ "development"; "production"; "test" ])
  /\ (forall name,
        In name [ "OPENAI_BASE_URL"; "ANTHROPIC_BASE_URL"; "GROQ_BASE_URL";
                  "GOOGLE_AI_BASE_URL" ] ->
        exists address, value !! name = Some (JStr address) /\ address <> EmptyString)
  /\ (forall name lo hi,
        In (name, (lo, hi))
          [ ("DEFAULT_TEMPERATURE", (0 # 1, 2 # 1));
            ("DEFAULT_MAX_TOKENS", (1 # 1, 8000 # 1));
            ("DEFAULT_TOP_P", (0 # 1, 1 # 1));
            ("DEFAULT_FREQUENCY_PENALTY", (-2 # 1, 2 # 1));
            ("DEFAULT_PRESENCE_PENALTY", (-2 # 1, 2 # 1)) ] ->
        exists q, value !! name = Some (JNum (Num q))
                  /\ Qle_bool lo q = true /\ Qle_bool q hi = true).
Proof.
  unfold Startup.validateEnvironment.
  destruct (Startup.validate_env rt Joi_uri env) as [detail|validated] eqn:Hvalid;
    [discriminate|].
  destruct (negb _ && _); [discriminate|]. intros [= <-].
  unfold Startup.validate_env in Hvalid.
  pose proof (fun name rule Hin =>
                validate_keys_lookup Startup.envSchema env (JStr <$> env) validated name rule
                  envSchema_names_are_distinct Hin Hvalid) as Hlookup.
  split; [|split; [|split]].
  - destruct (Hlookup "PORT" (Startup.number_rule None (Num (3001 # 1))))
      as (seen & r & Hrule & ->); [cbn; tauto|].
    cbn [Startup.validate_rule] in Hrule.
    destruct (env !! "PORT") as [x|]; [|injection Hrule as <-; eauto].
    destruct (Joi_number_coerce rt x) as [[[q| |neg] [|]]|]; try discriminate Hrule.
    destruct (unsafe_number q); [discriminate Hrule|]. injection Hrule as <-. eauto.
  - destruct (Hlookup "NODE_ENV"
                (Startup.string_rule (Some [ "development"; "production"; "test" ])
                   (Some "development")))
      as (seen & r & Hrule & ->); [cbn; tauto|].
    cbn [Startup.validate_rule] in Hrule.
    destruct (env !! "NODE_ENV") as [x|].
    + apply plain_string_accepts in Hrule as [-> Hlisted]. eauto.
    + injection Hrule as <-. exists "development". cbn; tauto.
  - intros name Hname.
    assert (Hrule : exists d, In (name, Startup.uri_rule d) Startup.envSchema
                              /\ d <> EmptyString).
    { cbn [In] in Hname.
      destruct Hname as [<-|[<-|[<-|[<-|[]]]]]; eexists;
        (split; [unfold Startup.envSchema; cbn [In]; tauto | discriminate]). }
    destruct Hrule as (d & Hin & Hd).
    destruct (Hlookup name (Startup.uri_rule d) Hin) as (seen & r & Hrule & ->).
    cbn [Startup.validate_rule] in Hrule.
    destruct (env !! name) as [x|]; [|injection Hrule as <-; eauto].
    cbn [fmap option_fmap option_map] in Hrule.
    destruct (validate rt (Joi_string false None None None []) [ name ] (Some (JStr x)))
      as [r0 [|e es]] eqn:Hstring; [|discriminate Hrule].
    apply plain_string_accepts in Hstring as [-> Hfilled].
    destruct (Joi_uri x); [|discriminate Hrule]. injection Hrule as <-. eauto.
  - intros name lo hi Hname.
    assert (Hrule : exists d q,
              In (name, Startup.number_rule (Some (lo, hi)) d) Startup.envSchema
              /\ d = Num q /\ Qle_bool lo q = true /\ Qle_bool q hi = true).
    { cbn [In] in Hname.
      destruct Hname as [[= <- <- <-]|[[= <- <- <-]|[[= <- <- <-]|[[= <- <- <-]
                        |[[= <- <- <-]|[]]]]]]; eexists; eexists;
        (split; [unfold Startup.envSchema; cbn [In]; tauto|]);
        (split; [reflexivity|]); split; reflexivity. }
    destruct Hrule as (d & q0 & Hin & -> & Hlo & Hhi).
    destruct (Hlookup name _ Hin) as (seen & r & Hrule & ->).
    cbn [Startup.validate_rule] in Hrule.
    apply number_accepts in Hrule as [[_ ->]|(q & -> & Hq)]; eauto.
Qed.

End StartupChecks.

Lemma validated_environment_has_every_default_witness :
  exists value,
    Startup.validateEnvironment Sample.runtime Deployment.any_uri Deployment.production
    = inr value
    /\ exists q, value !! "DEFAULT_TEMPERATURE" = Some (JNum (Num q))
                 /\ Qle_bool (0 # 1) q = true /\ Qle_bool q (2 # 1) = true.
Proof.
  eexists. split; [reflexivity|].
  apply (proj2 (proj2 (proj2 (validated_environment_has_every_default Sample.runtime
                                Deployment.any_uri Deployment.production _ eq_refl)))).
  left. reflexivity.
Defined.

